(* ===================================================================== *)
(* Deployment core: volume bindings (types/volume.go) and the container  *)
(* creation pipeline (cluster/calcium/create.go), embedded shallowly.    *)
(*                                                                       *)
(* How the Go code is rendered:                                          *)
(* - a string is a [string] of bytes, an [int64] or [int] a [Z] whose    *)
(*   arithmetic wraps at 64 bits, a [float64] a primitive float;         *)
(* - an [error] is its message, nil is [None]; a pointer that may be nil *)
(*   is an [option]; a map is a [gmap], and where Go leaves the order of *)
(*   its iteration open the result is a relation over the orders;        *)
(* - a struct is a record in a module of its name;                       *)
(* - sequential code that calls the engine, the store and the helpers of *)
(*   other packages is a state-passing computation over an arbitrary     *)
(*   cluster state, which logs its calls and may panic;                  *)
(* - the closures given to utils.Txn take and return the variables they  *)
(*   share with their caller;                                            *)
(* - the goroutines of doCreateContainer are a step relation on the      *)
(*   state of a deployment, whose history holds every call, every send   *)
(*   on the result channel and its close.                                *)
(* ===================================================================== *)

From Stdlib Require Import ZArith NArith Ascii String List Lia PrimFloat.
From Stdlib Require Import DecimalString DecimalPos DecimalZ.
From stdpp Require Import gmap strings list fin_maps sorting.

Local Open Scope string_scope.
Local Open Scope Z_scope.

(* --------------------------------------------------------------------- *)
(* Go values                                                             *)
(* --------------------------------------------------------------------- *)

(** A Go [error] value is identified with its message; [nil] is [None]. *)
Definition error := string.

(** [int64] values are integers; arithmetic on them wraps around. *)
Definition wrap64 (z : Z) : Z := (z + 2 ^ 63) mod 2 ^ 64 - 2 ^ 63.

Definition minInt64 : Z := - 2 ^ 63.
Definition maxInt64 : Z := 2 ^ 63 - 1.
Definition int64_range (z : Z) : Prop := minInt64 <= z <= maxInt64.

(* --------------------------------------------------------------------- *)
(* The pieces of Go's strings, strconv and fmt packages that volume.go   *)
(* calls.                                                                *)
(* --------------------------------------------------------------------- *)

Module strings.

(** [strings.Split(s, sep)] for a separator of one byte: the pieces of [s]
    between the occurrences of [sep]; never empty. *)
Fixpoint Split (s : string) (sep : ascii) : list string :=
  match s with
  | EmptyString => [EmptyString]
  | String c rest =>
      if Ascii.eqb c sep then EmptyString :: Split rest sep
      else match Split rest sep with
           | [] => [String c EmptyString]
           | p :: ps => String c p :: ps
           end
  end.

(** [strings.HasSuffix(s, suffix)]:
    [len(s) >= len(suffix) && s[len(s)-len(suffix):] == suffix]. *)
Definition HasSuffix (s suffix : string) : bool :=
  (String.length suffix <=? String.length s)%nat &&
  String.eqb
    (String.substring (String.length s - String.length suffix)
                      (String.length suffix) s)
    suffix.

(** [strings.Contains(s, substr)]. *)
Definition Contains (s substr : string) : bool :=
  match String.index 0 substr s with
  | Some _ => true
  | None => false
  end.

(** [strings.ReplaceAll(s, old, "")] for [old] of one byte: every
    occurrence of the byte is dropped. *)
Fixpoint RemoveAll (s : string) (old : ascii) : string :=
  match s with
  | EmptyString => EmptyString
  | String c rest =>
      if Ascii.eqb c old then RemoveAll rest old
      else String c (RemoveAll rest old)
  end.

(** [s] has no byte [c]. *)
Fixpoint no_byte (c : ascii) (s : string) : bool :=
  match s with
  | EmptyString => true
  | String c' rest => negb (Ascii.eqb c' c) && no_byte c rest
  end.

End strings.

Module strconv.

Definition maxUint64 : N := (2 ^ 64 - 1)%N.

(** The value of a decimal digit byte, as [ParseUint] reads it in base
    ten: any other byte is a syntax error. *)
Definition digit (c : ascii) : option N :=
  let n := N_of_ascii c in
  if ((48 <=? n) && (n <=? 57))%N then Some (n - 48)%N else None.

Inductive NumError := ErrSyntax | ErrRange.

(** The digit loop of [strconv.ParseUint(s, 10, 64)], with its two overflow
    tests: [n >= cutoff] before the multiplication, and the sum passing
    [maxVal]. *)
Fixpoint ParseUint_loop (s : string) (n : N) : NumError + N :=
  match s with
  | EmptyString => inr n
  | String c rest =>
      match digit c with
      | None => inl ErrSyntax
      | Some d =>
          if (maxUint64 / 10 + 1 <=? n)%N then inl ErrRange
          else
            let n1 := (n * 10 + d)%N in
            if (maxUint64 <? n1)%N then inl ErrRange
            else ParseUint_loop rest n1
      end
  end.

Definition ParseUint (s : string) : NumError + N :=
  match s with
  | EmptyString => inl ErrSyntax
  | _ => ParseUint_loop s 0%N
  end.

Definition quote (s : string) : string :=
  String (ascii_of_nat 34) (s ++ String (ascii_of_nat 34) EmptyString).

Definition num_error (s : string) (e : NumError) : error :=
  "strconv.ParseInt: parsing " ++ quote s ++
  match e with
  | ErrSyntax => ": invalid syntax"
  | ErrRange => ": value out of range"
  end.

(** [strconv.ParseInt(s, 10, 64)]: an optional sign, then [ParseUint]; the
    magnitude is checked against [1 << 63]. The value returned next to an
    error is not used by the callers here and is left out. *)
Definition ParseInt (s : string) : error + Z :=
  match s with
  | EmptyString => inl (num_error s ErrSyntax)
  | String c rest =>
      let '(neg, digits) :=
        if Ascii.eqb c "+" then (false, rest)
        else if Ascii.eqb c "-" then (true, rest)
        else (false, s) in
      match ParseUint digits with
      | inl e => inl (num_error s e)
      | inr un =>
          let cutoff := (2 ^ 63)%N in
          if negb neg && (cutoff <=? un)%N then inl (num_error s ErrRange)
          else if neg && (cutoff <? un)%N then inl (num_error s ErrRange)
          else inr (if neg then - Z.of_N un else Z.of_N un)
      end
  end.

(** [fmt.Sprintf("%d", n)] for an [int64]: the decimal numeral, with a
    minus sign for a negative number and no leading zero. *)
Definition FormatInt (z : Z) : string := NilZero.string_of_int (Z.to_int z).

(** The number a decimal numeral denotes after the digits read so far
    gave [acc]. *)
Fixpoint uint_value (d : Decimal.uint) (acc : N) : N :=
  match d with
  | Decimal.Nil => acc
  | Decimal.D0 d => uint_value d (acc * 10)
  | Decimal.D1 d => uint_value d (acc * 10 + 1)
  | Decimal.D2 d => uint_value d (acc * 10 + 2)
  | Decimal.D3 d => uint_value d (acc * 10 + 3)
  | Decimal.D4 d => uint_value d (acc * 10 + 4)
  | Decimal.D5 d => uint_value d (acc * 10 + 5)
  | Decimal.D6 d => uint_value d (acc * 10 + 6)
  | Decimal.D7 d => uint_value d (acc * 10 + 7)
  | Decimal.D8 d => uint_value d (acc * 10 + 8)
  | Decimal.D9 d => uint_value d (acc * 10 + 9)
  end%N.

End strconv.

(* --------------------------------------------------------------------- *)
(* types/volume.go                                                       *)
(* --------------------------------------------------------------------- *)

(** Modelled from the spec: the constant [AUTO] is declared outside
    volume.go; the source-suffix sentinel is the string AUTO. *)
Definition AUTO : string := "AUTO".

(** VolumeBinding src:dst:flags:size *)
Record VolumeBinding := mkVolumeBinding {
  Source : string;
  Destination : string;
  Flags : string;
  SizeInBytes : Z
}.

#[global] Instance VolumeBinding_eq_dec : EqDecision VolumeBinding.
Proof. solve_decision. Defined.

#[global] Instance VolumeBinding_countable : Countable VolumeBinding.
Proof.
  refine (inj_countable'
            (fun vb => (Source vb, Destination vb, Flags vb, SizeInBytes vb))
            (fun t => match t with (s, d, f, z) => mkVolumeBinding s d f z end)
            _).
  intros []; reflexivity.
Defined.

(** RequireSchedule returns true if volume binding requires schedule *)
Definition RequireSchedule (vb : VolumeBinding) : bool :=
  strings.HasSuffix (Source vb) AUTO && negb (String.eqb (Flags vb) "").

Definition RequireInfinity (vb : VolumeBinding) : bool :=
  strings.HasSuffix (Source vb) AUTO
  && negb (strings.Contains (Flags vb) "m")
  && (SizeInBytes vb =? 0).

(** RequireMonopoly returns true if volume binding requires monopoly
    schedule *)
Definition RequireMonopoly (vb : VolumeBinding) : bool :=
  strings.HasSuffix (Source vb) AUTO && strings.Contains (Flags vb) "m".

(** The [%v] rendering of a binding inside an error message. *)
Definition show_binding (vb : VolumeBinding) : string :=
  "{" ++ Source vb ++ " " ++ Destination vb ++ " " ++ Flags vb ++ " "
      ++ strconv.FormatInt (SizeInBytes vb) ++ "}".

(** Validate return error if invalid *)
Definition Validate (vb : VolumeBinding) : option error :=
  if String.eqb (Destination vb) "" then
    Some "invalid volume, dest must be provided"
  else if RequireMonopoly vb && (SizeInBytes vb =? 0) then
    Some ("invalid volume, size must be provided for monopoly schedule: "
            ++ show_binding vb)
  else None.

(** NewVolumeBinding returns pointer of VolumeBinding: the pair of the
    pointer ([None] is nil) and the error. *)
Definition NewVolumeBinding (volume : string)
  : option VolumeBinding * option error :=
  let finish src dst flags size :=
    let vb := mkVolumeBinding src dst flags size in
    (Some vb, Validate vb) in
  match strings.Split volume ":" with
  | [src; dst] => finish src dst "" 0
  | [src; dst; flags] => finish src dst flags 0
  | [src; dst; flags; sz] =>
      match strconv.ParseInt sz with
      | inl err => (None, Some err)
      | inr size => finish src dst flags size
      end
  | _ => (None, Some ("invalid volume: " ++ volume))
  end.

(** ToString returns volume string *)
Definition ToString (vb : VolumeBinding) (normalize : bool) : string :=
  let flags :=
    if normalize then strings.RemoveAll (Flags vb) "m" else Flags vb in
  if String.eqb (Flags vb) "" && (SizeInBytes vb =? 0) then
    Source vb ++ ":" ++ Destination vb
  else if SizeInBytes vb =? 0 then
    Source vb ++ ":" ++ Destination vb ++ ":" ++ flags
  else
    Source vb ++ ":" ++ Destination vb ++ ":" ++ flags ++ ":"
      ++ strconv.FormatInt (SizeInBytes vb).

(** VolumeBindings is a collection of VolumeBinding. The Go slice holds
    pointers; the bindings are taken by value here, a nil entry being no
    binding at all. *)
Abbreviation VolumeBindings := (list VolumeBinding).

Fixpoint insert_sorted (vb : VolumeBinding) (vbs : VolumeBindings)
  : VolumeBindings :=
  match vbs with
  | [] => [vb]
  | vb' :: rest =>
      if String.ltb (ToString vb' false) (ToString vb false)
      then vb' :: insert_sorted vb rest
      else vb :: vbs
  end.

(** [sort.Slice] with the less function of ToStringSlice; the sort is not
    stable in Go, and this is one of the orders it may produce. Go sorts
    the receiver in place; the calls in create.go pass [sorted = false]. *)
Definition sort_bindings (vbs : VolumeBindings) : VolumeBindings :=
  foldr insert_sorted [] vbs.

(** ToStringSlice converts VolumeBindings into string slice *)
Definition ToStringSlice (vbs : VolumeBindings) (sorted normalize : bool)
  : list string :=
  let vbs := if sorted then sort_bindings vbs else vbs in
  foldl (fun volumes vb => (volumes ++ [ToString vb normalize])%list) [] vbs.

(** Modelled from the spec: VolumeMap is declared outside volume.go; it
    assigns a scheduled binding a concrete resource ID, which
    [GetResourceID] returns. *)
Record VolumeMap := mkVolumeMap {
  GetResourceID : string;
  ResourceSize : Z
}.

(** Modelled from the spec: VolumePlan is declared outside volume.go; it is
    a mapping from a scheduled VolumeBinding to a VolumeMap. *)
Abbreviation VolumePlan := (gmap VolumeBinding VolumeMap).

(** Modelled from the spec: [GetVolumeMap(vb)] is the VolumeMap the plan
    assigns to [vb], nil when it assigns none. *)
Definition GetVolumeMap (plan : VolumePlan) (vb : VolumeBinding)
  : option VolumeMap := plan !! vb.


(** ApplyPlan creates new VolumeBindings according to volume plan *)
Definition ApplyPlan (vbs : VolumeBindings) (plan : VolumePlan)
  : VolumeBindings :=
  foldl
    (fun res vb =>
       let newVb :=
         mkVolumeBinding (Source vb) (Destination vb) (Flags vb)
                         (SizeInBytes vb) in
       let newVb :=
         match GetVolumeMap plan vb with
         | Some vmap =>
             mkVolumeBinding (GetResourceID vmap) (Destination newVb)
                             (Flags newVb) (SizeInBytes newVb)
         | None => newVb
         end in
       (res ++ [newVb])%list)
    [] vbs.

(** The key of [sizeMap] in Merge: [[3]string{Source, Destination, Flags}]. *)
Abbreviation volume_key := (string * string * string)%type.

(** The body of the first loop of Merge, on the pair of [sizeMap] and
    [hardVolumes]; [+=] on an [int64] wraps. *)
Definition Merge_visit (acc : gmap volume_key Z * VolumeBindings)
    (vb : VolumeBinding) : gmap volume_key Z * VolumeBindings :=
  let '(sizeMap, hardVolumes) := acc in
  if negb (RequireSchedule vb) then (sizeMap, (hardVolumes ++ [vb])%list)
  else
    let key := (Source vb, Destination vb, Flags vb) in
    match sizeMap !! key with
    | Some size =>
        (<[key := wrap64 (size + SizeInBytes vb)]> sizeMap, hardVolumes)
    | None => (<[key := SizeInBytes vb]> sizeMap, hardVolumes)
    end.

Definition Merge_collect (vbs vbs2 : VolumeBindings)
  : gmap volume_key Z * VolumeBindings :=
  foldl Merge_visit (∅, []) (vbs ++ vbs2).

(** The second loop of Merge, over the entries of [sizeMap] in the order
    [order] in which [range] happens to yield them. *)
Definition Merge_emit (order : list (volume_key * Z)) : VolumeBindings :=
  foldl
    (fun softVolumes '(key, size) =>
       if size <? 0 then softVolumes
       else (softVolumes ++ [mkVolumeBinding key.1.1 key.1.2 key.2 size])%list)
    [] order.

(** Merge combines two VolumeBindings. Go leaves the iteration order of a
    map unspecified, so Merge is a relation: any order of the entries of
    [sizeMap] may be the one [range] takes. The error is always nil. *)
Inductive Merge (vbs vbs2 : VolumeBindings)
  : VolumeBindings -> VolumeBindings -> option error -> Prop :=
| Merge_ranges (order : list (volume_key * Z)) :
    order ≡ₚ map_to_list (Merge_collect vbs vbs2).1 ->
    Merge vbs vbs2 (Merge_emit order) (Merge_collect vbs vbs2).2 None.

(** One run of Merge: [range] in the order of [map_to_list]. *)
Definition Merge_run (vbs vbs2 : VolumeBindings)
  : VolumeBindings * VolumeBindings * option error :=
  (Merge_emit (map_to_list (Merge_collect vbs vbs2).1),
   (Merge_collect vbs vbs2).2, None).

(** What one visit of the first loop of Merge does to [sizeMap] alone. *)
Definition Merge_sizes (sizeMap : gmap volume_key Z) (vb : VolumeBinding)
  : gmap volume_key Z := (Merge_visit (sizeMap, []) vb).1.

(** What the second loop of Merge appends for one entry of [sizeMap]. *)
Definition Merge_entry (e : volume_key * Z) : option VolumeBinding :=
  if e.2 <? 0 then None
  else Some (mkVolumeBinding e.1.1.1 e.1.1.2 e.1.2 e.2).

(** What the loop of ApplyPlan appends for one binding. *)
Definition ApplyPlan_binding (plan : VolumePlan) (vb : VolumeBinding)
  : VolumeBinding :=
  match GetVolumeMap plan vb with
  | Some vmap =>
      mkVolumeBinding (GetResourceID vmap) (Destination vb) (Flags vb)
                      (SizeInBytes vb)
  | None => vb
  end.

(* --------------------------------------------------------------------- *)
(* The types create.go works on                                          *)
(* --------------------------------------------------------------------- *)

(** An object of a package outside the core (an engine, a reader manager,
    a NUMA node id) is carried as an opaque handle. *)
Definition handle := string.

(** CPUMap: logical-core identifier to share. *)
Abbreviation CPUMap := (gmap string Z).

Module Hook.
Record t := mk {
  AfterStart : list string;
  BeforeStop : list string;
  Force : bool
}.
End Hook.

Module LogConfig.
Record t := mk {
  Type_ : string;
  Config : gmap string string
}.
End LogConfig.

Module Entrypoint.
Record t := mk {
  Name : string;
  Command : string;
  Privileged : bool;
  Dir : string;
  Log : option LogConfig.t;
  Publish : list string;
  HealthCheck : option handle;
  Hook : option Hook.t;
  RestartPolicy : string;
  Sysctls : gmap string string
}.
End Entrypoint.

Module LabelMeta.
Record t := mk {
  Publish : list string;
  HealthCheck : option handle
}.
End LabelMeta.

Module DeployOptions.
Record t := mk {
  Name : string;
  Entrypoint : Entrypoint.t;
  Podname : string;
  Image : string;
  ExtraArgs : string;
  CPUQuota : float;
  Memory : Z;
  Storage : Z;
  Count : Z;
  Env : list string;
  DNS : list string;
  ExtraHosts : list string;
  Volumes : VolumeBindings;
  Networks : gmap string string;
  NetworkMode : string;
  User : string;
  Debug : bool;
  OpenStdin : bool;
  Labels : gmap string string;
  SoftLimit : bool;
  RawArgs : string;
  Lambda : bool;
  (** [map[string]ReaderManager], as the list of its entries in the order
      [range] yields them. *)
  Data : list (string * handle);
  AfterCreate : list string;
  IgnoreHook : bool;
  ProcessIdent : string
}.

Definition set_ProcessIdent (opts : t) (ident : string) : t :=
  mk (Name opts) (Entrypoint opts) (Podname opts) (Image opts)
     (ExtraArgs opts) (CPUQuota opts) (Memory opts) (Storage opts)
     (Count opts) (Env opts) (DNS opts) (ExtraHosts opts) (Volumes opts)
     (Networks opts) (NetworkMode opts) (User opts) (Debug opts)
     (OpenStdin opts) (Labels opts) (SoftLimit opts) (RawArgs opts)
     (Lambda opts) (Data opts) (AfterCreate opts) (IgnoreHook opts) ident.
End DeployOptions.

(** NodeInfo, the allocator's output for one node. *)
Module NodeInfo.
Record t := mk {
  Name : string;
  Deploy : Z;
  CPUPlan : list CPUMap;
  VolumePlans : list VolumePlan
}.
End NodeInfo.

Module Node.
Record t := mk {
  Name : string;
  Engine : handle
}.
(** [&types.Node{}] *)
Definition zero : t := mk "" "".
End Node.

Module Container.
Record t := mk {
  ID : string;
  Name : string;
  Podname : string;
  Nodename : string;
  CPU : CPUMap;
  Quota : float;
  Memory : Z;
  Storage : Z;
  Hook : option Hook.t;
  Privileged : bool;
  Engine : handle;
  SoftLimit : bool;
  Image : string;
  Env : list string;
  User : string;
  Volumes : VolumeBindings;
  VolumePlan : VolumePlan;
  Labels : gmap string string
}.

Definition set_ID (c : t) (v : string) : t :=
  mk v (Name c) (Podname c) (Nodename c) (CPU c) (Quota c) (Memory c)
     (Storage c) (Hook c) (Privileged c) (Engine c) (SoftLimit c) (Image c)
     (Env c) (User c) (Volumes c) (VolumePlan c) (Labels c).
Definition set_Name (c : t) (v : string) : t :=
  mk (ID c) v (Podname c) (Nodename c) (CPU c) (Quota c) (Memory c)
     (Storage c) (Hook c) (Privileged c) (Engine c) (SoftLimit c) (Image c)
     (Env c) (User c) (Volumes c) (VolumePlan c) (Labels c).
Definition set_Hook (c : t) (v : option Hook.t) : t :=
  mk (ID c) (Name c) (Podname c) (Nodename c) (CPU c) (Quota c) (Memory c)
     (Storage c) v (Privileged c) (Engine c) (SoftLimit c) (Image c)
     (Env c) (User c) (Volumes c) (VolumePlan c) (Labels c).
Definition set_User (c : t) (v : string) : t :=
  mk (ID c) (Name c) (Podname c) (Nodename c) (CPU c) (Quota c) (Memory c)
     (Storage c) (Hook c) (Privileged c) (Engine c) (SoftLimit c) (Image c)
     (Env c) v (Volumes c) (VolumePlan c) (Labels c).
Definition set_Labels (c : t) (v : gmap string string) : t :=
  mk (ID c) (Name c) (Podname c) (Nodename c) (CPU c) (Quota c) (Memory c)
     (Storage c) (Hook c) (Privileged c) (Engine c) (SoftLimit c) (Image c)
     (Env c) (User c) (Volumes c) (VolumePlan c) v.
End Container.

(** CreateContainerMessage, the result streamed for one replica. *)
Module CreateContainerMessage.
Record t := mk {
  Podname : string;
  Nodename : string;
  ContainerID : string;
  ContainerName : string;
  Error : option error;
  CPU : CPUMap;
  Quota : float;
  Memory : Z;
  Storage : Z;
  VolumePlan : VolumePlan;
  (** [map[string][]string]; nil is [None]. *)
  Publish : option (gmap string (list string));
  Hook : list string
}.

Definition set_ContainerID (m : t) (v : string) : t :=
  mk (Podname m) (Nodename m) v (ContainerName m) (Error m) (CPU m)
     (Quota m) (Memory m) (Storage m) (VolumePlan m) (Publish m) (Hook m).
Definition set_ContainerName (m : t) (v : string) : t :=
  mk (Podname m) (Nodename m) (ContainerID m) v (Error m) (CPU m)
     (Quota m) (Memory m) (Storage m) (VolumePlan m) (Publish m) (Hook m).
Definition set_Error (m : t) (v : option error) : t :=
  mk (Podname m) (Nodename m) (ContainerID m) (ContainerName m) v (CPU m)
     (Quota m) (Memory m) (Storage m) (VolumePlan m) (Publish m) (Hook m).
Definition set_Publish (m : t) (v : option (gmap string (list string))) : t :=
  mk (Podname m) (Nodename m) (ContainerID m) (ContainerName m) (Error m)
     (CPU m) (Quota m) (Memory m) (Storage m) (VolumePlan m) v (Hook m).
Definition set_Hook (m : t) (v : list string) : t :=
  mk (Podname m) (Nodename m) (ContainerID m) (ContainerName m) (Error m)
     (CPU m) (Quota m) (Memory m) (Storage m) (VolumePlan m) (Publish m) v.
End CreateContainerMessage.

(** enginetypes.VirtualizationCreateOptions *)
Module VirtualizationCreateOptions.
Record t := mk {
  Seq : Z;
  CPU : CPUMap;
  Quota : float;
  Memory : Z;
  Storage : Z;
  NUMANode : handle;
  SoftLimit : bool;
  RawArgs : string;
  Lambda : bool;
  User : string;
  DNS : list string;
  Image : string;
  Stdin : bool;
  Hosts : list string;
  Volumes : list string;
  VolumePlan : gmap string (gmap string Z);
  Debug : bool;
  Network : string;
  Networks : gmap string string;
  WorkingDir : string;
  Privileged : bool;
  RestartPolicy : string;
  Sysctl : gmap string string;
  Publish : list string;
  LogType : string;
  LogConfig : gmap string string;
  Name : string;
  Cmd : list string;
  Env : list string;
  Labels : gmap string string
}.
End VirtualizationCreateOptions.

(** enginetypes.VirtualizationCreated *)
Module VirtualizationCreated.
Record t := mk {
  ID : string;
  Name : string
}.
End VirtualizationCreated.

(** enginetypes.VirtualizationInfo *)
Module VirtualizationInfo.
Record t := mk {
  ID : string;
  User : string;
  Running : bool;
  (** [map[string]string]; nil is [None]. *)
  Networks : option (gmap string string)
}.
End VirtualizationInfo.

(** store.ActionIncr and store.ActionDecr *)
Inductive Action := ActionIncr | ActionDecr.

(** Modelled from the spec: the two label keys are constants of package
    cluster, declared outside create.go; the mandatory labels are ERU_MARK
    and ERU_META. *)
Definition ERUMark : string := "ERU_MARK".
Definition LabelMeta : string := "ERU_META".

(** Modelled from the spec: the validation errors of CreateContainer,
    [types.NewDetailedErr] of ErrBadCount, ErrBadMemory and ErrBadCPU. *)
Definition ErrBadCount : error := "bad Count value".
Definition ErrBadMemory : error := "bad `Memory` value".
Definition ErrBadCPU : error := "bad `CPU` value".

(* --------------------------------------------------------------------- *)
(* The world outside create.go                                           *)
(* --------------------------------------------------------------------- *)

(** What create.go calls and does not define: helpers of utils and types,
    the allocator, the node and container operations of the other files of
    calcium, the engine and the store. Each effectful one is a function on
    a state [W] of the cluster, and may answer any call with an error; a
    timeout or a cancellation of [ctx] is such an answer. *)
Record Externals (W : Type) := mkExternals {
  Normalize : DeployOptions.t -> DeployOptions.t;
  RandomString : Z -> W -> string * W;
  MakeContainerName : string -> string -> string -> string;
  MakeCommandLineArgs : string -> list string;
  EncodeMetaInLabel : LabelMeta.t -> string;
  MakePublishInfo :
    gmap string string -> list string -> gmap string (list string);
  GetNUMANode : Node.t -> CPUMap -> handle;
  ToLiteral : VolumePlan -> gmap string (gmap string Z);
  IntoVolumeMap : VolumePlan -> VolumeMap;
  doAllocResource : DeployOptions.t -> W -> (error + list NodeInfo.t) * W;
  GetNode : string -> W -> (error + Node.t) * W;
  pullImage : Node.t -> string -> W -> option error * W;
  VirtualizationCreate :
    handle -> VirtualizationCreateOptions.t -> W ->
    (error + VirtualizationCreated.t) * W;
  GetReader : handle -> W -> (error + handle) * W;
  doSendFileToContainer :
    handle -> string -> string -> handle -> bool -> bool -> W ->
    option error * W;
  doStartContainer : Container.t -> bool -> W -> (list string * option error) * W;
  Inspect : Container.t -> W -> (error + VirtualizationInfo.t) * W;
  doRemoveContainer : Container.t -> bool -> W -> option error * W;
  AddContainer : Container.t -> W -> option error * W;
  lockNode : string -> W -> (error + Node.t) * W;
  unlockNode : string -> W -> W;
  UpdateNodeResource :
    Node.t -> CPUMap -> float -> Z -> Z -> VolumeMap -> Action -> W ->
    option error * W;
  UpdateProcessing : DeployOptions.t -> string -> Z -> W -> option error * W;
  DeleteProcessing : DeployOptions.t -> NodeInfo.t -> W -> option error * W
}.

Arguments Normalize {W} _ _.
Arguments RandomString {W} _ _ _.
Arguments MakeContainerName {W} _ _ _ _.
Arguments MakeCommandLineArgs {W} _ _.
Arguments EncodeMetaInLabel {W} _ _.
Arguments MakePublishInfo {W} _ _ _.
Arguments GetNUMANode {W} _ _ _.
Arguments ToLiteral {W} _ _.
Arguments IntoVolumeMap {W} _ _.
Arguments doAllocResource {W} _ _ _.
Arguments GetNode {W} _ _ _.
Arguments pullImage {W} _ _ _ _.
Arguments VirtualizationCreate {W} _ _ _ _.
Arguments GetReader {W} _ _ _.
Arguments doSendFileToContainer {W} _ _ _ _ _ _ _ _.
Arguments doStartContainer {W} _ _ _ _.
Arguments Inspect {W} _ _ _.
Arguments doRemoveContainer {W} _ _ _ _.
Arguments AddContainer {W} _ _ _.
Arguments lockNode {W} _ _ _.
Arguments unlockNode {W} _ _ _.
Arguments UpdateNodeResource {W} _ _ _ _ _ _ _ _ _.
Arguments UpdateProcessing {W} _ _ _ _ _.
Arguments DeleteProcessing {W} _ _ _ _.

(** The calls of create.go to the world outside, as they are logged. *)
Inductive Call :=
| CallRandomString (n : Z)
| CallAllocResource
| CallGetNode (nodename : string)
| CallPullImage (nodename image : string)
| CallVirtualizationCreate (engine : handle) (name : string)
| CallGetReader (dst : string)
| CallSendFile (ID dst : string)
| CallStartContainer (ID : string)
| CallInspect (ID : string)
| CallAddContainer (ID : string)
| CallRemoveContainer (ID : string)
| CallLockNode (nodename : string)
| CallUnlockNode (nodename : string)
| CallUpdateNodeResource (nodename : string) (action : Action)
| CallUpdateProcessing (nodename : string) (count : Z)
| CallDeleteProcessing (nodename : string).

(** The calls that keep the processing counters; every other call belongs
    to the launch of a replica. *)
Definition is_processing_call (c : Call) : bool :=
  match c with
  | CallUpdateProcessing _ _ | CallDeleteProcessing _ => true
  | _ => false
  end.

(** The state sequential code runs on: the cluster and the log of calls. *)
Record Sys (W : Type) := mkSys {
  world : W;
  calls : list Call
}.
Arguments mkSys {W} _ _.
Arguments world {W} _.
Arguments calls {W} _.

(** A computation: state passing, [None] when the code panics. *)
Definition M (W A : Type) : Type := Sys W -> option (A * Sys W).

Definition ret {W A} (a : A) : M W A := fun s => Some (a, s).

Definition bind {W A B} (m : M W A) (k : A -> M W B) : M W B :=
  fun s =>
    match m s with
    | Some (a, s') => k a s'
    | None => None
    end.

Definition panic {W A} : M W A := fun _ => None.

(** One call to the world outside: logged, then answered. *)
Definition call {W A} (c : Call) (op : W -> A * W) : M W A :=
  fun s =>
    let '(a, w) := op (world s) in
    Some (a, mkSys w (calls s ++ [c])%list).

Notation "'let*' x ':=' m 'in' k" := (bind m (fun x => k))
  (at level 10, x pattern, m at level 100, k at level 200).

(** Modelled from the spec: utils.Txn(ctx, try, then, rollback, timeout)
    is outside create.go. It runs [try]; if [try] returns no error it runs
    [then]; if either returned an error and [rollback] is not nil it runs
    [rollback]; it returns the first error met, that of [try] or of
    [then]. The three functions are closures over variables of the caller:
    [L] is the type of those variables, passed in and out. The context and
    the timeout are not modelled; what they do shows as errors of the calls
    made under them. *)
Definition Txn {W L}
    (try then_ : L -> M W (L * option error))
    (rollback : option (L -> M W (L * option error)))
    (vars : L) : M W (L * option error) :=
  let run_rollback vars txnErr :=
    match rollback with
    | None => ret (vars, Some txnErr)
    | Some rollback =>
        let* (vars, _) := rollback vars in
        ret (vars, Some txnErr)
    end in
  let* (vars, condErr) := try vars in
  match condErr with
  | Some e => run_rollback vars e
  | None =>
      let* (vars, thenErr) := then_ vars in
      match thenErr with
      | Some e => run_rollback vars e
      | None => ret (vars, None)
      end
  end.

(* --------------------------------------------------------------------- *)
(* cluster/calcium/create.go: the launch of one replica                  *)
(* --------------------------------------------------------------------- *)

(** The variables of doCreateAndStartContainer that its three closures
    share. *)
Module launch.
Record vars := mk {
  container : Container.t;
  createContainerMessage : CreateContainerMessage.t;
  err : option error;
  containerCreated : option VirtualizationCreated.t
}.
End launch.

Section Calcium.

Context {W : Type} (ext : Externals W).

Definition doMakeContainerOptions (index : Z) (cpumap : CPUMap)
    (volumePlan : VolumePlan) (opts : DeployOptions.t) (node : Node.t)
  : M W VirtualizationCreateOptions.t :=
  (* entry *)
  let entry := DeployOptions.Entrypoint opts in
  let '(logType, logConfig) :=
    match Entrypoint.Log entry with
    | Some log => (LogConfig.Type_ log, LogConfig.Config log)
    | None => ("", ∅)
    end in
  (* name *)
  let* suffix := call (CallRandomString 6) (RandomString ext 6) in
  let name :=
    MakeContainerName ext (DeployOptions.Name opts) (Entrypoint.Name entry)
                      suffix in
  (* command and user *)
  let slices :=
    MakeCommandLineArgs ext
      (Entrypoint.Command entry ++ " " ++ DeployOptions.ExtraArgs opts) in
  (* env *)
  let env := (DeployOptions.Env opts
                ++ ["APP_NAME=" +:+ DeployOptions.Name opts])%list in
  let env := (env ++ ["ERU_POD=" +:+ DeployOptions.Podname opts])%list in
  let env := (env ++ ["ERU_NODE_NAME=" +:+ Node.Name node])%list in
  let env := (env ++ ["ERU_CONTAINER_NO=" +:+ strconv.FormatInt index])%list in
  let env :=
    (env ++ ["ERU_MEMORY=" +:+ strconv.FormatInt (DeployOptions.Memory opts)])%list in
  let env :=
    (env ++ ["ERU_STORAGE=" +:+ strconv.FormatInt (DeployOptions.Storage opts)])%list in
  (* basic labels, bind to LabelMeta *)
  let labels : gmap string string :=
    <[ERUMark := "1"]>
      (<[LabelMeta :=
           EncodeMetaInLabel ext
             (LabelMeta.mk (Entrypoint.Publish (DeployOptions.Entrypoint opts))
                           (Entrypoint.HealthCheck entry))]> ∅) in
  let labels :=
    map_fold (fun key value (labels : gmap string string) =>
                <[key := value]> labels)
             labels (DeployOptions.Labels opts) in
  ret (VirtualizationCreateOptions.mk
         index cpumap (DeployOptions.CPUQuota opts) (DeployOptions.Memory opts)
         (DeployOptions.Storage opts) (GetNUMANode ext node cpumap)
         (DeployOptions.SoftLimit opts) (DeployOptions.RawArgs opts)
         (DeployOptions.Lambda opts) (DeployOptions.User opts)
         (DeployOptions.DNS opts) (DeployOptions.Image opts)
         (DeployOptions.OpenStdin opts) (DeployOptions.ExtraHosts opts)
         (ToStringSlice (ApplyPlan (DeployOptions.Volumes opts) volumePlan)
                        false true)
         (ToLiteral ext volumePlan) (DeployOptions.Debug opts)
         (DeployOptions.NetworkMode opts) (DeployOptions.Networks opts)
         (Entrypoint.Dir entry) (Entrypoint.Privileged entry)
         (Entrypoint.RestartPolicy entry) (Entrypoint.Sysctls entry)
         (Entrypoint.Publish entry) logType logConfig name slices env labels).

Definition doGetAndPrepareNode (nodename image : string)
  : M W (option Node.t * option error) :=
  let* r := call (CallGetNode nodename) (GetNode ext nodename) in
  match r with
  | inl err => ret (None, Some err)
  | inr node =>
      let* err :=
        call (CallPullImage (Node.Name node) image) (pullImage ext node image) in
      ret (Some node, err)
  end.

(** Modelled from the spec: withNodeLocked(ctx, nodename, fn) is outside
    create.go; it takes the distributed lock of the node, runs [fn] on the
    node record while holding it, and releases it. When the lock or the
    node cannot be had it returns the error and [fn] is not run. *)
Definition withNodeLocked (nodename : string)
    (f : Node.t -> M W (option error)) : M W (option error) :=
  let* r := call (CallLockNode nodename) (lockNode ext nodename) in
  match r with
  | inl err => ret (Some err)
  | inr node =>
      let* err := f node in
      let* _ :=
        call (CallUnlockNode nodename)
             (fun w => (tt, unlockNode ext nodename w)) in
      ret err
  end.

(** The loop [for dst, readerManager := range opts.Data]: the first error
    leaves the try function. Its [err] is declared by [:=] inside the loop
    and is not the [err] of doCreateAndStartContainer. *)
Fixpoint copy_data (engine : handle) (ID : string)
    (data : list (string * handle)) : M W (option error) :=
  match data with
  | [] => ret None
  | (dst, readerManager) :: data =>
      let* r := call (CallGetReader dst) (GetReader ext readerManager) in
      match r with
      | inl err => ret (Some err)
      | inr reader =>
          let* err :=
            call (CallSendFile ID dst)
                 (doSendFileToContainer ext engine ID dst reader true true) in
          match err with
          | Some err => ret (Some err)
          | None => copy_data engine ID data
          end
      end
  end.

(** The first function given to Txn in doCreateAndStartContainer. *)
Definition doCreateAndStartContainer_try (no : Z) (node : Node.t)
    (opts : DeployOptions.t) (cpu : CPUMap) (volumePlan : VolumePlan)
    (v : launch.vars) : M W (launch.vars * option error) :=
  let container := launch.container v in
  let createContainerMessage := launch.createContainerMessage v in
  (* get config *)
  let* config := doMakeContainerOptions no cpu volumePlan opts node in
  let container :=
    Container.set_Name container (VirtualizationCreateOptions.Name config) in
  let container :=
    Container.set_Labels container (VirtualizationCreateOptions.Labels config) in
  let createContainerMessage :=
    CreateContainerMessage.set_ContainerName createContainerMessage
      (Container.Name container) in
  (* create container *)
  let* r :=
    call (CallVirtualizationCreate (Node.Engine node)
                                   (VirtualizationCreateOptions.Name config))
         (VirtualizationCreate ext (Node.Engine node) config) in
  match r with
  | inl err =>
      ret (launch.mk container createContainerMessage (Some err) None, Some err)
  | inr containerCreated =>
      let container :=
        Container.set_ID container (VirtualizationCreated.ID containerCreated) in
      (* Copy data to container *)
      let* dataErr :=
        if (0 <? length (DeployOptions.Data opts))%nat
        then copy_data (Node.Engine node) (Container.ID container)
                       (DeployOptions.Data opts)
        else ret None in
      match dataErr with
      | Some dataErr =>
          ret (launch.mk container createContainerMessage None
                         (Some containerCreated), Some dataErr)
      | None =>
          (* deal with hook *)
          let container :=
            match Container.Hook container with
            | Some hook =>
                if (0 <? length (DeployOptions.AfterCreate opts))%nat then
                  Container.set_Hook container
                    (Some (Hook.mk
                             (DeployOptions.AfterCreate opts
                                ++ Hook.AfterStart hook)%list
                             [] (Hook.Force hook)))
                else container
            | None => container
            end in
          (* start first *)
          let* (hook, err) :=
            call (CallStartContainer (Container.ID container))
                 (doStartContainer ext container
                                   (DeployOptions.IgnoreHook opts)) in
          let createContainerMessage :=
            CreateContainerMessage.set_Hook createContainerMessage hook in
          match err with
          | Some err =>
              ret (launch.mk container createContainerMessage (Some err)
                             (Some containerCreated), Some err)
          | None =>
              (* inspect real meta *)
              let* r :=
                call (CallInspect (Container.ID container))
                     (Inspect ext container) in
              match r with
              | inl err =>
                  ret (launch.mk container createContainerMessage (Some err)
                                 (Some containerCreated), Some err)
              | inr containerInfo =>
                  (* update meta *)
                  let createContainerMessage :=
                    match VirtualizationInfo.Networks containerInfo with
                    | Some networks =>
                        CreateContainerMessage.set_Publish
                          createContainerMessage
                          (Some (MakePublishInfo ext networks
                                   (Entrypoint.Publish
                                      (DeployOptions.Entrypoint opts))))
                    | None => createContainerMessage
                    end in
                  (* reset users *)
                  let container :=
                    if negb (String.eqb (VirtualizationInfo.User containerInfo)
                                        (Container.User container))
                    then Container.set_User container
                           (VirtualizationInfo.User containerInfo)
                    else container in
                  (* reset container.hook *)
                  let container :=
                    Container.set_Hook container
                      (Entrypoint.Hook (DeployOptions.Entrypoint opts)) in
                  ret (launch.mk container createContainerMessage None
                                 (Some containerCreated), None)
              end
          end
      end
  end.

(** The second function given to Txn in doCreateAndStartContainer. *)
Definition doCreateAndStartContainer_then (v : launch.vars)
  : M W (launch.vars * option error) :=
  let container := launch.container v in
  (* store eru container *)
  let* err :=
    call (CallAddContainer (Container.ID container))
         (AddContainer ext container) in
  match err with
  | Some e =>
      ret (launch.mk container (launch.createContainerMessage v) err
                     (launch.containerCreated v), Some e)
  | None =>
      (* non-empty message.ContainerID means "core saves metadata of this
         container" *)
      ret (launch.mk container
             (CreateContainerMessage.set_ContainerID
                (launch.createContainerMessage v) (Container.ID container))
             err (launch.containerCreated v), None)
  end.

(** The third function given to Txn in doCreateAndStartContainer. The
    [err] of the removal is declared by [:=] in the [if] and is not the
    [err] of doCreateAndStartContainer. *)
Definition doCreateAndStartContainer_rollback (v : launch.vars)
  : M W (launch.vars * option error) :=
  let container := launch.container v in
  let createContainerMessage :=
    CreateContainerMessage.set_Error (launch.createContainerMessage v)
                                     (launch.err v) in
  let v := launch.mk container createContainerMessage (launch.err v)
                     (launch.containerCreated v) in
  match launch.err v with
  | Some _ =>
      if negb (String.eqb (Container.ID container) "") then
        let* removeErr :=
          call (CallRemoveContainer (Container.ID container))
               (doRemoveContainer ext container true) in
        match removeErr with
        | Some removeErr => ret (v, Some removeErr)
        | None =>
            ret (launch.mk container
                   (CreateContainerMessage.set_ContainerID
                      createContainerMessage "")
                   (launch.err v) (launch.containerCreated v), None)
        end
      else ret (v, None)
  | None => ret (v, None)
  end.

Definition doCreateAndStartContainer (no : Z) (node : Node.t)
    (opts : DeployOptions.t) (cpu : CPUMap) (volumePlan : VolumePlan)
  : M W CreateContainerMessage.t :=
  let container :=
    Container.mk "" "" (DeployOptions.Podname opts) (Node.Name node) cpu
      (DeployOptions.CPUQuota opts) (DeployOptions.Memory opts)
      (DeployOptions.Storage opts)
      (Entrypoint.Hook (DeployOptions.Entrypoint opts))
      (Entrypoint.Privileged (DeployOptions.Entrypoint opts))
      (Node.Engine node) (DeployOptions.SoftLimit opts)
      (DeployOptions.Image opts) (DeployOptions.Env opts)
      (DeployOptions.User opts) (DeployOptions.Volumes opts) volumePlan ∅ in
  let createContainerMessage :=
    CreateContainerMessage.mk
      (Container.Podname container) (Container.Nodename container) "" ""
      None cpu (DeployOptions.CPUQuota opts) (DeployOptions.Memory opts)
      (DeployOptions.Storage opts) volumePlan (Some ∅) [] in
  let* (v, _) :=
    Txn (doCreateAndStartContainer_try no node opts cpu volumePlan)
        doCreateAndStartContainer_then
        (Some doCreateAndStartContainer_rollback)
        (launch.mk container createContainerMessage None None) in
  ret (launch.createContainerMessage v).

(* --------------------------------------------------------------------- *)
(* cluster/calcium/create.go: the replicas of one node                   *)
(* --------------------------------------------------------------------- *)

(** [s[i]] on a slice: a panic when [i] is out of range. *)
Definition slice_index {A} (s : list A) (i : nat) : M W A :=
  match s !! i with
  | Some a => ret a
  | None => panic
  end.

(** Go's [int] is taken as 64 bits wide. *)
Definition int_add (a b : Z) : Z := wrap64 (a + b).
Definition int_sub (a b : Z) : Z := wrap64 (a - b).

(** The body of the loop of doCreateContainerOnNode for replica [i]. The
    closures given to Txn share [node] and the slice [ms]. *)
Definition doCreateContainerOnNode_replica (nodeInfo : NodeInfo.t)
    (opts : DeployOptions.t) (index : Z) (i : nat)
    (ms : list (option CreateContainerMessage.t))
  : M W (list (option CreateContainerMessage.t)) :=
  (* createAndStartContainer will auto cleanup *)
  let* cpu :=
    if (0 <? length (NodeInfo.CPUPlan nodeInfo))%nat
    then slice_index (NodeInfo.CPUPlan nodeInfo) i
    else ret (∅ : CPUMap) in
  let* volumePlan :=
    if (0 <? length (NodeInfo.VolumePlans nodeInfo))%nat
    then slice_index (NodeInfo.VolumePlans nodeInfo) i
    else ret (∅ : VolumePlan) in
  let node := Some Node.zero in
  let* (vars, _) :=
    Txn
      (* if *)
      (fun '(_, ms) =>
         let* (node, err) :=
           doGetAndPrepareNode (NodeInfo.Name nodeInfo)
                               (DeployOptions.Image opts) in
         let m :=
           CreateContainerMessage.mk "" "" "" "" err cpu 0%float 0 0
                                     volumePlan None [] in
         ret ((node, <[i := Some m]> ms), err))
      (* then *)
      (fun '(node, ms) =>
         match node with
         | None => panic
         | Some node' =>
             let* m :=
               doCreateAndStartContainer (int_add (Z.of_nat i) index) node'
                                         opts cpu volumePlan in
             ret ((node, <[i := Some m]> ms),
                  CreateContainerMessage.Error m)
         end)
      (* rollback, will use background context *)
      (Some
         (fun '(node, ms) =>
            match ms !! i with
            | Some (Some m) =>
                if negb (String.eqb (CreateContainerMessage.ContainerID m) "")
                then ret ((node, ms), None)
                else
                  let* err :=
                    withNodeLocked (NodeInfo.Name nodeInfo)
                      (fun node =>
                         call (CallUpdateNodeResource (NodeInfo.Name nodeInfo)
                                                      ActionIncr)
                              (UpdateNodeResource ext node cpu
                                 (DeployOptions.CPUQuota opts)
                                 (DeployOptions.Memory opts)
                                 (DeployOptions.Storage opts)
                                 (IntoVolumeMap ext volumePlan) ActionIncr)) in
                  ret ((node, ms), err)
            | _ => panic
            end))
      (node, ms) in
  ret vars.2.

(** [for i := ...; i < nodeInfo.Deploy; i++], with [n] rounds to go. *)
Fixpoint doCreateContainerOnNode_loop (n : nat) (nodeInfo : NodeInfo.t)
    (opts : DeployOptions.t) (index : Z) (i : nat)
    (ms : list (option CreateContainerMessage.t))
  : M W (list (option CreateContainerMessage.t)) :=
  match n with
  | O => ret ms
  | S n =>
      let* ms := doCreateContainerOnNode_replica nodeInfo opts index i ms in
      doCreateContainerOnNode_loop n nodeInfo opts index (S i) ms
  end.

(** [make] panics on a negative length; a slot of [ms] is a pointer, nil
    ([None]) until the replica's message is stored in it. *)
Definition doCreateContainerOnNode (nodeInfo : NodeInfo.t)
    (opts : DeployOptions.t) (index : Z)
  : M W (list (option CreateContainerMessage.t)) :=
  if NodeInfo.Deploy nodeInfo <? 0 then panic
  else
    let ms := replicate (Z.to_nat (NodeInfo.Deploy nodeInfo)) None in
    doCreateContainerOnNode_loop (Z.to_nat (NodeInfo.Deploy nodeInfo))
                                 nodeInfo opts index 0 ms.

(* --------------------------------------------------------------------- *)
(* cluster/calcium/create.go: the goroutines of doCreateContainer        *)
(* --------------------------------------------------------------------- *)

Inductive goroutine := Caller | Driver | Worker (k : nat).

(** What the goroutines do to the world outside and to the result
    channel, in the order in which it happens. A send carries the node's
    place [k] in [nodesInfo] and the index [i] of the range loop. *)
Inductive Event :=
| EvCall (g : goroutine) (c : Call)
| EvSend (k i : nat) (m : option CreateContainerMessage.t)
| EvClose.

Definition is_close (e : Event) : bool :=
  match e with EvClose => true | _ => false end.

Definition sent_message (e : Event)
  : option (option CreateContainerMessage.t) :=
  match e with EvSend _ _ m => Some m | _ => None end.

(** The state of the result channel, read off the events. *)
Definition chan_closed (trace : list Event) : bool := existsb is_close trace.
Definition chan_messages (trace : list Event)
  : list (option CreateContainerMessage.t) := omap sent_message trace.

(** Where the goroutine of node [k] stands:
    not yet started by [go]; about to call doCreateContainerOnNode;
    in the range loop before the send of [ms[i]] (or at its end);
    after the send of [ms[i]], before UpdateProcessing; returned. *)
Inductive worker :=
| WNotStarted
| WLaunch (index : Z)
| WSend (ms : list (option CreateContainerMessage.t)) (i : nat)
| WUpdate (ms : list (option CreateContainerMessage.t)) (i : nat)
| WDone.

(** Where the goroutine started by doCreateContainer stands:
    not started (the allocator failed); before [wg.Add]; in its loop, at
    node [k] with the running [index]; in [wg.Wait]; after the deferred
    [close(ch)]. *)
Inductive driver :=
| DNone
| DStart
| DSpawn (k : nat) (index : Z)
| DWait
| DClosed.

(** The state of one deployment: the cluster, the events so far, the
    options and the allocator's result, the goroutines, the counter of the
    WaitGroup, and whether a goroutine has panicked. *)
Record Deployment := mkDeployment {
  cluster : W;
  trace : list Event;
  options : DeployOptions.t;
  nodesInfo : list NodeInfo.t;
  workers : list worker;
  main : driver;
  wg : Z;
  panicked : bool
}.

(** One step of one goroutine. The receiver of the channel is taken to be
    always ready. The call of doCreateContainerOnNode is one step; the
    fire-and-forget [metrics.Client.SendDeployCount] is left out. In the
    two nested Txn calls the try function returns nil, so Txn runs the then
    function next and never a rollback (which is nil). *)
Inductive step : Deployment -> Deployment -> Prop :=
| step_start w tr o nis ws n :
    (* wg.Add(len(nodesInfo)); index := 0 *)
    step (mkDeployment w tr o nis ws DStart n false)
         (mkDeployment w tr o nis ws (DSpawn 0 0)
                       (n + Z.of_nat (length nis)) false)
| step_spawn w tr o nis ws k index n nodeInfo :
    (* go func(nodeInfo, index) {...}(nodeInfo, index);
       index += nodeInfo.Deploy *)
    nis !! k = Some nodeInfo ->
    step (mkDeployment w tr o nis ws (DSpawn k index) n false)
         (mkDeployment w tr o nis (<[k := WLaunch index]> ws)
                       (DSpawn (S k)
                               (int_add index (NodeInfo.Deploy nodeInfo)))
                       n false)
| step_spawned w tr o nis ws k index n :
    (* the range over nodesInfo is over: wg.Wait() *)
    nis !! k = None ->
    step (mkDeployment w tr o nis ws (DSpawn k index) n false)
         (mkDeployment w tr o nis ws DWait n false)
| step_close w tr o nis ws :
    (* wg.Wait() returns when the counter is zero; defer close(ch) *)
    chan_closed tr = false ->
    step (mkDeployment w tr o nis ws DWait 0 false)
         (mkDeployment w (tr ++ [EvClose]) o nis ws DClosed 0 false)
| step_close_panic w tr o nis ws :
    (* close of a closed channel *)
    chan_closed tr = true ->
    step (mkDeployment w tr o nis ws DWait 0 false)
         (mkDeployment w tr o nis ws DWait 0 true)
| step_launch w tr o nis ws d n k index nodeInfo ms s :
    (* c.doCreateContainerOnNode(ctx, nodeInfo, opts, index) *)
    ws !! k = Some (WLaunch index) ->
    nis !! k = Some nodeInfo ->
    doCreateContainerOnNode nodeInfo o index (mkSys w []) = Some (ms, s) ->
    step (mkDeployment w tr o nis ws d n false)
         (mkDeployment (world s) (tr ++ map (EvCall (Worker k)) (calls s))
                       o nis (<[k := WSend ms 0]> ws) d n false)
| step_launch_panic w tr o nis ws d n k index nodeInfo :
    ws !! k = Some (WLaunch index) ->
    nis !! k = Some nodeInfo ->
    doCreateContainerOnNode nodeInfo o index (mkSys w []) = None ->
    step (mkDeployment w tr o nis ws d n false)
         (mkDeployment w tr o nis ws d n true)
| step_send w tr o nis ws d n k ms i m :
    (* ch <- m *)
    ws !! k = Some (WSend ms i) ->
    ms !! i = Some m ->
    chan_closed tr = false ->
    step (mkDeployment w tr o nis ws d n false)
         (mkDeployment w (tr ++ [EvSend k i m]) o nis
                       (<[k := WUpdate ms i]> ws) d n false)
| step_send_panic w tr o nis ws d n k ms i m :
    (* send on a closed channel *)
    ws !! k = Some (WSend ms i) ->
    ms !! i = Some m ->
    chan_closed tr = true ->
    step (mkDeployment w tr o nis ws d n false)
         (mkDeployment w tr o nis ws d n true)
| step_update w tr o nis ws d n k ms i nodeInfo e w' :
    (* decr processing count; the error is only logged *)
    ws !! k = Some (WUpdate ms i) ->
    nis !! k = Some nodeInfo ->
    UpdateProcessing ext o (NodeInfo.Name nodeInfo)
      (int_sub (int_sub (NodeInfo.Deploy nodeInfo) (Z.of_nat i)) 1) w
    = (e, w') ->
    step (mkDeployment w tr o nis ws d n false)
         (mkDeployment w'
            (tr ++ [EvCall (Worker k)
                      (CallUpdateProcessing (NodeInfo.Name nodeInfo)
                         (int_sub (int_sub (NodeInfo.Deploy nodeInfo)
                                           (Z.of_nat i)) 1))])
            o nis (<[k := WSend ms (S i)]> ws) d n false)
| step_finish w tr o nis ws d n k ms i nodeInfo e w' :
    (* the range over ms is over: c.store.DeleteProcessing; wg.Done() *)
    ws !! k = Some (WSend ms i) ->
    ms !! i = None ->
    nis !! k = Some nodeInfo ->
    DeleteProcessing ext o nodeInfo w = (e, w') ->
    0 < n ->
    step (mkDeployment w tr o nis ws d n false)
         (mkDeployment w'
            (tr ++ [EvCall (Worker k)
                      (CallDeleteProcessing (NodeInfo.Name nodeInfo))])
            o nis (<[k := WDone]> ws) d (n - 1) false)
| step_finish_panic w tr o nis ws d n k ms i nodeInfo e w' :
    (* wg.Done() on a counter that is not positive *)
    ws !! k = Some (WSend ms i) ->
    ms !! i = None ->
    nis !! k = Some nodeInfo ->
    DeleteProcessing ext o nodeInfo w = (e, w') ->
    n <= 0 ->
    step (mkDeployment w tr o nis ws d n false)
         (mkDeployment w'
            (tr ++ [EvCall (Worker k)
                      (CallDeleteProcessing (NodeInfo.Name nodeInfo))])
            o nis ws d n true).

(** The deployment can go from the first state to the second. *)
Definition steps : Deployment -> Deployment -> Prop := rtc step.

(** No goroutine can move. *)
Definition terminal (st : Deployment) : Prop := forall st', ~ step st st'.

Definition doCreateContainer (opts : DeployOptions.t) (w : W)
    (tr : list Event) : Deployment * option error :=
  (* ch := make(chan *types.CreateContainerMessage) *)
  let '(r, w) := doAllocResource ext opts w in
  let tr := (tr ++ [EvCall Caller CallAllocResource])%list in
  match r with
  | inl err => (mkDeployment w tr opts [] [] DNone 0 false, Some err)
  | inr nodesInfo =>
      (mkDeployment w tr opts nodesInfo
                    (replicate (length nodesInfo) WNotStarted) DStart 0 false,
       None)
  end.

(** CreateContainer use options to create containers. The channel it
    returns is the deployment the channel belongs to; a nil channel is
    [None]. *)
Definition CreateContainer (opts : DeployOptions.t) (w : W)
  : option Deployment * option error :=
  let opts := Normalize ext opts in
  let '(ident, w) := RandomString ext 16 w in
  let opts := DeployOptions.set_ProcessIdent opts ident in
  if DeployOptions.Count opts <=? 0 then (None, Some ErrBadCount)
  else if DeployOptions.Memory opts <? 0 then (None, Some ErrBadMemory)
  else if PrimFloat.ltb (DeployOptions.CPUQuota opts) 0 then
    (None, Some ErrBadCPU)
  else
    let '(d, err) :=
      doCreateContainer opts w [EvCall Caller (CallRandomString 16)] in
    (Some d, err).

End Calcium.

(* --------------------------------------------------------------------- *)
(* Notions the properties are stated with                                *)
(* --------------------------------------------------------------------- *)

(** The two mandatory labels doMakeContainerOptions starts from. *)
Definition mandatory_labels {W} (ext : Externals W) (opts : DeployOptions.t)
  : gmap string string :=
  <[ERUMark := "1"]>
    (<[LabelMeta :=
         EncodeMetaInLabel ext
           (LabelMeta.mk (Entrypoint.Publish (DeployOptions.Entrypoint opts))
                         (Entrypoint.HealthCheck
                            (DeployOptions.Entrypoint opts)))]> ∅).

(** The options pass the checks of CreateContainer. *)
Definition valid_options (opts : DeployOptions.t) : bool :=
  negb (DeployOptions.Count opts <=? 0)
  && negb (DeployOptions.Memory opts <? 0)
  && negb (PrimFloat.ltb (DeployOptions.CPUQuota opts) 0).

(** The data-model invariant of a NodeInfo: the deploy count is not
    negative, and each of the two plans is empty or has an entry for every
    replica. *)
Definition NodeInfo_ok (nodeInfo : NodeInfo.t) : bool :=
  (0 <=? NodeInfo.Deploy nodeInfo)
  && ((length (NodeInfo.CPUPlan nodeInfo) =? 0)%nat
      || (Z.to_nat (NodeInfo.Deploy nodeInfo)
          <=? length (NodeInfo.CPUPlan nodeInfo))%nat)
  && ((length (NodeInfo.VolumePlans nodeInfo) =? 0)%nat
      || (Z.to_nat (NodeInfo.Deploy nodeInfo)
          <=? length (NodeInfo.VolumePlans nodeInfo))%nat).

(** sum(NodeInfo.Deploy) *)
Definition total_deploy (nodesInfo : list NodeInfo.t) : nat :=
  sum_list (map (fun nodeInfo => Z.to_nat (NodeInfo.Deploy nodeInfo)) nodesInfo).

(** The goroutine of which node an event belongs to. *)
Definition owner (e : Event) : option nat :=
  match e with
  | EvCall (Worker k) _ => Some k
  | EvSend k _ _ => Some k
  | _ => None
  end.

(** The events of the goroutine of node [k], in their order. *)
Definition proj (k : nat) (trace : list Event) : list Event :=
  filter (fun e => owner e = Some k) trace.

(** The range indices of the messages node [k] has sent, in their order. *)
Definition sends_of (k : nat) (trace : list Event) : list nat :=
  omap (fun e =>
          match e with
          | EvSend k' i _ => if decide (k' = k) then Some i else None
          | _ => None
          end) trace.

(** A call of the goroutine of node [k] that belongs to the launch of a
    replica. *)
Definition is_launch_event (k : nat) (e : Event) : bool :=
  match e with
  | EvCall (Worker k') c => bool_decide (k' = k) && negb (is_processing_call c)
  | _ => false
  end.

(** The events of node [k] for the first [i] rounds of its range loop. *)
Definition sent_events (k : nat) (nodeInfo : NodeInfo.t)
    (ms : list (option CreateContainerMessage.t)) (i : nat) : list Event :=
  flat_map
    (fun j =>
       [EvSend k j (default None (ms !! j));
        EvCall (Worker k)
          (CallUpdateProcessing (NodeInfo.Name nodeInfo)
             (int_sub (int_sub (NodeInfo.Deploy nodeInfo) (Z.of_nat j)) 1))])
    (seq 0 i).

(** How many messages the goroutine of a node has sent, by its state. *)
Definition sent_count (nodeInfo : NodeInfo.t) (wk : worker) : nat :=
  match wk with
  | WNotStarted | WLaunch _ => 0
  | WSend _ i => i
  | WUpdate _ i => S i
  | WDone => Z.to_nat (NodeInfo.Deploy nodeInfo)
  end.

Definition sent_total (nodesInfo : list NodeInfo.t) (ws : list worker) : nat :=
  sum_list (zip_with sent_count nodesInfo ws).

(** The goroutines that have not called [wg.Done] yet. *)
Definition is_done (wk : worker) : bool :=
  match wk with WDone => true | _ => false end.

Definition running (ws : list worker) : nat :=
  length (filter (fun wk => is_done wk = false) ws).

(** How far a deployment is from its end: every step lowers it. *)
Definition worker_fuel (nodeInfo : NodeInfo.t) (wk : worker) : nat :=
  match wk with
  | WNotStarted => 2 * Z.to_nat (NodeInfo.Deploy nodeInfo) + 4
  | WLaunch _ => 2 * Z.to_nat (NodeInfo.Deploy nodeInfo) + 3
  | WSend ms i => 2 * (length ms - i) + 1
  | WUpdate ms i => 2 * (length ms - i)
  | WDone => 0
  end.

(** [m] run on [s] does not panic, and its result and final state
    satisfy [Q]. *)
Definition wp {W A} (m : M W A) (Q : A -> Sys W -> Prop) (s : Sys W) : Prop :=
  match m s with
  | Some (a, s') => Q a s'
  | None => False
  end.

(** The log of [s'] is the log of [s] followed by calls that all belong to
    the launch of a replica. *)
Definition extends {W} (s s' : Sys W) : Prop :=
  exists cs, calls s' = (calls s ++ cs)%list
             /\ Forall (fun c => is_processing_call c = false) cs.

(** From every state, [m] does not panic, gives a result that satisfies
    [Q], and makes launch calls only. *)
Definition triple {W A} (m : M W A) (Q : A -> Prop) : Prop :=
  forall s, wp m (fun a s' => Q a /\ extends s s') s.

(** The message of a launch has no ContainerID and no Error yet. *)
Definition untouched (v : launch.vars) : Prop :=
  CreateContainerMessage.ContainerID (launch.createContainerMessage v) = ""
  /\ CreateContainerMessage.Error (launch.createContainerMessage v) = None.

Definition is_not_started (wk : worker) : bool :=
  match wk with WNotStarted => true | _ => false end.

(** The goroutines of the nodes before place [k] have been started, the
    others have not. *)
Definition spawned_upto (k : nat) (ws : list worker) : Prop :=
  forall j wk, ws !! j = Some wk ->
    (is_not_started wk = true <-> (k <= j)%nat).

Definition driver_fuel (len : nat) (d : driver) : nat :=
  match d with
  | DNone => 0
  | DStart => len + 3
  | DSpawn k _ => len - k + 2
  | DWait => 1
  | DClosed => 0
  end.

Section Invariant.

Context {W : Type} (ext : Externals W).

(** The events [events] of node [k] are those of one whole call of
    doCreateContainerOnNode that returned [ms], followed by [post]. *)
Definition launched (o : DeployOptions.t) (k : nat) (nodeInfo : NodeInfo.t)
    (ms : list (option CreateContainerMessage.t))
    (events post : list Event) : Prop :=
  exists index w0 s,
    doCreateContainerOnNode ext nodeInfo o index (mkSys w0 []) = Some (ms, s)
    /\ events = (map (EvCall (Worker k)) (calls s) ++ post)%list.

(** What the events of node [k] are, by the state of its goroutine. *)
Definition worker_inv (o : DeployOptions.t) (k : nat) (nodeInfo : NodeInfo.t)
    (wk : worker) (tr : list Event) : Prop :=
  match wk with
  | WNotStarted | WLaunch _ => proj k tr = []
  | WSend ms i =>
      (i <= length ms)%nat
      /\ launched o k nodeInfo ms (proj k tr) (sent_events k nodeInfo ms i)
  | WUpdate ms i =>
      (i < length ms)%nat
      /\ launched o k nodeInfo ms (proj k tr)
           (sent_events k nodeInfo ms i
              ++ [EvSend k i (default None (ms !! i))])%list
  | WDone =>
      exists ms,
        launched o k nodeInfo ms (proj k tr)
          (sent_events k nodeInfo ms (length ms)
             ++ [EvCall (Worker k)
                   (CallDeleteProcessing (NodeInfo.Name nodeInfo))])%list
  end.

(** What holds of the WaitGroup, the goroutines and the channel, by the
    state of the goroutine that closes the channel. *)
Definition driver_inv (st : Deployment (W := W)) : Prop :=
  match main st with
  | DNone => False
  | DStart =>
      wg st = 0 /\ spawned_upto 0 (workers st)
      /\ chan_closed (trace st) = false
  | DSpawn k _ =>
      wg st = Z.of_nat (running (workers st))
      /\ spawned_upto k (workers st)
      /\ chan_closed (trace st) = false
  | DWait =>
      wg st = Z.of_nat (running (workers st))
      /\ spawned_upto (length (workers st)) (workers st)
      /\ chan_closed (trace st) = false
  | DClosed =>
      running (workers st) = 0%nat
      /\ spawned_upto (length (workers st)) (workers st)
      /\ exists tr', trace st = (tr' ++ [EvClose])%list
                      /\ chan_closed tr' = false
  end.

(** The invariant of a deployment with options [o] over the allocator's
    result [nis]. *)
Record inv (o : DeployOptions.t) (nis : list NodeInfo.t)
    (st : Deployment (W := W)) : Prop := mkInv {
  inv_options : options st = o;
  inv_nodesInfo : nodesInfo st = nis;
  inv_length : length (workers st) = length nis;
  inv_panicked : panicked st = false;
  inv_workers :
    forall k nodeInfo wk,
      nis !! k = Some nodeInfo -> workers st !! k = Some wk ->
      worker_inv o k nodeInfo wk (trace st);
  inv_count :
    length (chan_messages (trace st)) = sent_total nis (workers st);
  inv_driver : driver_inv st
}.

Definition fuel (st : Deployment (W := W)) : nat :=
  driver_fuel (length (nodesInfo st)) (main st)
  + sum_list (zip_with worker_fuel (nodesInfo st) (workers st)).

End Invariant.

(* --------------------------------------------------------------------- *)
(* A small cluster to run the code on                                    *)
(* --------------------------------------------------------------------- *)

(** A cluster without state, in which the allocator answers [alloc], every
    container gets the ID c1, and the image pull, the start, the removal
    and the node lock fail as the four flags say. *)
Definition demo (alloc : error + list NodeInfo.t)
    (pull_fails start_fails remove_fails lock_fails : bool)
  : Externals unit :=
  mkExternals unit
    (fun opts => opts)
    (fun n w => ("abcdef", w))
    (fun app entry suffix => app ++ "_" ++ entry ++ "_" ++ suffix)
    (fun s => [s])
    (fun _ => "meta")
    (fun _ _ => ∅)
    (fun _ _ => "")
    (fun _ => ∅)
    (fun _ => mkVolumeMap "" 0)
    (fun _ w => (alloc, w))
    (fun nodename w => (inr (Node.mk nodename "engine"), w))
    (fun _ _ w => (if pull_fails then Some "pull failed" else None, w))
    (fun _ config w =>
       (inr (VirtualizationCreated.mk
               "c1" (VirtualizationCreateOptions.Name config)), w))
    (fun readerManager w => (inr readerManager, w))
    (fun _ _ _ _ _ _ w => (None, w))
    (fun _ _ w => ([], if start_fails then Some "start failed" else None, w))
    (fun container w =>
       (inr (VirtualizationInfo.mk (Container.ID container)
                                   (Container.User container) true None), w))
    (fun _ _ w => (if remove_fails then Some "remove failed" else None, w))
    (fun _ w => (None, w))
    (fun nodename w =>
       (if lock_fails then inl "lock failed"
        else inr (Node.mk nodename "engine"), w))
    (fun _ w => w)
    (fun _ _ _ _ _ _ _ w => (None, w))
    (fun _ _ _ w => (None, w))
    (fun _ _ w => (None, w)).

Definition demo_entrypoint : Entrypoint.t :=
  Entrypoint.mk "web" "run" false "/" None [] None None "always" ∅.

Definition demo_options (labels : gmap string string) : DeployOptions.t :=
  DeployOptions.mk "app" demo_entrypoint "pod" "image" "" 0%float 0 0 1
                   [] [] [] [] ∅ "" "" false false labels false "" false
                   [] [] false "".

Definition demo_node : Node.t := Node.mk "node1" "engine".

Definition demo_nodeInfo (deploy : Z) : NodeInfo.t :=
  NodeInfo.mk "node1" deploy [] [].

(** The small cluster with an allocator that plans one replica on one
    node and nothing failing, and the deployment CreateContainer returns
    on it. *)
Definition demo_cluster : Externals unit :=
  demo (inr [demo_nodeInfo 1]) false false false false.

Definition demo_deployment : Deployment (W := unit) :=
  mkDeployment tt
    [EvCall Caller (CallRandomString 16); EvCall Caller CallAllocResource]
    (DeployOptions.set_ProcessIdent (demo_options ∅) "abcdef")
    [demo_nodeInfo 1] [WNotStarted] DStart 0 false.

(** What doCreateContainerOnNode returns and calls for that node. *)
Definition demo_launch
  : option (list (option CreateContainerMessage.t) * Sys unit) :=
  doCreateContainerOnNode demo_cluster (demo_nodeInfo 1)
    (DeployOptions.set_ProcessIdent (demo_options ∅) "abcdef") 0 (mkSys tt []).

Definition demo_ms : list (option CreateContainerMessage.t) :=
  match demo_launch with Some (ms, _) => ms | None => [] end.

Definition demo_calls : list Call :=
  match demo_launch with Some (_, s) => calls s | None => [] end.

(** The deployment after the node's goroutine has sent its first message. *)
Definition demo_sent : Deployment (W := unit) :=
  mkDeployment tt
    ([EvCall Caller (CallRandomString 16); EvCall Caller CallAllocResource]
       ++ map (EvCall (Worker 0)) demo_calls
       ++ [EvSend 0 0 (default None (demo_ms !! 0%nat))])%list
    (DeployOptions.set_ProcessIdent (demo_options ∅) "abcdef")
    [demo_nodeInfo 1] [WUpdate demo_ms 0] (DSpawn 1 (int_add 0 1)) 1 false.

(** The deployment at its end: the message sent, the processing counter
    lowered and deleted, the channel closed. *)
Definition demo_done : Deployment (W := unit) :=
  mkDeployment tt
    ([EvCall Caller (CallRandomString 16); EvCall Caller CallAllocResource]
       ++ map (EvCall (Worker 0)) demo_calls
       ++ [EvSend 0 0 (default None (demo_ms !! 0%nat));
           EvCall (Worker 0) (CallUpdateProcessing "node1" 0);
           EvCall (Worker 0) (CallDeleteProcessing "node1");
           EvClose])%list
    (DeployOptions.set_ProcessIdent (demo_options ∅) "abcdef")
    [demo_nodeInfo 1] [WDone] DClosed 0 false.


(* --------------------------------------------------------------------- *)
(* types/volume.go: the remaining operations                             *)
(* --------------------------------------------------------------------- *)

(** The loop of MakeVolumeBindings, with the bindings appended so far. On
    the first error Go returns [nil, err]; a nil slice is the empty list.
    NewVolumeBinding never returns a nil pointer without an error, so the
    last branch is not reached. *)
Fixpoint MakeVolumeBindings_from (volumeBindings : VolumeBindings)
    (volumes : list string) : VolumeBindings * option error :=
  match volumes with
  | [] => (volumeBindings, None)
  | vb :: volumes =>
      match NewVolumeBinding vb with
      | (_, Some err) => ([], Some err)
      | (Some volumeBinding, None) =>
          MakeVolumeBindings_from (volumeBindings ++ [volumeBinding])%list
                                  volumes
      | (None, None) => MakeVolumeBindings_from volumeBindings volumes
      end
  end.

(** MakeVolumeBindings return VolumeBindings of reference type *)
Definition MakeVolumeBindings (volumes : list string)
  : VolumeBindings * option error :=
  MakeVolumeBindings_from [] volumes.

(** AdditionalStorage is used for another kind of resource: storage *)
Definition AdditionalStorage (vbs : VolumeBindings) : Z :=
  foldl
    (fun storage vb =>
       if negb (RequireSchedule vb) then wrap64 (storage + SizeInBytes vb)
       else storage)
    0 vbs.

(** IsEqual return true is two VolumeBindings have the same value:
    [reflect.DeepEqual] of the two sorted string slices (both nil when
    empty). In Go the call also leaves both receivers sorted in place;
    only the result is taken here. *)
Definition IsEqual (vbs vbs2 : VolumeBindings) : bool :=
  bool_decide (ToStringSlice vbs true false = ToStringSlice vbs2 true false).

(** How often the byte [c] occurs in [s]. *)
Fixpoint count_byte (c : ascii) (s : string) : nat :=
  match s with
  | EmptyString => 0
  | String c' rest =>
      (if Ascii.eqb c' c then 1 else 0) + count_byte c rest
  end.

(** The key Merge files a binding under. *)
Definition key_of (vb : VolumeBinding) : volume_key :=
  (Source vb, Destination vb, Flags vb).

(** The sizes of the bindings of [vbs] that require schedule and have the
    key [key], added up without wrap-around. *)
Definition scheduled_size (key : volume_key) (vbs : VolumeBindings) : Z :=
  foldr Z.add 0
    (map SizeInBytes
       (filter (fun vb => RequireSchedule vb = true /\ key_of vb = key) vbs)).

(** The sizes of the bindings of [vbs] that do not require schedule, added
    up without wrap-around. *)
Definition hard_size (vbs : VolumeBindings) : Z :=
  foldr Z.add 0
    (map SizeInBytes (filter (fun vb => RequireSchedule vb = false) vbs)).

(** The entry of [sizeMap] under one key after the first loop of Merge has
    met bindings of that key with the sizes [sizes], from the entry
    [init]. *)
Definition merge_sum (init : option Z) (sizes : list Z) : option Z :=
  foldl
    (fun entry size =>
       Some match entry with
            | Some s => wrap64 (s + size)
            | None => size
            end)
    init sizes.

(** The less function of ToStringSlice orders the bindings by their
    strings; [string_le] is the order of Go's [<] on strings, with
    equality. *)
Definition string_le (s1 s2 : string) : Prop := String.leb s1 s2 = true.

Definition binding_le (vb1 vb2 : VolumeBinding) : Prop :=
  string_le (ToString vb1 false) (ToString vb2 false).

(* --------------------------------------------------------------------- *)
(* Notions for the calls a launch makes                                  *)
(* --------------------------------------------------------------------- *)

(** From every state, [m] does not panic, and its result and the calls it
    makes, in their order, satisfy [Q]. *)
Definition does {W A} (m : M W A) (Q : A -> list Call -> Prop) : Prop :=
  forall s, exists a s' cs,
    m s = Some (a, s') /\ calls s' = (calls s ++ cs)%list /\ Q a cs.

(** The calls of the loop over [opts.Data] for the container [ID]. *)
Definition is_copy_call (ID : string) (c : Call) : bool :=
  match c with
  | CallGetReader _ => true
  | CallSendFile ID' _ => String.eqb ID' ID
  | _ => false
  end.

(** The calls that take the lock of a node, give a reservation back and
    release the lock. *)
Definition is_node_call (c : Call) : bool :=
  match c with
  | CallLockNode _ | CallUnlockNode _ | CallUpdateNodeResource _ _ => true
  | _ => false
  end.

Definition is_lock_call (c : Call) : bool :=
  match c with CallLockNode _ => true | _ => false end.

Definition is_unlock_call (c : Call) : bool :=
  match c with CallUnlockNode _ => true | _ => false end.

Definition is_release_call (c : Call) : bool :=
  match c with CallUpdateNodeResource _ ActionIncr => true | _ => false end.

Definition is_removal_call (c : Call) : bool :=
  match c with CallRemoveContainer _ => true | _ => false end.

Definition count_calls (p : Call -> bool) (cs : list Call) : nat :=
  length (filter (fun c => p c = true) cs).

(** The ways doCreateAndStartContainer can go, by the message it returns
    and the calls it makes: the engine does not create the container; the
    copy of [opts.Data] fails; the start, the inspection or AddContainer
    fails, and the container is removed when it has an ID; the container
    is stored. *)
Inductive launch_calls (engine : handle) (m : CreateContainerMessage.t)
  : list Call -> Prop :=
| launch_not_created name e :
    CreateContainerMessage.Error m = Some e ->
    CreateContainerMessage.ContainerID m = "" ->
    launch_calls engine m
      [CallRandomString 6; CallVirtualizationCreate engine name]
| launch_not_copied name ID copy :
    Forall (fun c => is_copy_call ID c = true) copy ->
    CreateContainerMessage.Error m = None ->
    CreateContainerMessage.ContainerID m = "" ->
    launch_calls engine m
      ([CallRandomString 6; CallVirtualizationCreate engine name]
         ++ copy)%list
| launch_failed name ID copy after e :
    Forall (fun c => is_copy_call ID c = true) copy ->
    after = [CallStartContainer ID]
    \/ after = [CallStartContainer ID; CallInspect ID]
    \/ after = [CallStartContainer ID; CallInspect ID; CallAddContainer ID] ->
    CreateContainerMessage.Error m = Some e ->
    CreateContainerMessage.ContainerID m = "" ->
    launch_calls engine m
      ([CallRandomString 6; CallVirtualizationCreate engine name]
         ++ copy ++ after
         ++ (if String.eqb ID "" then [] else [CallRemoveContainer ID]))%list
| launch_stored name copy :
    Forall (fun c =>
              is_copy_call (CreateContainerMessage.ContainerID m) c = true)
           copy ->
    CreateContainerMessage.Error m = None ->
    launch_calls engine m
      ([CallRandomString 6; CallVirtualizationCreate engine name]
         ++ copy
         ++ [CallStartContainer (CreateContainerMessage.ContainerID m);
             CallInspect (CreateContainerMessage.ContainerID m);
             CallAddContainer (CreateContainerMessage.ContainerID m)])%list.

(** The calls of the rollback of a replica: the lock is not had, or it is
    had, the reservation is given back and the lock is released. *)
Definition released (nodename : string) (release : list Call) : Prop :=
  release = [CallLockNode nodename]
  \/ release = [CallLockNode nodename;
                CallUpdateNodeResource nodename ActionIncr;
                CallUnlockNode nodename].

(** The plan of replica [i]: the entry [i] of [plans], or [none] when
    there are no plans. *)
Definition plan_entry {A} (plans : list A) (none : A) (i : nat) : A :=
  if (0 <? length plans)%nat then default none (plans !! i) else none.

(** The slot holds a message with an Error. *)
Definition failed (m : option CreateContainerMessage.t) : bool :=
  match m with
  | Some m =>
      match CreateContainerMessage.Error m with
      | Some _ => true
      | None => false
      end
  | None => false
  end.

(** The [index] the goroutine of the node at place [k] is started with:
    the Deploy counts of the nodes before it, added up as [int]s. *)
Definition offset (nodesInfo : list NodeInfo.t) (k : nat) : Z :=
  foldl (fun index nodeInfo => int_add index (NodeInfo.Deploy nodeInfo))
        0 (take k nodesInfo).

(** What the try function of doCreateAndStartContainer leaves, by the way
    it returns. *)
Definition tried (engine : handle) (r : launch.vars * option error)
    (cs : list Call) : Prop :=
  untouched r.1
  /\ exists name copy,
       Forall (fun c =>
                 is_copy_call (Container.ID (launch.container r.1)) c = true)
              copy
       /\ match r.2 with
          | None =>
              launch.err r.1 = None
              /\ cs = ([CallRandomString 6;
                        CallVirtualizationCreate engine name]
                         ++ copy
                         ++ [CallStartContainer
                               (Container.ID (launch.container r.1));
                             CallInspect
                               (Container.ID (launch.container r.1))])%list
          | Some e =>
              (launch.err r.1 = Some e
               /\ Container.ID (launch.container r.1) = ""
               /\ cs = [CallRandomString 6;
                        CallVirtualizationCreate engine name])
              \/ (launch.err r.1 = None
                  /\ cs = ([CallRandomString 6;
                            CallVirtualizationCreate engine name]
                             ++ copy)%list)
              \/ (launch.err r.1 = Some e
                  /\ exists after,
                       (after = [CallStartContainer
                                   (Container.ID (launch.container r.1))]
                        \/ after = [CallStartContainer
                                      (Container.ID (launch.container r.1));
                                    CallInspect
                                      (Container.ID (launch.container r.1))])
                       /\ cs = ([CallRandomString 6;
                                 CallVirtualizationCreate engine name]
                                  ++ copy ++ after)%list)
          end.

(** What the then function of doCreateAndStartContainer leaves after a
    try that returned nil. *)
Definition added (engine : handle) (r : launch.vars * option error)
    (cs : list Call) : Prop :=
  exists name copy,
    Forall (fun c =>
              is_copy_call (Container.ID (launch.container r.1)) c = true)
           copy
    /\ cs = ([CallRandomString 6; CallVirtualizationCreate engine name]
               ++ copy
               ++ [CallStartContainer (Container.ID (launch.container r.1));
                   CallInspect (Container.ID (launch.container r.1));
                   CallAddContainer (Container.ID (launch.container r.1))])%list
    /\ match r.2 with
       | Some e => untouched r.1 /\ launch.err r.1 = Some e
       | None =>
           CreateContainerMessage.Error (launch.createContainerMessage r.1)
           = None
           /\ CreateContainerMessage.ContainerID
                (launch.createContainerMessage r.1)
              = Container.ID (launch.container r.1)
       end.

(** The message carries the plan of its replica. *)
Definition planned (cpu : CPUMap) (volumePlan : VolumePlan)
    (m : CreateContainerMessage.t) : Prop :=
  CreateContainerMessage.CPU m = cpu
  /\ CreateContainerMessage.VolumePlan m = volumePlan.

(** The calls of a copy of [data] to the container [ID] that meets no
    error: for each file, its reader is taken and the file is sent. *)
Definition copy_calls (ID : string) (data : list (string * handle))
  : list Call :=
  flat_map (fun '(dst, _) => [CallGetReader dst; CallSendFile ID dst]) data.

(** The small cluster with nothing failing but the readers of
    [opts.Data], and options with one file to copy. *)
Definition demo_no_reader : Externals unit :=
  mkExternals unit
    (Normalize demo_cluster) (RandomString demo_cluster)
    (MakeContainerName demo_cluster) (MakeCommandLineArgs demo_cluster)
    (EncodeMetaInLabel demo_cluster) (MakePublishInfo demo_cluster)
    (GetNUMANode demo_cluster) (ToLiteral demo_cluster)
    (IntoVolumeMap demo_cluster) (doAllocResource demo_cluster)
    (GetNode demo_cluster) (pullImage demo_cluster)
    (VirtualizationCreate demo_cluster)
    (fun _ w => (inl "no reader", w))
    (doSendFileToContainer demo_cluster) (doStartContainer demo_cluster)
    (Inspect demo_cluster) (doRemoveContainer demo_cluster)
    (AddContainer demo_cluster) (lockNode demo_cluster)
    (unlockNode demo_cluster) (UpdateNodeResource demo_cluster)
    (UpdateProcessing demo_cluster) (DeleteProcessing demo_cluster).

Definition demo_options_data : DeployOptions.t :=
  DeployOptions.mk "app" demo_entrypoint "pod" "image" "" 0%float 0 0 1
                   [] [] [] [] ∅ "" "" false false ∅ false "" false
                   [("/etc/app.conf", "conf")] [] false "".

(* ===================================================================== *)
(* Properties of the volume model                                        *)
(* ===================================================================== *)

Example NewVolumeBinding_ex1 :
  NewVolumeBinding "AUTO:/data:rw:100"
  = (Some (mkVolumeBinding "AUTO" "/data" "rw" 100), None).
Proof. vm_compute. reflexivity. Qed.

Example ToString_ex1 :
  ToString (mkVolumeBinding "AUTO" "/data" "rwm" (-5)) false = "AUTO:/data:rwm:-5".
Proof. vm_compute. reflexivity. Qed.

Example ParseInt_ex1 : strconv.ParseInt "+042" = inr 42.
Proof. vm_compute. reflexivity. Qed.

Example ParseInt_ex2 :
  strconv.ParseInt "-9223372036854775808" = inr (- 9223372036854775808).
Proof. vm_compute. reflexivity. Qed.

Example ParseInt_ex3 :
  strconv.ParseInt "9223372036854775808"
  = inl (strconv.num_error "9223372036854775808" strconv.ErrRange).
Proof. vm_compute. reflexivity. Qed.

Example ParseInt_ex4 :
  strconv.ParseInt "12a" = inl (strconv.num_error "12a" strconv.ErrSyntax).
Proof. vm_compute. reflexivity. Qed.

Example Split_ex1 : strings.Split "a::b" ":" = ["a"; ""; "b"].
Proof. reflexivity. Qed.

Example HasSuffix_ex1 :
  strings.HasSuffix "/mnt/AUTO" AUTO = true
  /\ strings.HasSuffix "AUTOx" AUTO = false
  /\ strings.HasSuffix "UTO" AUTO = false.
Proof. vm_compute. auto. Qed.

Example NewVolumeBinding_ex2 :
  NewVolumeBinding "AUTO:/data:m"
  = (Some (mkVolumeBinding "AUTO" "/data" "m" 0),
     Some "invalid volume, size must be provided for monopoly schedule: {AUTO /data m 0}").
Proof. vm_compute. reflexivity. Qed.

Example NewVolumeBinding_ex3 :
  NewVolumeBinding "/data" = (None, Some "invalid volume: /data").
Proof. vm_compute. reflexivity. Qed.

Example ToStringSlice_ex1 :
  ToStringSlice [mkVolumeBinding "/b" "/b" "rwm" 0; mkVolumeBinding "/a" "/a" "" 0]
                true true
  = ["/a:/a"; "/b:/b:rw"].
Proof. vm_compute. reflexivity. Qed.

Example Merge_run_ex1 :
  Merge_run [mkVolumeBinding "AUTO" "/data" "rw" 100; mkVolumeBinding "/h" "/c" "" 0]
            [mkVolumeBinding "AUTO" "/data" "rw" 20]
  = ([mkVolumeBinding "AUTO" "/data" "rw" 120], [mkVolumeBinding "/h" "/c" "" 0], None).
Proof. vm_compute. reflexivity. Qed.

(* --------------------------------------------------------------------- *)
(* strings.Split                                                         *)
(* --------------------------------------------------------------------- *)

Lemma Split_nonempty s sep : strings.Split s sep <> [].
Proof.
  destruct s as [|c s]; simpl; [discriminate|].
  destruct (Ascii.eqb c sep); [discriminate|].
  destruct (strings.Split s sep); discriminate.
Qed.

Lemma Split_parts_no_sep s sep :
  Forall (fun p => strings.no_byte sep p = true) (strings.Split s sep).
Proof.
  induction s as [|c s IH]; simpl.
  - repeat constructor.
  - destruct (Ascii.eqb c sep) eqn:Hc.
    + constructor; [reflexivity | exact IH].
    + destruct (strings.Split s sep) as [|p ps].
      * repeat constructor. simpl. rewrite Hc. reflexivity.
      * inversion IH; subst. constructor; [|assumption].
        simpl. rewrite Hc. simpl. assumption.
Qed.

Lemma Split_no_sep s sep :
  strings.no_byte sep s = true -> strings.Split s sep = [s].
Proof.
  induction s as [|c s IH]; simpl; [reflexivity|].
  intros [Hc Hs]%andb_true_iff. apply negb_true_iff in Hc.
  rewrite Hc, IH by assumption. reflexivity.
Qed.

Lemma Split_app s t sep :
  strings.no_byte sep s = true ->
  strings.Split (s ++ String sep t) sep = s :: strings.Split t sep.
Proof.
  induction s as [|c s IH]; simpl.
  - intros _. rewrite Ascii.eqb_refl. reflexivity.
  - intros [Hc Hs]%andb_true_iff. apply negb_true_iff in Hc.
    rewrite Hc, IH by assumption. reflexivity.
Qed.

(* --------------------------------------------------------------------- *)
(* strconv: printing a number and reading it back                        *)
(* --------------------------------------------------------------------- *)

Lemma uint_value_ge d : forall acc, (acc <= strconv.uint_value d acc)%N.
Proof.
  induction d; intros acc; simpl; try lia;
    match goal with
    | |- (_ <= strconv.uint_value _ ?a)%N => specialize (IHd a); lia
    end.
Qed.

Lemma ParseUint_loop_string_of_uint d : forall n,
  (strconv.uint_value d n <= strconv.maxUint64)%N ->
  strconv.ParseUint_loop (NilEmpty.string_of_uint d) n
  = inr (strconv.uint_value d n).
Proof.
  induction d; intros n Hle; simpl in *; [reflexivity|..];
    match type of Hle with
    | (strconv.uint_value _ ?a <= _)%N =>
        pose proof (uint_value_ge d a) as Hge;
        specialize (IHd a Hle)
    end;
    unfold strconv.maxUint64 in *;
    (destruct (N.leb_spec ((2 ^ 64 - 1) / 10 + 1) n) as [Hc|Hc];
     [ exfalso; change ((2 ^ 64 - 1) / 10 + 1)%N
         with 1844674407370955162%N in Hc; lia | ]);
    match goal with
    | |- context [N.ltb ?a ?b] =>
        destruct (N.ltb_spec a b) as [Hd|Hd]; [exfalso; lia|]
    end;
    rewrite <- IHd; f_equal; lia.
Qed.

Lemma of_uint_acc_value d : forall p,
  N.pos (Pos.of_uint_acc d p) = strconv.uint_value d (N.pos p).
Proof.
  induction d; intros p; simpl; [reflexivity|..];
    rewrite IHd; f_equal; lia.
Qed.

Lemma of_uint_value d : Pos.of_uint d = strconv.uint_value d 0.
Proof.
  induction d; simpl; try reflexivity; try assumption;
    rewrite of_uint_acc_value; reflexivity.
Qed.

Lemma to_uint_value p :
  strconv.uint_value (Pos.to_uint p) 0 = N.pos p.
Proof. rewrite <- of_uint_value. apply Unsigned.of_to. Qed.

Lemma string_of_uint_head d :
  d <> Decimal.Nil ->
  exists c rest, NilEmpty.string_of_uint d = String c rest
    /\ Ascii.eqb c "+" = false /\ Ascii.eqb c "-" = false.
Proof.
  destruct d; [congruence|..]; intros _; simpl; eauto.
Qed.

Lemma ParseUint_to_uint p :
  (N.pos p <= strconv.maxUint64)%N ->
  strconv.ParseUint (NilEmpty.string_of_uint (Pos.to_uint p)) = inr (N.pos p).
Proof.
  intros Hle.
  destruct (string_of_uint_head (Pos.to_uint p) (Unsigned.to_uint_nonnil p))
    as (c & rest & Heq & _).
  unfold strconv.ParseUint. rewrite Heq, <- Heq.
  rewrite ParseUint_loop_string_of_uint; rewrite to_uint_value; auto.
Qed.

Lemma NilZero_string_of_uint_to_uint p :
  NilZero.string_of_uint (Pos.to_uint p)
  = NilEmpty.string_of_uint (Pos.to_uint p).
Proof.
  unfold NilZero.string_of_uint.
  pose proof (Unsigned.to_uint_nonnil p).
  destruct (Pos.to_uint p); congruence.
Qed.

Lemma ParseInt_FormatInt z :
  int64_range z -> strconv.ParseInt (strconv.FormatInt z) = inr z.
Proof.
  unfold int64_range, minInt64, maxInt64. intros Hz.
  destruct z as [|p|p]; [reflexivity|..]; unfold strconv.FormatInt; simpl.
  - rewrite NilZero_string_of_uint_to_uint.
    destruct (string_of_uint_head (Pos.to_uint p) (Unsigned.to_uint_nonnil p))
      as (c & rest & Heq & Hplus & Hminus).
    unfold strconv.ParseInt. rewrite Heq, Hplus, Hminus, <- Heq.
    rewrite ParseUint_to_uint by (unfold strconv.maxUint64; lia).
    destruct (N.leb_spec (2 ^ 63) (N.pos p)); [lia|]. reflexivity.
  - rewrite NilZero_string_of_uint_to_uint.
    unfold strconv.ParseInt.
    change (Ascii.eqb "-" "+") with false.
    change (Ascii.eqb "-" "-") with true. cbv iota.
    rewrite ParseUint_to_uint by (unfold strconv.maxUint64; lia).
    destruct (N.ltb_spec (2 ^ 63) (N.pos p)); [lia|]. reflexivity.
Qed.

Lemma ParseInt_range s z : strconv.ParseInt s = inr z -> int64_range z.
Proof.
  unfold strconv.ParseInt, int64_range, minInt64, maxInt64.
  destruct s as [|c rest]; [discriminate|].
  destruct (Ascii.eqb c "+"); [|destruct (Ascii.eqb c "-")];
    match goal with
    | |- context [strconv.ParseUint ?d] => destruct (strconv.ParseUint d) as [e|un]
    end; try discriminate; cbn [negb andb];
    repeat match goal with
    | |- context [N.leb ?a ?b] => destruct (N.leb_spec a b)
    | |- context [N.ltb ?a ?b] => destruct (N.ltb_spec a b)
    end; try discriminate; intros [= <-]; lia.
Qed.

Lemma string_of_uint_no_colon d :
  strings.no_byte ":" (NilEmpty.string_of_uint d) = true.
Proof. induction d; simpl; auto. Qed.

Lemma FormatInt_no_colon z : strings.no_byte ":" (strconv.FormatInt z) = true.
Proof.
  unfold strconv.FormatInt.
  destruct z as [|p|p]; [reflexivity|..]; simpl;
    rewrite NilZero_string_of_uint_to_uint; apply string_of_uint_no_colon.
Qed.

(* --------------------------------------------------------------------- *)
(* NewVolumeBinding, Validate and ToString                               *)
(* --------------------------------------------------------------------- *)

(** What a successful parse gives: the binding passed Validate, none of its
    three strings has a colon, and its size is an [int64]. *)
Lemma NewVolumeBinding_ok volume r :
  (NewVolumeBinding volume).2 = None ->
  (NewVolumeBinding volume).1 = r ->
  exists vb, r = Some vb
    /\ Validate vb = None
    /\ strings.no_byte ":" (Source vb) = true
    /\ strings.no_byte ":" (Destination vb) = true
    /\ strings.no_byte ":" (Flags vb) = true
    /\ int64_range (SizeInBytes vb).
Proof.
  unfold NewVolumeBinding.
  pose proof (Split_parts_no_sep volume ":") as Hparts.
  assert (H0 : int64_range 0) by (unfold int64_range, minInt64, maxInt64; lia).
  destruct (strings.Split volume ":") as [|src [|dst [|flags [|sz [|? ?]]]]];
    try discriminate; simpl.
  - intros Hv <-. inversion Hparts as [|? ? Hs Hp1]; subst.
    inversion Hp1 as [|? ? Hd _]; subst.
    eexists; split_and!; eauto.
  - intros Hv <-. inversion Hparts as [|? ? Hs Hp1]; subst.
    inversion Hp1 as [|? ? Hd Hp2]; subst.
    inversion Hp2 as [|? ? Hf _]; subst.
    eexists; split_and!; eauto.
  - destruct (strconv.ParseInt sz) as [e|size] eqn:Hsz; [discriminate|].
    simpl. intros Hv <-. inversion Hparts as [|? ? Hs Hp1]; subst.
    inversion Hp1 as [|? ? Hd Hp2]; subst.
    inversion Hp2 as [|? ? Hf _]; subst.
    eexists; split_and!; eauto; simpl; eapply ParseInt_range; eauto.
Qed.

Lemma NewVolumeBinding_ToString vb :
  strings.no_byte ":" (Source vb) = true ->
  strings.no_byte ":" (Destination vb) = true ->
  strings.no_byte ":" (Flags vb) = true ->
  int64_range (SizeInBytes vb) ->
  NewVolumeBinding (ToString vb false) = (Some vb, Validate vb).
Proof.
  destruct vb as [src dst flags size]; simpl. intros Hs Hd Hf Hr.
  unfold ToString, NewVolumeBinding; simpl.
  destruct (String.eqb_spec flags "") as [->|Hne];
    destruct (Z.eqb_spec size 0) as [->|Hz]; simpl.
  - change (src ++ ":" ++ dst) with (src ++ String ":" dst).
    rewrite Split_app, Split_no_sep by assumption. reflexivity.
  - change (src ++ ":" ++ dst ++ ":" ++ "" ++ ":" ++ strconv.FormatInt size)
      with (src ++ String ":" (dst ++ String ":" ("" ++ String ":"
              (strconv.FormatInt size)))).
    rewrite !Split_app, Split_no_sep by auto using FormatInt_no_colon.
    rewrite ParseInt_FormatInt by assumption. reflexivity.
  - change (src ++ ":" ++ dst ++ ":" ++ flags)
      with (src ++ String ":" (dst ++ String ":" flags)).
    rewrite !Split_app, Split_no_sep by assumption. reflexivity.
  - change (src ++ ":" ++ dst ++ ":" ++ flags ++ ":" ++ strconv.FormatInt size)
      with (src ++ String ":" (dst ++ String ":" (flags ++ String ":"
              (strconv.FormatInt size)))).
    rewrite !Split_app, Split_no_sep by auto using FormatInt_no_colon.
    rewrite ParseInt_FormatInt by assumption. reflexivity.
Qed.

(** C5 as stated fails: a monopoly binding with a negative size parses
    without error, and its size is not greater than zero. *)
Lemma NewVolumeBinding_monopoly_negative_size :
  ~ (forall volume vb,
       NewVolumeBinding volume = (Some vb, None) ->
       Destination vb <> ""
       /\ (RequireMonopoly vb = true -> SizeInBytes vb > 0)).
Proof.
  intros H.
  destruct (H "AUTO:/data:m:-1" (mkVolumeBinding "AUTO" "/data" "m" (-1)))
    as [_ Hsize]; [vm_compute; reflexivity|].
  specialize (Hsize eq_refl). simpl in Hsize. lia.
Qed.

(** C5, amended: every binding NewVolumeBinding returns without error has a
    non-empty Destination and, if it requires monopoly, a size other than
    zero (a negative size passes Validate). *)
Theorem NewVolumeBinding_valid volume vb :
  NewVolumeBinding volume = (Some vb, None) ->
  Destination vb <> "" /\ (RequireMonopoly vb = true -> SizeInBytes vb <> 0).
Proof.
  intros Hnew.
  destruct (NewVolumeBinding_ok volume (Some vb)) as (vb' & [= <-] & Hv & _);
    [rewrite Hnew; reflexivity..|].
  unfold Validate in Hv.
  destruct (String.eqb_spec (Destination vb) ""); [discriminate|].
  split; [assumption|]. intros Hm. rewrite Hm in Hv.
  destruct (Z.eqb_spec (SizeInBytes vb) 0); [discriminate | assumption].
Qed.

Lemma NewVolumeBinding_valid_witness :
  Destination (mkVolumeBinding "AUTO" "/data" "m" (-1)) <> ""
  /\ (RequireMonopoly (mkVolumeBinding "AUTO" "/data" "m" (-1)) = true ->
      SizeInBytes (mkVolumeBinding "AUTO" "/data" "m" (-1)) <> 0).
Proof.
  apply (NewVolumeBinding_valid "AUTO:/data:m:-1"). vm_compute. reflexivity.
Defined.

(** C6: if [NewVolumeBinding s] succeeds with [vb], then parsing
    [vb.ToString(false)] succeeds again and gives the same binding. *)
Theorem ToString_NewVolumeBinding_roundtrip s vb :
  NewVolumeBinding s = (Some vb, None) ->
  NewVolumeBinding (ToString vb false) = (Some vb, None).
Proof.
  intros Hnew.
  destruct (NewVolumeBinding_ok s (Some vb))
    as (vb' & [= <-] & Hv & Hs & Hd & Hf & Hr);
    [rewrite Hnew; reflexivity..|].
  rewrite NewVolumeBinding_ToString by assumption.
  rewrite Hv. reflexivity.
Qed.

Lemma ToString_NewVolumeBinding_roundtrip_witness :
  NewVolumeBinding (ToString (mkVolumeBinding "AUTO" "/data" "" 42) false)
  = (Some (mkVolumeBinding "AUTO" "/data" "" 42), None).
Proof.
  apply (ToString_NewVolumeBinding_roundtrip "AUTO:/data::+042").
  vm_compute. reflexivity.
Defined.

(* --------------------------------------------------------------------- *)
(* Merge                                                                 *)
(* --------------------------------------------------------------------- *)

Lemma wrap64_add_l a b : wrap64 (wrap64 a + b) = wrap64 (a + b).
Proof.
  unfold wrap64. f_equal.
  replace ((a + 2 ^ 63) mod 2 ^ 64 - 2 ^ 63 + b + 2 ^ 63)
    with ((a + 2 ^ 63) mod 2 ^ 64 + b) by lia.
  rewrite Zplus_mod_idemp_l. f_equal. lia.
Qed.

Lemma Merge_visit_split sizeMap hardVolumes vb :
  Merge_visit (sizeMap, hardVolumes) vb
  = (Merge_sizes sizeMap vb,
     (hardVolumes ++ filter (fun vb => RequireSchedule vb = false) [vb])%list).
Proof.
  unfold Merge_sizes, Merge_visit.
  rewrite filter_cons, filter_nil.
  destruct (RequireSchedule vb); simpl.
  - rewrite app_nil_r. destruct (sizeMap !! _); reflexivity.
  - reflexivity.
Qed.

Lemma Merge_foldl_split l : forall sizeMap hardVolumes,
  foldl Merge_visit (sizeMap, hardVolumes) l
  = (foldl Merge_sizes sizeMap l,
     (hardVolumes ++ filter (fun vb => RequireSchedule vb = false) l)%list).
Proof.
  induction l as [|vb l IH]; intros sizeMap hardVolumes; cbn [foldl].
  - rewrite filter_nil, app_nil_r. reflexivity.
  - rewrite Merge_visit_split, IH.
    change (vb :: l) with ([vb] ++ l)%list.
    rewrite filter_app, app_assoc. reflexivity.
Qed.

Lemma Merge_sizes_eq (sizeMap : gmap volume_key Z) vb :
  Merge_sizes sizeMap vb
  = if RequireSchedule vb then
      <[(Source vb, Destination vb, Flags vb) :=
          match sizeMap !! (Source vb, Destination vb, Flags vb) with
          | Some size => wrap64 (size + SizeInBytes vb)
          | None => SizeInBytes vb
          end]> sizeMap
    else sizeMap.
Proof.
  unfold Merge_sizes, Merge_visit.
  destruct (RequireSchedule vb); simpl; [|reflexivity].
  destruct (sizeMap !! _); reflexivity.
Qed.

Lemma Merge_sizes_comm sizeMap x y :
  Merge_sizes (Merge_sizes sizeMap x) y = Merge_sizes (Merge_sizes sizeMap y) x.
Proof.
  rewrite !Merge_sizes_eq.
  destruct (RequireSchedule x), (RequireSchedule y); try reflexivity.
  set (kx := (Source x, Destination x, Flags x)).
  set (ky := (Source y, Destination y, Flags y)).
  destruct (decide (kx = ky)) as [->|Hne].
  - rewrite !lookup_insert_eq, !insert_insert_eq. f_equal.
    destruct (sizeMap !! ky) as [size|].
    + rewrite !wrap64_add_l. f_equal. lia.
    + f_equal. lia.
  - rewrite !lookup_insert_ne by congruence.
    apply insert_insert_ne. congruence.
Qed.

Lemma Merge_sizes_permutation l1 l2 :
  l1 ≡ₚ l2 ->
  forall sizeMap, foldl Merge_sizes sizeMap l1 = foldl Merge_sizes sizeMap l2.
Proof.
  induction 1 as [|x l1 l2 _ IH|x y l|l1 l2 l3 _ IH1 _ IH2];
    intros sizeMap; simpl.
  - reflexivity.
  - apply IH.
  - rewrite Merge_sizes_comm. reflexivity.
  - rewrite IH1. apply IH2.
Qed.

Lemma Merge_collect_comm_sizes vbs vbs2 :
  (Merge_collect vbs vbs2).1 = (Merge_collect vbs2 vbs).1.
Proof.
  unfold Merge_collect. rewrite !Merge_foldl_split. simpl.
  apply Merge_sizes_permutation, Permutation_app_comm.
Qed.

Lemma Merge_collect_comm_hard vbs vbs2 :
  (Merge_collect vbs vbs2).2 ≡ₚ (Merge_collect vbs2 vbs).2.
Proof.
  unfold Merge_collect. rewrite !Merge_foldl_split. simpl.
  rewrite !filter_app. apply Permutation_app_comm.
Qed.

Lemma Merge_emit_foldl order : forall softVolumes,
  foldl
    (fun softVolumes '(key, size) =>
       if size <? 0 then softVolumes
       else (softVolumes ++ [mkVolumeBinding key.1.1 key.1.2 key.2 size])%list)
    softVolumes order
  = (softVolumes ++ omap Merge_entry order)%list.
Proof.
  induction order as [|[key size] order IH]; intros softVolumes; simpl.
  - rewrite app_nil_r. reflexivity.
  - rewrite IH. unfold Merge_entry at 2. simpl.
    destruct (size <? 0); [reflexivity|].
    rewrite <- app_assoc. reflexivity.
Qed.

Lemma Merge_emit_omap order : Merge_emit order = omap Merge_entry order.
Proof. unfold Merge_emit. rewrite Merge_emit_foldl. reflexivity. Qed.

Lemma Merge_comm_permutation vbs vbs2 soft1 hard1 err1 soft2 hard2 err2 :
  Merge vbs vbs2 soft1 hard1 err1 ->
  Merge vbs2 vbs soft2 hard2 err2 ->
  soft1 ≡ₚ soft2 /\ hard1 ≡ₚ hard2.
Proof.
  intros [order1 H1] [order2 H2]. split.
  - rewrite !Merge_emit_omap. apply omap_Permutation.
    rewrite H1, H2, Merge_collect_comm_sizes. reflexivity.
  - apply Merge_collect_comm_hard.
Qed.

(** Merge can always run: the relation has a result. *)
Lemma Merge_run_Merge vbs vbs2 :
  Merge vbs vbs2 (Merge_run vbs vbs2).1.1 (Merge_run vbs vbs2).1.2
        (Merge_run vbs vbs2).2.
Proof. unfold Merge_run; simpl. constructor. reflexivity. Qed.

(** C7: whatever order [range] takes, [Merge(a, b)] and [Merge(b, a)] give
    the same soft bindings as sets and the same hard bindings as sets. *)
Theorem Merge_commutative
    (a b soft1 hard1 soft2 hard2 : VolumeBindings) (err1 err2 : option error) :
  Merge a b soft1 hard1 err1 ->
  Merge b a soft2 hard2 err2 ->
  (forall vb, vb ∈ soft1 <-> vb ∈ soft2)
  /\ (forall vb, vb ∈ hard1 <-> vb ∈ hard2).
Proof.
  intros H1 H2.
  destruct (Merge_comm_permutation _ _ _ _ _ _ _ _ H1 H2) as [Hs Hh].
  split; intros vb; [rewrite Hs | rewrite Hh]; reflexivity.
Qed.

Lemma Merge_commutative_witness :
  let a := [mkVolumeBinding "AUTO" "/data" "rw" 100;
            mkVolumeBinding "/host" "/mnt" "" 0] in
  let b := [mkVolumeBinding "AUTO" "/data" "rw" 20;
            mkVolumeBinding "AUTO" "/tmp" "rw" (-7)] in
  (forall vb, vb ∈ (Merge_run a b).1.1 <-> vb ∈ (Merge_run b a).1.1)
  /\ (forall vb, vb ∈ (Merge_run a b).1.2 <-> vb ∈ (Merge_run b a).1.2).
Proof.
  intros a b.
  apply (Merge_commutative a b _ _ _ _ (Merge_run a b).2 (Merge_run b a).2);
    apply Merge_run_Merge.
Defined.

(* --------------------------------------------------------------------- *)
(* ApplyPlan                                                             *)
(* --------------------------------------------------------------------- *)

Lemma ApplyPlan_foldl plan vbs : forall res,
  foldl
    (fun res vb =>
       let newVb :=
         mkVolumeBinding (Source vb) (Destination vb) (Flags vb)
                         (SizeInBytes vb) in
       let newVb :=
         match GetVolumeMap plan vb with
         | Some vmap =>
             mkVolumeBinding (GetResourceID vmap) (Destination newVb)
                             (Flags newVb) (SizeInBytes newVb)
         | None => newVb
         end in
       (res ++ [newVb])%list)
    res vbs
  = (res ++ map (ApplyPlan_binding plan) vbs)%list.
Proof.
  induction vbs as [|vb vbs IH]; intros res; simpl.
  - rewrite app_nil_r. reflexivity.
  - rewrite IH, <- app_assoc. simpl. unfold ApplyPlan_binding at 2.
    destruct vb; simpl. destruct (GetVolumeMap _ _); reflexivity.
Qed.

Lemma ApplyPlan_map vbs plan :
  ApplyPlan vbs plan = map (ApplyPlan_binding plan) vbs.
Proof. unfold ApplyPlan. rewrite ApplyPlan_foldl. reflexivity. Qed.



(* ===================================================================== *)
(* Properties of the launch of a replica                                 *)
(* ===================================================================== *)

Section LaunchProperties.

Context {W : Type} (ext : Externals W).

Lemma bind_Some {A B} (m : M W A) (k : A -> M W B) s a s' :
  m s = Some (a, s') -> bind m k s = k a s'.
Proof. unfold bind. intros ->. reflexivity. Qed.

Lemma call_Some {A} (c : Call) (op : W -> A * W) s :
  call c op s
  = Some ((op (world s)).1, mkSys (op (world s)).2 (calls s ++ [c])%list).
Proof. unfold call. destruct (op (world s)). reflexivity. Qed.

Lemma extends_refl (s : Sys W) : extends s s.
Proof. exists []. rewrite app_nil_r. split; [reflexivity | constructor]. Qed.

Lemma extends_trans (s1 s2 s3 : Sys W) :
  extends s1 s2 -> extends s2 s3 -> extends s1 s3.
Proof.
  intros (cs1 & H1 & F1) (cs2 & H2 & F2). exists (cs1 ++ cs2)%list.
  rewrite H2, H1, app_assoc. split; [reflexivity|].
  apply Forall_app. split; assumption.
Qed.

Lemma triple_ret {A} (a : A) (Q : A -> Prop) :
  Q a -> triple (W := W) (ret a) Q.
Proof. intros HQ s. split; [assumption | apply extends_refl]. Qed.

Lemma triple_bind {A B} (m : M W A) (k : A -> M W B) (P : A -> Prop)
    (Q : B -> Prop) :
  triple m P -> (forall a, P a -> triple (k a) Q) -> triple (bind m k) Q.
Proof.
  intros Hm Hk s. specialize (Hm s). unfold wp, bind in *.
  destruct (m s) as [[a s1]|]; [|contradiction].
  destruct Hm as [HP He1]. specialize (Hk a HP s1). unfold wp in Hk.
  destruct (k a s1) as [[b s2]|]; [|contradiction].
  destruct Hk as [HQ He2]. split; [assumption|].
  eapply extends_trans; eassumption.
Qed.

Lemma triple_mono {A} (m : M W A) (P Q : A -> Prop) :
  triple m P -> (forall a, P a -> Q a) -> triple m Q.
Proof.
  intros Hm HPQ s. specialize (Hm s). unfold wp in *.
  destruct (m s) as [[a s1]|]; [|contradiction].
  destruct Hm. split; auto.
Qed.

Lemma triple_call {A} (c : Call) (op : W -> A * W) (Q : A -> Prop) :
  is_processing_call c = false ->
  (forall w, Q (op w).1) ->
  triple (call c op) Q.
Proof.
  intros Hc HQ s. unfold wp. rewrite call_Some. split; [apply HQ|].
  exists [c]. split; [reflexivity|]. repeat constructor. assumption.
Qed.

Lemma triple_Txn {L} (try then_ rb : L -> M W (L * option error)) (v : L)
    (P1 P2 : L * option error -> Prop) (R Q : L -> Prop) :
  triple (try v) P1 ->
  (forall v1, P1 (v1, None) -> triple (then_ v1) P2) ->
  (forall v1 e, P1 (v1, Some e) -> R v1) ->
  (forall v2 e, P2 (v2, Some e) -> R v2) ->
  (forall v1, R v1 -> triple (rb v1) (fun r => Q r.1)) ->
  (forall v2, P2 (v2, None) -> Q v2) ->
  triple (Txn try then_ (Some rb) v) (fun r => Q r.1).
Proof.
  intros Htry Hthen HR1 HR2 Hrb HQ. unfold Txn.
  eapply triple_bind; [exact Htry|].
  intros [v1 [e|]] H1.
  - eapply triple_bind; [apply Hrb; eapply HR1; exact H1|].
    intros [v' ?] HQ'. apply triple_ret. exact HQ'.
  - eapply triple_bind; [apply Hthen; exact H1|].
    intros [v2 [e|]] H2.
    + eapply triple_bind; [apply Hrb; eapply HR2; exact H2|].
      intros [v' ?] HQ'. apply triple_ret. exact HQ'.
    + apply triple_ret. apply HQ. exact H2.
Qed.

Lemma triple_call_launch {A} (c : Call) (op : W -> A * W) :
  is_processing_call c = false -> triple (call c op) (fun _ => True).
Proof. intros Hc. apply triple_call; auto. Qed.

(* --------------------------------------------------------------------- *)
(* doMakeContainerOptions                                                *)
(* --------------------------------------------------------------------- *)

Lemma overlay_labels (labels init : gmap string string) :
  map_fold (fun key value (labels : gmap string string) =>
              <[key := value]> labels) init labels
  = labels ∪ init.
Proof.
  apply (map_fold_weak_ind (fun r m => r = m ∪ init)).
  - rewrite (left_id_L ∅ (∪)). reflexivity.
  - intros key value m r _ ->. rewrite insert_union_l. reflexivity.
Qed.

Lemma doMakeContainerOptions_Some index cpumap volumePlan opts node s :
  exists config s',
    doMakeContainerOptions ext index cpumap volumePlan opts node s
    = Some (config, s')
    /\ calls s' = (calls s ++ [CallRandomString 6])%list
    /\ VirtualizationCreateOptions.Labels config
       = DeployOptions.Labels opts ∪ mandatory_labels ext opts.
Proof.
  unfold doMakeContainerOptions.
  destruct (Entrypoint.Log (DeployOptions.Entrypoint opts)) as [log|];
    (erewrite bind_Some by apply call_Some);
    unfold ret; eexists _, _; (split; [reflexivity|]); simpl;
    (split; [reflexivity|]); apply overlay_labels.
Qed.

Lemma doMakeContainerOptions_triple index cpumap volumePlan opts node :
  triple (doMakeContainerOptions ext index cpumap volumePlan opts node)
         (fun _ => True).
Proof.
  intros s. unfold wp.
  destruct (doMakeContainerOptions_Some index cpumap volumePlan opts node s)
    as (config & s' & -> & Hc & _).
  split; [exact I|]. exists [CallRandomString 6].
  split; [assumption | repeat constructor].
Qed.

(** C9, amended: in the options doMakeContainerOptions builds, the two
    mandatory labels are set first and the labels of [opts.Labels] are laid
    over them: every user label is in the result with the user's value, also
    under the keys ERUMark and LabelMeta, and a mandatory key has its
    mandatory value when [opts.Labels] has no entry for it. *)
Theorem doMakeContainerOptions_labels index cpumap volumePlan opts node s :
  exists config s',
    doMakeContainerOptions ext index cpumap volumePlan opts node s
    = Some (config, s')
    /\ (forall key value,
          DeployOptions.Labels opts !! key = Some value ->
          VirtualizationCreateOptions.Labels config !! key = Some value)
    /\ (DeployOptions.Labels opts !! ERUMark = None ->
        VirtualizationCreateOptions.Labels config !! ERUMark = Some "1")
    /\ (DeployOptions.Labels opts !! LabelMeta = None ->
        VirtualizationCreateOptions.Labels config !! LabelMeta
        = Some (EncodeMetaInLabel ext
                  (LabelMeta.mk
                     (Entrypoint.Publish (DeployOptions.Entrypoint opts))
                     (Entrypoint.HealthCheck (DeployOptions.Entrypoint opts))))).
Proof.
  destruct (doMakeContainerOptions_Some index cpumap volumePlan opts node s)
    as (config & s' & Heq & _ & Hlabels).
  exists config, s'. split; [assumption|]. rewrite Hlabels.
  split; [|split].
  - intros key value Hkey. apply lookup_union_Some_l. assumption.
  - intros Hnone. rewrite lookup_union_r by assumption.
    unfold mandatory_labels. apply lookup_insert_eq.
  - intros Hnone. rewrite lookup_union_r by assumption.
    unfold mandatory_labels.
    rewrite lookup_insert_ne by discriminate. apply lookup_insert_eq.
Qed.

End LaunchProperties.

(** C9 as stated fails: a user label under the key ERUMark replaces the
    mandatory value. *)
Lemma user_label_overwrites_ERUMark :
  ~ (forall W (ext : Externals W) index cpumap volumePlan opts node s config s',
       doMakeContainerOptions ext index cpumap volumePlan opts node s
       = Some (config, s') ->
       VirtualizationCreateOptions.Labels config !! ERUMark = Some "1").
Proof.
  intros H.
  destruct (doMakeContainerOptions_Some
              (demo (inr []) false false false false) 0 ∅ ∅
              (demo_options {[ERUMark := "0"]}) demo_node (mkSys tt []))
    as (config & s' & Heq & _ & Hlabels).
  specialize (H _ _ _ _ _ _ _ _ _ _ Heq).
  rewrite Hlabels in H. simpl in H.
  rewrite (lookup_union_Some_l _ _ _ "0") in H by apply lookup_singleton_eq.
  discriminate.
Qed.

(* --------------------------------------------------------------------- *)
(* doCreateAndStartContainer                                             *)
(* --------------------------------------------------------------------- *)

Section ReplicaProperties.

Context {W : Type} (ext : Externals W).

Lemma doGetAndPrepareNode_triple nodename image :
  triple (doGetAndPrepareNode ext nodename image)
         (fun r => r.2 = None -> is_Some r.1).
Proof.
  unfold doGetAndPrepareNode.
  eapply triple_bind; [apply triple_call_launch; reflexivity|].
  intros [err|node] _.
  - apply triple_ret. discriminate.
  - eapply triple_bind; [apply triple_call_launch; reflexivity|].
    intros err _. apply triple_ret. simpl. eauto.
Qed.

Lemma withNodeLocked_triple nodename (f : Node.t -> M W (option error)) :
  (forall node, triple (f node) (fun _ => True)) ->
  triple (withNodeLocked ext nodename f) (fun _ => True).
Proof.
  intros Hf. unfold withNodeLocked.
  eapply triple_bind; [apply triple_call_launch; reflexivity|].
  intros [err|node] _; [apply triple_ret; exact I|].
  eapply triple_bind; [apply Hf|]. intros err _.
  eapply triple_bind; [apply triple_call_launch; reflexivity|].
  intros _ _. apply triple_ret. exact I.
Qed.

Lemma copy_data_triple engine ID data :
  triple (copy_data ext engine ID data) (fun _ => True).
Proof.
  induction data as [|[dst readerManager] data IH]; simpl.
  - apply triple_ret. exact I.
  - eapply triple_bind; [apply triple_call_launch; reflexivity|].
    intros [err|reader] _; [apply triple_ret; exact I|].
    eapply triple_bind; [apply triple_call_launch; reflexivity|].
    intros [err|] _; [apply triple_ret; exact I | exact IH].
Qed.

Lemma doCreateAndStartContainer_try_triple no node opts cpu volumePlan v :
  untouched v ->
  triple (doCreateAndStartContainer_try ext no node opts cpu volumePlan v)
         (fun r => untouched r.1).
Proof.
  intros [Hid Herr]. unfold doCreateAndStartContainer_try.
  eapply triple_bind; [apply doMakeContainerOptions_triple|].
  intros config _. cbv zeta.
  eapply triple_bind; [apply triple_call_launch; reflexivity|].
  intros [err|containerCreated] _; [apply triple_ret; split; assumption|].
  eapply triple_bind.
  { destruct (0 <? length (DeployOptions.Data opts))%nat;
      [apply copy_data_triple | apply triple_ret; exact I]. }
  intros [dataErr|] _; [apply triple_ret; split; assumption|].
  eapply triple_bind; [apply triple_call_launch; reflexivity|].
  intros [hook [err|]] _; [apply triple_ret; split; assumption|].
  eapply triple_bind; [apply triple_call_launch; reflexivity|].
  intros [err|containerInfo] _; [apply triple_ret; split; assumption|].
  apply triple_ret.
  destruct (VirtualizationInfo.Networks containerInfo); split; assumption.
Qed.

Lemma doCreateAndStartContainer_then_triple v :
  untouched v ->
  triple (doCreateAndStartContainer_then ext v)
         (fun r =>
            match r.2 with
            | Some _ => untouched r.1
            | None =>
                CreateContainerMessage.Error (launch.createContainerMessage r.1)
                = None
            end).
Proof.
  intros [Hid Herr]. unfold doCreateAndStartContainer_then.
  eapply triple_bind; [apply triple_call_launch; reflexivity|].
  intros [err|] _; apply triple_ret; simpl; [split|]; assumption.
Qed.

Lemma doCreateAndStartContainer_rollback_triple v :
  untouched v ->
  triple (doCreateAndStartContainer_rollback ext v)
         (fun r =>
            CreateContainerMessage.ContainerID (launch.createContainerMessage r.1)
            = "").
Proof.
  intros [Hid Herr]. unfold doCreateAndStartContainer_rollback. simpl.
  destruct (launch.err v) as [err|]; [|apply triple_ret; assumption].
  destruct (negb (String.eqb (Container.ID (launch.container v)) ""));
    [|apply triple_ret; assumption].
  eapply triple_bind; [apply triple_call_launch; reflexivity|].
  intros [removeErr|] _; apply triple_ret; simpl; [assumption | reflexivity].
Qed.

(** Whatever the cluster answers, doCreateAndStartContainer returns, and
    a message it returns with an Error has an empty ContainerID: the ID is
    copied into the message only after AddContainer has succeeded, and no
    error can follow that. *)
Lemma doCreateAndStartContainer_triple no node opts cpu volumePlan :
  triple (doCreateAndStartContainer ext no node opts cpu volumePlan)
         (fun m =>
            CreateContainerMessage.Error m = None
            \/ CreateContainerMessage.ContainerID m = "").
Proof.
  unfold doCreateAndStartContainer.
  eapply triple_bind.
  - eapply (triple_Txn _ _ _ _ _ _ untouched
              (fun v =>
                 CreateContainerMessage.Error (launch.createContainerMessage v)
                 = None
                 \/ CreateContainerMessage.ContainerID
                      (launch.createContainerMessage v) = "")).
    + apply doCreateAndStartContainer_try_triple. split; reflexivity.
    + intros v1 H1. apply doCreateAndStartContainer_then_triple. exact H1.
    + intros v1 e H1. exact H1.
    + intros v2 e H2. exact H2.
    + intros v1 H1. eapply triple_mono;
        [apply doCreateAndStartContainer_rollback_triple; exact H1|].
      intros r Hr. right. exact Hr.
    + intros v2 H2. left. exact H2.
  - intros [v ?] Hv. apply triple_ret. exact Hv.
Qed.

(* --------------------------------------------------------------------- *)
(* doCreateContainerOnNode                                               *)
(* --------------------------------------------------------------------- *)

Lemma plan_entry_Some {A} (plans : list A) (none : A) (d i : nat) (s : Sys W) :
  (length plans =? 0)%nat || (d <=? length plans)%nat = true ->
  (i < d)%nat ->
  exists plan,
    (if (0 <? length plans)%nat then slice_index plans i else ret none) s
    = Some (plan, s).
Proof.
  intros Hok Hi. destruct (Nat.ltb_spec 0 (length plans)) as [Hpos|Hzero].
  - apply orb_true_iff in Hok as [Hok|Hok].
    + apply Nat.eqb_eq in Hok. lia.
    + apply Nat.leb_le in Hok. unfold slice_index.
      destruct (lookup_lt_is_Some_2 plans i) as [plan Hplan]; [lia|].
      rewrite Hplan. eexists. reflexivity.
  - eexists. reflexivity.
Qed.

Lemma NodeInfo_ok_inv nodeInfo :
  NodeInfo_ok nodeInfo = true ->
  0 <= NodeInfo.Deploy nodeInfo
  /\ (length (NodeInfo.CPUPlan nodeInfo) =? 0)%nat
      || (Z.to_nat (NodeInfo.Deploy nodeInfo)
          <=? length (NodeInfo.CPUPlan nodeInfo))%nat = true
  /\ (length (NodeInfo.VolumePlans nodeInfo) =? 0)%nat
      || (Z.to_nat (NodeInfo.Deploy nodeInfo)
          <=? length (NodeInfo.VolumePlans nodeInfo))%nat = true.
Proof.
  unfold NodeInfo_ok. intros [[H1 H2]%andb_true_iff H3]%andb_true_iff.
  apply Z.leb_le in H1. auto.
Qed.

Lemma Txn_try_fails {L} (try then_ rb : L -> M W (L * option error))
    (v v1 v2 : L) (e : error) (r : option error) (s s1 s2 : Sys W) :
  try v s = Some ((v1, Some e), s1) ->
  rb v1 s1 = Some ((v2, r), s2) ->
  Txn try then_ (Some rb) v s = Some ((v2, Some e), s2).
Proof.
  intros Htry Hrb. unfold Txn.
  rewrite (bind_Some _ _ _ _ _ Htry). cbn beta iota.
  rewrite (bind_Some _ _ _ _ _ Hrb). reflexivity.
Qed.

Lemma withNodeLocked_release nodename (op : Node.t -> W -> option error * W)
    (s1 : Sys W) :
  exists err s2,
    withNodeLocked ext nodename
      (fun node => call (CallUpdateNodeResource nodename ActionIncr) (op node))
      s1
    = Some (err, s2)
    /\ calls s2
       = (calls s1
          ++ CallLockNode nodename
             :: match (lockNode ext nodename (world s1)).1 with
                | inr _ =>
                    [CallUpdateNodeResource nodename ActionIncr;
                     CallUnlockNode nodename]
                | inl _ => []
                end)%list.
Proof.
  unfold withNodeLocked, bind, call, ret. cbn [world calls].
  destruct (lockNode ext nodename (world s1)) as [[err|node] w1];
    cbn [fst].
  - eexists _, _. split; reflexivity.
  - cbn [world calls]. destruct (op node w1) as [err w2]. cbn [world calls].
    eexists _, _. split; [reflexivity|]. cbn [calls].
    rewrite <- !app_assoc. reflexivity.
Qed.

(** C3, amended: when the Prepare phase of replica [i] fails (node lookup
    or image pull), the message stored for the replica has an empty
    ContainerID and the error, and the rollback of the transaction is run:
    it takes the node lock and, when it gets it, calls UpdateNodeResource
    with ActionIncr. *)
Theorem prepare_failure_runs_rollback nodeInfo opts index i ms s node e s1 :
  NodeInfo_ok nodeInfo = true ->
  (i < Z.to_nat (NodeInfo.Deploy nodeInfo))%nat ->
  (i < length ms)%nat ->
  doGetAndPrepareNode ext (NodeInfo.Name nodeInfo) (DeployOptions.Image opts) s
  = Some ((node, Some e), s1) ->
  exists m s2,
    doCreateContainerOnNode_replica ext nodeInfo opts index i ms s
    = Some (<[i := Some m]> ms, s2)
    /\ CreateContainerMessage.ContainerID m = ""
    /\ CreateContainerMessage.Error m = Some e
    /\ calls s2
       = (calls s1
          ++ CallLockNode (NodeInfo.Name nodeInfo)
             :: match (lockNode ext (NodeInfo.Name nodeInfo) (world s1)).1 with
                | inr _ =>
                    [CallUpdateNodeResource (NodeInfo.Name nodeInfo) ActionIncr;
                     CallUnlockNode (NodeInfo.Name nodeInfo)]
                | inl _ => []
                end)%list.
Proof.
  intros (_ & Hcpu & Hvol)%NodeInfo_ok_inv Hi Hlen Hprep.
  unfold doCreateContainerOnNode_replica.
  destruct (plan_entry_Some (NodeInfo.CPUPlan nodeInfo) (∅ : CPUMap) _ i s
              Hcpu Hi) as [cpu Hc].
  destruct (plan_entry_Some (NodeInfo.VolumePlans nodeInfo) (∅ : VolumePlan)
              _ i s Hvol Hi) as [volumePlan Hv].
  rewrite (bind_Some _ _ _ _ _ Hc), (bind_Some _ _ _ _ _ Hv).
  set (m := CreateContainerMessage.mk "" "" "" "" (Some e) cpu 0%float 0 0
                                      volumePlan None []).
  destruct (withNodeLocked_release (NodeInfo.Name nodeInfo)
              (fun node =>
                 UpdateNodeResource ext node cpu (DeployOptions.CPUQuota opts)
                   (DeployOptions.Memory opts) (DeployOptions.Storage opts)
                   (IntoVolumeMap ext volumePlan) ActionIncr) s1)
    as (err & s2 & Hrel & Hcalls).
  exists m, s2.
  erewrite bind_Some; cycle 1.
  { eapply Txn_try_fails.
    - cbn beta iota. rewrite (bind_Some _ _ _ _ _ Hprep). reflexivity.
    - cbn beta iota. rewrite list_lookup_insert_eq by assumption.
      cbn [m CreateContainerMessage.ContainerID String.eqb negb].
      rewrite (bind_Some _ _ _ _ _ Hrel). reflexivity. }
  split; [reflexivity|]. split; [reflexivity|].
  split; [reflexivity | exact Hcalls].
Qed.

Lemma triple_of_Some {A} (m : M W A) :
  (forall s, exists a, m s = Some (a, s)) -> triple m (fun _ => True).
Proof.
  intros Hm s. unfold wp. destruct (Hm s) as [a ->].
  split; [exact I | apply extends_refl].
Qed.

Lemma doCreateContainerOnNode_replica_triple nodeInfo opts index i ms :
  NodeInfo_ok nodeInfo = true ->
  (i < Z.to_nat (NodeInfo.Deploy nodeInfo))%nat ->
  (i < length ms)%nat ->
  triple (doCreateContainerOnNode_replica ext nodeInfo opts index i ms)
         (fun ms' => length ms' = length ms).
Proof.
  intros (_ & Hcpu & Hvol)%NodeInfo_ok_inv Hi Hlen.
  unfold doCreateContainerOnNode_replica.
  eapply triple_bind;
    [apply triple_of_Some; intros s; eapply plan_entry_Some; eassumption|].
  intros cpu _.
  eapply triple_bind;
    [apply triple_of_Some; intros s; eapply plan_entry_Some; eassumption|].
  intros volumePlan _.
  eapply triple_bind.
  - eapply (triple_Txn _ _ _ _
              (fun r => length r.1.2 = length ms
                        /\ (exists m, r.1.2 !! i = Some (Some m))
                        /\ (r.2 = None -> is_Some r.1.1))
              (fun r => length r.1.2 = length ms
                        /\ exists m, r.1.2 !! i = Some (Some m))
              (fun v => length v.2 = length ms
                        /\ exists m, v.2 !! i = Some (Some m))
              (fun v => length v.2 = length ms)).
    + cbn beta iota.
      eapply triple_bind; [apply doGetAndPrepareNode_triple|].
      intros [node err] Hnode. apply triple_ret. simpl.
      rewrite length_insert. split; [reflexivity|]. split; [|exact Hnode].
      eexists. apply list_lookup_insert_eq. assumption.
    + intros [node ms1] (Hl & _ & Hnode). simpl in *.
      destruct (Hnode eq_refl) as [node' ->].
      eapply triple_bind; [apply doCreateAndStartContainer_triple|].
      intros m _. apply triple_ret. simpl.
      rewrite length_insert. split; [assumption|].
      eexists. apply list_lookup_insert_eq. lia.
    + intros [node ms1] e (Hl & Hm & _). split; assumption.
    + intros [node ms1] e H2. exact H2.
    + intros [node ms1] (Hl & m & Hm). simpl in *. rewrite Hm.
      destruct (negb (String.eqb (CreateContainerMessage.ContainerID m) ""));
        [apply triple_ret; assumption|].
      eapply triple_bind.
      * apply withNodeLocked_triple. intros node'.
        apply triple_call_launch. reflexivity.
      * intros err _. apply triple_ret. assumption.
    + intros [node ms1] [Hl _]. exact Hl.
  - intros [[node ms1] err] Hl. apply triple_ret. exact Hl.
Qed.

Lemma doCreateContainerOnNode_loop_triple nodeInfo opts index n : forall i ms,
  NodeInfo_ok nodeInfo = true ->
  (i + n <= Z.to_nat (NodeInfo.Deploy nodeInfo))%nat ->
  (i + n <= length ms)%nat ->
  triple (doCreateContainerOnNode_loop ext n nodeInfo opts index i ms)
         (fun ms' => length ms' = length ms).
Proof.
  induction n as [|n IH]; intros i ms Hok Hd Hlen; simpl.
  - apply triple_ret. reflexivity.
  - eapply triple_bind;
      [apply doCreateContainerOnNode_replica_triple; [assumption|lia..]|].
    intros ms1 Hl1. simpl in Hl1. eapply triple_mono.
    + apply IH; [assumption | lia | lia].
    + intros ms2 Hl2. simpl in Hl2. lia.
Qed.

(** For a well-formed NodeInfo, doCreateContainerOnNode returns whatever
    the cluster answers, its slice has one slot for each of the [Deploy]
    replicas, and it makes launch calls only. *)
Lemma doCreateContainerOnNode_triple nodeInfo opts index :
  NodeInfo_ok nodeInfo = true ->
  triple (doCreateContainerOnNode ext nodeInfo opts index)
         (fun ms => length ms = Z.to_nat (NodeInfo.Deploy nodeInfo)).
Proof.
  intros Hok. unfold doCreateContainerOnNode.
  destruct (NodeInfo_ok_inv _ Hok) as [Hd _].
  destruct (Z.ltb_spec (NodeInfo.Deploy nodeInfo) 0); [lia|].
  eapply triple_mono.
  - apply doCreateContainerOnNode_loop_triple;
      [assumption | simpl; lia | rewrite length_replicate; simpl; lia].
  - intros ms Hl. simpl in Hl. rewrite Hl. apply length_replicate.
Qed.

End ReplicaProperties.

(** C3 as stated fails: the image pull fails, the node lock is had, and
    UpdateNodeResource is called with ActionIncr for the replica. *)
Lemma prepare_failure_calls_UpdateNodeResource :
  ~ (forall W (ext : Externals W) nodeInfo opts index i ms s node e s1 ms' s2,
       doGetAndPrepareNode ext (NodeInfo.Name nodeInfo)
                           (DeployOptions.Image opts) s
       = Some ((node, Some e), s1) ->
       doCreateContainerOnNode_replica ext nodeInfo opts index i ms s
       = Some (ms', s2) ->
       (exists m, ms' !! i = Some (Some m)
                  /\ CreateContainerMessage.ContainerID m = ""
                  /\ CreateContainerMessage.Error m = Some e)
       /\ ~ In (CallUpdateNodeResource (NodeInfo.Name nodeInfo) ActionIncr)
               (calls s2)).
Proof.
  intros H.
  edestruct (H unit (demo (inr []) true false false false) (demo_nodeInfo 1)
               (demo_options ∅) 0 0%nat [None] (mkSys tt []))
    as [_ Hnot]; [vm_compute; reflexivity..|].
  apply Hnot. vm_compute. tauto.
Qed.

Lemma prepare_failure_runs_rollback_witness :
  exists m s2,
    doCreateContainerOnNode_replica
      (demo (inr []) true false false false) (demo_nodeInfo 1)
      (demo_options ∅) 0 0 [None] (mkSys tt [])
    = Some (<[0%nat := Some m]> [None], s2)
    /\ CreateContainerMessage.ContainerID m = ""
    /\ CreateContainerMessage.Error m = Some "pull failed"
    /\ calls s2
       = [CallGetNode "node1"; CallPullImage "node1" "image";
          CallLockNode "node1"; CallUpdateNodeResource "node1" ActionIncr;
          CallUnlockNode "node1"].
Proof.
  apply (prepare_failure_runs_rollback
           (demo (inr []) true false false false) (demo_nodeInfo 1)
           (demo_options ∅) 0 0%nat [None] (mkSys tt [])
           (Some (Node.mk "node1" "engine")) "pull failed"
           (mkSys tt [CallGetNode "node1"; CallPullImage "node1" "image"]));
    [reflexivity | simpl; lia | simpl; lia | reflexivity].
Defined.

(** C4: the engine gives the container the ID c1, the start fails and the
    removal in the rollback fails too; the message that
    doCreateAndStartContainer returns has an empty ContainerID, not c1. *)
Theorem doCreateAndStartContainer_leak_has_empty_ID :
  exists m s,
    doCreateAndStartContainer (demo (inr []) false true true false) 0
                              demo_node (demo_options ∅) ∅ ∅ (mkSys tt [])
    = Some (m, s)
    /\ CreateContainerMessage.ContainerID m = ""
    /\ CreateContainerMessage.Error m = Some "start failed"
    /\ calls s
       = [CallRandomString 6;
          CallVirtualizationCreate "engine" "app_web_abcdef";
          CallStartContainer "c1"; CallRemoveContainer "c1"].
Proof. eexists _, _. vm_compute. repeat split. Qed.

(* ===================================================================== *)
(* Properties of the goroutines of doCreateContainer                     *)
(* ===================================================================== *)

(* --------------------------------------------------------------------- *)
(* Lists of goroutines and of events                                     *)
(* --------------------------------------------------------------------- *)

Lemma sum_zip_insert (f : NodeInfo.t -> worker -> nat) nis : forall ws k ni wk wk',
  nis !! k = Some ni -> ws !! k = Some wk ->
  (sum_list (zip_with f nis (<[k := wk']> ws)) + f ni wk
   = sum_list (zip_with f nis ws) + f ni wk')%nat.
Proof.
  induction nis as [|ni0 nis IH]; intros ws k ni wk wk' Hni Hwk.
  - rewrite lookup_nil in Hni. discriminate.
  - destruct ws as [|wk0 ws]; [rewrite lookup_nil in Hwk; discriminate|].
    destruct k as [|k]; simpl in *.
    + injection Hni as ->. injection Hwk as ->. lia.
    + specialize (IH ws k ni wk wk' Hni Hwk). lia.
Qed.

Lemma running_insert ws : forall k wk wk',
  ws !! k = Some wk ->
  (running (<[k := wk']> ws) + (if is_done wk then 0 else 1)
   = running ws + (if is_done wk' then 0 else 1))%nat.
Proof.
  unfold running.
  induction ws as [|wk0 ws IH]; intros k wk wk' Hwk.
  - rewrite lookup_nil in Hwk. discriminate.
  - destruct k as [|k]; simpl in *.
    + injection Hwk as ->. rewrite !filter_cons.
      destruct (is_done wk), (is_done wk'); simpl; lia.
    + specialize (IH k wk wk' Hwk). rewrite !filter_cons.
      destruct (decide (is_done wk0 = false)); simpl; lia.
Qed.

Lemma running_zero_done ws k wk :
  running ws = 0%nat -> ws !! k = Some wk -> is_done wk = true.
Proof.
  unfold running. intros Hz Hk.
  apply length_zero_iff_nil in Hz.
  destruct (is_done wk) eqn:Hd; [reflexivity|].
  assert (Hin : wk ∈ filter (fun wk => is_done wk = false) ws).
  { apply list_elem_of_filter. split; [assumption|].
    eapply list_elem_of_lookup_2. eassumption. }
  rewrite Hz in Hin. inversion Hin.
Qed.

Lemma sent_total_not_started nis :
  sent_total nis (replicate (length nis) WNotStarted) = 0%nat.
Proof.
  unfold sent_total. induction nis as [|ni nis IH]; simpl; [reflexivity|].
  exact IH.
Qed.

Lemma sent_total_done nis : forall ws,
  length ws = length nis ->
  (forall k wk, ws !! k = Some wk -> is_done wk = true) ->
  sent_total nis ws = total_deploy nis.
Proof.
  unfold sent_total, total_deploy.
  induction nis as [|ni nis IH]; intros [|wk ws] Hlen Hdone;
    simpl in *; try discriminate; [reflexivity|].
  pose proof (Hdone 0%nat wk eq_refl) as Hwk.
  destruct wk; try discriminate. simpl. f_equal.
  apply IH; [lia|]. intros k wk Hk. apply (Hdone (S k)). exact Hk.
Qed.

Lemma proj_app k tr1 tr2 : proj k (tr1 ++ tr2) = (proj k tr1 ++ proj k tr2)%list.
Proof. apply filter_app. Qed.

Lemma proj_foreign k tr :
  Forall (fun e => owner e <> Some k) tr -> proj k tr = [].
Proof.
  unfold proj. induction 1 as [|e tr He _ IH]; [reflexivity|].
  rewrite filter_cons, decide_False by assumption. exact IH.
Qed.

Lemma proj_own k tr :
  Forall (fun e => owner e = Some k) tr -> proj k tr = tr.
Proof.
  unfold proj. induction 1 as [|e tr He _ IH]; [reflexivity|].
  rewrite filter_cons, decide_True by assumption. f_equal. exact IH.
Qed.

Lemma proj_calls_own k cs :
  proj k (map (EvCall (Worker k)) cs) = map (EvCall (Worker k)) cs.
Proof. apply proj_own, Forall_map, Forall_forall. reflexivity. Qed.

Lemma proj_calls_other k k' cs :
  k <> k' -> proj k' (map (EvCall (Worker k)) cs) = [].
Proof.
  intros Hne. apply proj_foreign, Forall_map, Forall_forall.
  intros c _. simpl. congruence.
Qed.

Lemma chan_closed_app tr1 tr2 :
  chan_closed (tr1 ++ tr2) = chan_closed tr1 || chan_closed tr2.
Proof. apply existsb_app. Qed.

Lemma chan_closed_calls g cs : chan_closed (map (EvCall g) cs) = false.
Proof. induction cs; simpl; auto. Qed.

Lemma chan_messages_app tr1 tr2 :
  chan_messages (tr1 ++ tr2) = (chan_messages tr1 ++ chan_messages tr2)%list.
Proof. apply omap_app. Qed.

Lemma chan_messages_calls g cs : chan_messages (map (EvCall g) cs) = [].
Proof. induction cs; simpl; auto. Qed.

Lemma sent_events_S k ni ms i :
  sent_events k ni ms (S i)
  = (sent_events k ni ms i
     ++ [EvSend k i (default None (ms !! i));
         EvCall (Worker k)
           (CallUpdateProcessing (NodeInfo.Name ni)
              (int_sub (int_sub (NodeInfo.Deploy ni) (Z.of_nat i)) 1))])%list.
Proof.
  unfold sent_events. rewrite seq_S, flat_map_app. reflexivity.
Qed.

Lemma sends_of_app k tr1 tr2 :
  sends_of k (tr1 ++ tr2) = (sends_of k tr1 ++ sends_of k tr2)%list.
Proof. apply omap_app. Qed.

Lemma omap_cons_eq {A B} (f : A -> option B) x l :
  omap f (x :: l)
  = match f x with Some y => y :: omap f l | None => omap f l end.
Proof. reflexivity. Qed.

Lemma sends_of_proj k tr : sends_of k (proj k tr) = sends_of k tr.
Proof.
  unfold sends_of, proj. induction tr as [|e tr IH]; [reflexivity|].
  rewrite filter_cons. destruct (decide (owner e = Some k)) as [He|He].
  - rewrite !omap_cons_eq, IH. reflexivity.
  - rewrite omap_cons_eq, IH. destruct e as [g c|k' i m|]; try reflexivity.
    simpl in He. destruct (decide (k' = k)); [congruence | reflexivity].
Qed.

Lemma sends_of_calls k g cs : sends_of k (map (EvCall g) cs) = [].
Proof. induction cs; simpl; auto. Qed.

Lemma sends_of_sent_events k ni ms i : sends_of k (sent_events k ni ms i) = seq 0 i.
Proof.
  induction i as [|i IH]; [reflexivity|].
  rewrite sent_events_S, sends_of_app, IH, seq_S. simpl.
  rewrite decide_True by reflexivity. reflexivity.
Qed.

Lemma running_all ws :
  (forall k wk, ws !! k = Some wk -> is_done wk = false) ->
  running ws = length ws.
Proof.
  unfold running. induction ws as [|wk ws IH]; intros Hall; [reflexivity|].
  rewrite filter_cons, decide_True by (apply (Hall 0%nat); reflexivity).
  simpl. f_equal. apply IH. intros k wk' Hk. apply (Hall (S k)). exact Hk.
Qed.

Lemma running_pos ws k wk :
  ws !! k = Some wk -> is_done wk = false -> (0 < running ws)%nat.
Proof.
  intros Hk Hd. pose proof (running_insert ws k wk WDone Hk) as H.
  rewrite Hd in H. simpl in H. lia.
Qed.

Lemma spawned_upto_insert j ws k wk wk' :
  ws !! k = Some wk ->
  is_not_started wk' = is_not_started wk ->
  spawned_upto j ws -> spawned_upto j (<[k := wk']> ws).
Proof.
  intros Hk Hsame Hsp j' wk'' Hj'.
  destruct (decide (k = j')) as [->|Hne].
  - rewrite list_lookup_insert_eq in Hj' by (eapply lookup_lt_Some; eauto).
    injection Hj' as <-. rewrite Hsame. apply Hsp. assumption.
  - rewrite list_lookup_insert_ne in Hj' by assumption. apply Hsp. assumption.
Qed.

Lemma spawned_upto_started j ws k wk :
  spawned_upto j ws -> ws !! k = Some wk -> is_not_started wk = false ->
  (k < j)%nat.
Proof.
  intros Hsp Hk Hns. destruct (Hsp k wk Hk) as [_ H].
  destruct (Nat.lt_ge_cases k j) as [|Hge]; [assumption|].
  rewrite H in Hns by assumption. discriminate.
Qed.

Section Orchestrator.

Context {W : Type} (ext : Externals W).
Context (o : DeployOptions.t) (nis : list NodeInfo.t).
Context (Hok : Forall (fun nodeInfo => NodeInfo_ok nodeInfo = true) nis).

Lemma worker_inv_foreign k ni wk tr es :
  proj k es = [] ->
  worker_inv ext o k ni wk tr -> worker_inv ext o k ni wk (tr ++ es).
Proof.
  intros Hes. unfold worker_inv. rewrite proj_app, Hes, app_nil_r. auto.
Qed.

Lemma workers_inv_update (ws : list worker) tr es k wk' :
  (forall k' ni' wk, nis !! k' = Some ni' -> ws !! k' = Some wk ->
                     worker_inv ext o k' ni' wk tr) ->
  (forall k', k' <> k -> proj k' es = []) ->
  (forall ni, nis !! k = Some ni -> worker_inv ext o k ni wk' (tr ++ es)) ->
  forall k' ni' wk, nis !! k' = Some ni' -> <[k := wk']> ws !! k' = Some wk ->
                    worker_inv ext o k' ni' wk (tr ++ es).
Proof.
  intros Hold Hforeign Hnew k' ni' wk Hni Hwk.
  destruct (decide (k = k')) as [->|Hne].
  - apply list_lookup_insert_Some in Hwk as [(_ & <- & _)|[? _]];
      [|congruence]. apply Hnew. assumption.
  - rewrite list_lookup_insert_ne in Hwk by assumption.
    apply worker_inv_foreign; [apply Hforeign; congruence|].
    eapply Hold; eassumption.
Qed.

Lemma workers_inv_foreign (ws : list worker) tr es :
  (forall k' ni' wk, nis !! k' = Some ni' -> ws !! k' = Some wk ->
                     worker_inv ext o k' ni' wk tr) ->
  (forall k', proj k' es = []) ->
  forall k' ni' wk, nis !! k' = Some ni' -> ws !! k' = Some wk ->
                    worker_inv ext o k' ni' wk (tr ++ es).
Proof.
  intros Hold Hforeign k' ni' wk Hni Hwk.
  apply worker_inv_foreign; [apply Hforeign|]. eapply Hold; eassumption.
Qed.

Lemma launched_length k ni ms events post :
  NodeInfo_ok ni = true ->
  launched ext o k ni ms events post ->
  length ms = Z.to_nat (NodeInfo.Deploy ni)
  /\ exists cs, events = (map (EvCall (Worker k)) cs ++ post)%list
                /\ Forall (fun c => is_processing_call c = false) cs.
Proof.
  intros Hni (index & w0 & s & Hrun & ->).
  pose proof (doCreateContainerOnNode_triple ext ni o index Hni (mkSys w0 []))
    as Ht.
  unfold wp in Ht. rewrite Hrun in Ht. destruct Ht as [Hlen (cs & Hcs & Hl)].
  split; [assumption|]. exists cs. simpl in Hcs. rewrite Hcs.
  split; [reflexivity | assumption].
Qed.

Lemma driver_inv_worker_step (w : W) tr ws d n k wk wk' (w' : W) es :
  driver_inv (mkDeployment w tr o nis ws d n false) ->
  ws !! k = Some wk ->
  is_not_started wk = false -> is_done wk = false ->
  is_not_started wk' = false -> is_done wk' = false ->
  chan_closed es = false ->
  chan_closed tr = false
  /\ driver_inv (mkDeployment w' (tr ++ es) o nis (<[k := wk']> ws) d n false).
Proof.
  intros Hd Hk Hns Hdone Hns' Hdone' Hes.
  pose proof (running_insert ws k wk wk' Hk) as Hrun.
  rewrite Hdone, Hdone' in Hrun.
  assert (Hsp : forall j, spawned_upto j ws -> spawned_upto j (<[k := wk']> ws)).
  { intros j. apply (spawned_upto_insert j ws k wk); congruence. }
  unfold driver_inv in *. simpl in *. rewrite chan_closed_app, Hes, orb_false_r.
  rewrite length_insert.
  destruct d as [| |j idx| |]; try contradiction.
  - destruct Hd as (_ & Hsp0 & _).
    pose proof (spawned_upto_started _ _ _ _ Hsp0 Hk Hns). lia.
  - destruct Hd as (Hwg & Hsp0 & Hc). split; [assumption|].
    split; [rewrite Hwg; f_equal; lia|]. split; [auto | assumption].
  - destruct Hd as (Hwg & Hsp0 & Hc). split; [assumption|].
    split; [rewrite Hwg; f_equal; lia|]. split; [auto | assumption].
  - destruct Hd as (Hz & _). pose proof (running_pos ws k wk Hk Hdone). lia.
Qed.

Lemma driver_inv_finish (w : W) tr ws d n k wk (w' : W) es :
  driver_inv (mkDeployment w tr o nis ws d n false) ->
  ws !! k = Some wk ->
  is_not_started wk = false -> is_done wk = false ->
  chan_closed es = false ->
  0 < n
  /\ driver_inv (mkDeployment w' (tr ++ es) o nis (<[k := WDone]> ws) d (n - 1)
                              false).
Proof.
  intros Hd Hk Hns Hdone Hes.
  pose proof (running_insert ws k wk WDone Hk) as Hrun.
  rewrite Hdone in Hrun. simpl in Hrun.
  assert (Hsp : forall j, spawned_upto j ws -> spawned_upto j (<[k := WDone]> ws)).
  { intros j. apply (spawned_upto_insert j ws k wk); [assumption|].
    rewrite Hns. reflexivity. }
  unfold driver_inv in *. simpl in *. rewrite chan_closed_app, Hes, orb_false_r.
  rewrite length_insert.
  destruct d as [| |j idx| |]; try contradiction.
  - destruct Hd as (_ & Hsp0 & _).
    pose proof (spawned_upto_started _ _ _ _ Hsp0 Hk Hns). lia.
  - destruct Hd as (Hwg & Hsp0 & Hc).
    split; [lia|]. split; [lia|]. split; [auto | assumption].
  - destruct Hd as (Hwg & Hsp0 & Hc).
    split; [lia|]. split; [lia|]. split; [auto | assumption].
  - destruct Hd as (Hz & _). lia.
Qed.

Lemma worker_lookup (ws : list worker) k ni :
  length ws = length nis -> nis !! k = Some ni -> exists wk, ws !! k = Some wk.
Proof.
  intros Hlen Hni. apply lookup_lt_is_Some. rewrite Hlen.
  eapply lookup_lt_Some. eassumption.
Qed.

Lemma NodeInfo_ok_lookup k ni : nis !! k = Some ni -> NodeInfo_ok ni = true.
Proof.
  intros Hni. rewrite Forall_forall in Hok. apply Hok.
  eapply list_elem_of_lookup_2. eassumption.
Qed.

Lemma nodeInfo_lookup (ws : list worker) k wk :
  length ws = length nis -> ws !! k = Some wk -> exists ni, nis !! k = Some ni.
Proof.
  intros Hlen Hwk. apply lookup_lt_is_Some. rewrite <- Hlen.
  eapply lookup_lt_Some. eassumption.
Qed.

End Orchestrator.

(** Every step of a goroutine keeps the invariant; the steps in which a
    goroutine panics cannot be taken. *)
Lemma inv_step {W} (ext : Externals W) o nis st st' :
  Forall (fun nodeInfo => NodeInfo_ok nodeInfo = true) nis ->
  inv ext o nis st -> step ext st st' -> inv ext o nis st'.
Proof.
  intros Hok [Ho Hn Hlen Hp Hws Hcount Hd] Hstep.
  inversion Hstep; subst; simpl in *; subst.
  - (* start *)
    unfold driver_inv in Hd. simpl in Hd. destruct Hd as (Hwg & Hsp & Hc).
    constructor; simpl; auto.
    unfold driver_inv. simpl. split; [|auto].
    rewrite running_all; [lia|].
    intros k wk Hk. destruct (Hsp k wk Hk) as [_ H].
    destruct wk; try reflexivity. specialize (H ltac:(lia)). discriminate.
  - (* spawn *)
    unfold driver_inv in Hd. simpl in Hd. destruct Hd as (Hwg & Hsp & Hc).
    destruct (worker_lookup _ ws k nodeInfo Hlen H) as [wk Hwk].
    assert (Hns : is_not_started wk = true) by (apply (Hsp k wk Hwk); lia).
    destruct wk; try discriminate.
    constructor; simpl; auto.
    + rewrite length_insert. assumption.
    + intros k' ni' wk Hni Hk'.
      destruct (decide (k = k')) as [->|Hne].
      * apply list_lookup_insert_Some in Hk' as [(_ & <- & _)|[? _]];
          [|congruence]. apply (Hws k' ni' WNotStarted); assumption.
      * rewrite list_lookup_insert_ne in Hk' by assumption. eauto.
    + pose proof (sum_zip_insert sent_count _ ws k nodeInfo WNotStarted
                    (WLaunch index) H Hwk) as Hsum.
      unfold sent_total in *. cbn [sent_count] in Hsum. lia.
    + unfold driver_inv. simpl.
      pose proof (running_insert ws k WNotStarted (WLaunch index) Hwk) as Hrun.
      simpl in Hrun. split; [rewrite Hwg; f_equal; lia|]. split; [|assumption].
      intros j wk Hj. destruct (decide (k = j)) as [->|Hne].
      * apply list_lookup_insert_Some in Hj as [(_ & <- & _)|[? _]];
          [|congruence]. simpl. split; [discriminate | lia].
      * rewrite list_lookup_insert_ne in Hj by assumption.
        rewrite (Hsp j wk Hj). lia.
  - (* the loop over nodesInfo is over *)
    unfold driver_inv in Hd. simpl in Hd. destruct Hd as (Hwg & Hsp & Hc).
    constructor; simpl; auto.
    unfold driver_inv. simpl. split; [assumption|]. split; [|assumption].
    apply lookup_ge_None in H. intros j wk Hj.
    pose proof (lookup_lt_Some _ _ _ Hj). rewrite (Hsp j wk Hj). lia.
  - (* close *)
    unfold driver_inv in Hd. simpl in Hd. destruct Hd as (Hwg & Hsp & Hc).
    constructor; simpl; auto.
    + apply workers_inv_foreign; [assumption|]. intros k'. reflexivity.
    + rewrite chan_messages_app. simpl. rewrite app_nil_r. assumption.
    + unfold driver_inv. simpl. split; [lia|]. split; [assumption|]. eauto.
  - (* close of a closed channel *)
    unfold driver_inv in Hd. simpl in Hd. destruct Hd as (_ & _ & Hc).
    congruence.
  - (* launch *)
    pose proof (NodeInfo_ok_lookup _ Hok k nodeInfo H0) as Hni.
    destruct (driver_inv_worker_step _ _ w tr ws d n k (WLaunch index)
                (WSend ms 0) (world s) (map (EvCall (Worker k)) (calls s))
                Hd H eq_refl eq_refl eq_refl eq_refl
                (chan_closed_calls _ _)) as [Hc Hd'].
    constructor; simpl; auto.
    + rewrite length_insert. assumption.
    + apply workers_inv_update; [assumption| |].
      * intros k' Hne. apply proj_calls_other. congruence.
      * intros ni Hni'. assert (ni = nodeInfo) as -> by congruence.
        simpl. split; [lia|]. exists index, w, s. split; [assumption|].
        rewrite proj_app, proj_calls_own.
        rewrite (Hws k nodeInfo (WLaunch index) H0 H). simpl.
        rewrite app_nil_r. reflexivity.
    + rewrite chan_messages_app, chan_messages_calls, app_nil_r.
      pose proof (sum_zip_insert sent_count _ ws k nodeInfo (WLaunch index)
                    (WSend ms 0) H0 H) as Hsum.
      unfold sent_total in *. cbn [sent_count] in Hsum. lia.
  - (* doCreateContainerOnNode panics *)
    pose proof (NodeInfo_ok_lookup _ Hok k nodeInfo H0) as Hni.
    pose proof (doCreateContainerOnNode_triple ext nodeInfo o0 index Hni
                  (mkSys w [])) as Ht.
    unfold wp in Ht. rewrite H1 in Ht. contradiction.
  - (* send *)
    destruct (driver_inv_worker_step _ _ w tr ws d n k (WSend ms i) (WUpdate ms i)
                w [EvSend k i m] Hd H eq_refl eq_refl eq_refl eq_refl
                eq_refl) as [Hc Hd'].
    destruct (nodeInfo_lookup _ ws k (WSend ms i) Hlen H) as [ni Hni].
    constructor; simpl; auto.
    + rewrite length_insert. assumption.
    + apply workers_inv_update; [assumption| |].
      * intros k' Hne. unfold proj. rewrite filter_cons, decide_False;
          [reflexivity | simpl; congruence].
      * intros ni' Hni'. destruct (Hws k ni' (WSend ms i) Hni' H)
          as [Hi (index & w0 & s & Hrun & Hproj)].
        simpl. split; [eapply lookup_lt_Some; eassumption|].
        exists index, w0, s. split; [assumption|].
        rewrite proj_app, Hproj, H0. simpl.
        unfold proj. rewrite filter_cons, decide_True by reflexivity.
        rewrite filter_nil, app_assoc. reflexivity.
    + rewrite chan_messages_app. simpl. rewrite length_app. simpl.
      pose proof (sum_zip_insert sent_count _ ws k ni (WSend ms i)
                    (WUpdate ms i) Hni H) as Hsum.
      unfold sent_total in *. cbn [sent_count] in Hsum. lia.
  - (* send on a closed channel *)
    destruct (driver_inv_worker_step _ _ w tr ws d n k (WSend ms i) (WUpdate ms i)
                w [] Hd H eq_refl eq_refl eq_refl eq_refl eq_refl)
      as [Hc _].
    congruence.
  - (* UpdateProcessing *)
    destruct (driver_inv_worker_step _ _ w tr ws d n k (WUpdate ms i)
                (WSend ms (S i)) w'
                [EvCall (Worker k)
                   (CallUpdateProcessing (NodeInfo.Name nodeInfo)
                      (int_sub (int_sub (NodeInfo.Deploy nodeInfo)
                                        (Z.of_nat i)) 1))]
                Hd H eq_refl eq_refl eq_refl eq_refl eq_refl) as [Hc Hd'].
    constructor; simpl; auto.
    + rewrite length_insert. assumption.
    + apply workers_inv_update; [assumption| |].
      * intros k' Hne. unfold proj. rewrite filter_cons, decide_False;
          [reflexivity | simpl; congruence].
      * intros ni Hni'. assert (ni = nodeInfo) as -> by congruence.
        destruct (Hws k nodeInfo (WUpdate ms i) H0 H)
          as [Hi (index & w0 & s & Hrun & Hproj)].
        simpl. split; [lia|].
        exists index, w0, s. split; [assumption|].
        rewrite proj_app, Hproj, sent_events_S.
        unfold proj at 1. rewrite filter_cons, decide_True by reflexivity.
        rewrite filter_nil, <- !app_assoc. reflexivity.
    + rewrite chan_messages_app. simpl. rewrite app_nil_r.
      pose proof (sum_zip_insert sent_count _ ws k nodeInfo (WUpdate ms i)
                    (WSend ms (S i)) H0 H) as Hsum.
      unfold sent_total in *. cbn [sent_count] in Hsum. lia.
  - (* the range over ms is over *)
    pose proof (NodeInfo_ok_lookup _ Hok k nodeInfo H1) as Hni.
    destruct (driver_inv_finish _ _ w tr ws d n k (WSend ms i) w'
                [EvCall (Worker k)
                   (CallDeleteProcessing (NodeInfo.Name nodeInfo))]
                Hd H eq_refl eq_refl eq_refl) as [Hn Hd'].
    destruct (Hws k nodeInfo (WSend ms i) H1 H) as [Hi Hl].
    apply lookup_ge_None in H0. assert (i = length ms) as -> by lia.
    destruct (launched_length _ _ _ _ _ _ _ Hni Hl) as [Hms _].
    constructor; simpl; auto.
    + rewrite length_insert. assumption.
    + apply workers_inv_update; [assumption| |].
      * intros k' Hne. unfold proj. rewrite filter_cons, decide_False;
          [reflexivity | simpl; congruence].
      * intros ni Hni'. assert (ni = nodeInfo) as -> by congruence.
        destruct Hl as (index & w0 & s & Hrun & Hproj).
        simpl. exists ms, index, w0, s. split; [assumption|].
        rewrite proj_app, Hproj.
        unfold proj at 1. rewrite filter_cons, decide_True by reflexivity.
        rewrite filter_nil, <- !app_assoc. reflexivity.
    + rewrite chan_messages_app. simpl. rewrite app_nil_r.
      pose proof (sum_zip_insert sent_count _ ws k nodeInfo
                    (WSend ms (length ms)) WDone H1 H) as Hsum.
      unfold sent_total in *. cbn [sent_count] in Hsum. lia.
  - (* wg.Done on a counter that is not positive *)
    destruct (driver_inv_finish _ _ w tr ws d n k (WSend ms i) w' [] Hd H
                eq_refl eq_refl eq_refl) as [Hn _].
    lia.
Qed.

Lemma inv_steps {W} (ext : Externals W) o nis st st' :
  Forall (fun nodeInfo => NodeInfo_ok nodeInfo = true) nis ->
  inv ext o nis st -> steps ext st st' -> inv ext o nis st'.
Proof. intros Hok Hinv Hsteps. induction Hsteps; eauto using inv_step. Qed.

(* --------------------------------------------------------------------- *)
(* The first state, progress and termination                             *)
(* --------------------------------------------------------------------- *)

Lemma doCreateContainer_inv {W} (ext : Externals W) opts w tr d :
  doCreateContainer ext opts w tr = (d, None) ->
  chan_closed tr = false ->
  chan_messages tr = [] ->
  (forall k, proj k tr = []) ->
  inv ext opts (nodesInfo d) d.
Proof.
  unfold doCreateContainer. intros Hd Hc Hm Hp.
  destruct (doAllocResource ext opts w) as [[err|nis] w1]; [discriminate|].
  injection Hd as <-. constructor; simpl; auto.
  - apply length_replicate.
  - intros k ni wk _ [-> _]%lookup_replicate. simpl.
    rewrite proj_app, Hp. reflexivity.
  - rewrite chan_messages_app, Hm, sent_total_not_started. reflexivity.
  - unfold driver_inv. simpl. split; [reflexivity|]. split.
    + intros j wk [-> _]%lookup_replicate. simpl. split; [lia | reflexivity].
    + rewrite chan_closed_app, Hc. reflexivity.
Qed.

Lemma CreateContainer_inv {W} (ext : Externals W) opts w d :
  CreateContainer ext opts w = (Some d, None) ->
  inv ext (options d) (nodesInfo d) d.
Proof.
  unfold CreateContainer.
  destruct (RandomString ext 16 w) as [ident w1].
  destruct (_ <=? 0); [discriminate|].
  destruct (_ <? 0); [discriminate|].
  destruct (PrimFloat.ltb _ _); [discriminate|].
  destruct (doCreateContainer _ _ _ _) as [d' err] eqn:Hd.
  intros [= -> ->].
  assert (Ho : options d = DeployOptions.set_ProcessIdent (Normalize ext opts) ident).
  { unfold doCreateContainer in Hd.
    destruct (doAllocResource ext _ w1) as [[err|nis] w2];
      injection Hd as <-; reflexivity. }
  rewrite Ho. eapply doCreateContainer_inv; [eassumption|reflexivity..].
Qed.

Lemma running_zero_or_worker ws :
  running ws = 0%nat
  \/ exists k wk, ws !! k = Some wk /\ is_done wk = false.
Proof.
  unfold running. induction ws as [|wk ws IH]; [left; reflexivity|].
  rewrite filter_cons. destruct (decide (is_done wk = false)) as [Hd|Hd].
  - right. exists 0%nat, wk. split; [reflexivity | assumption].
  - destruct IH as [Hz|(k & wk' & Hk & Hd')].
    + left. assumption.
    + right. exists (S k), wk'. split; assumption.
Qed.

(** Unless the channel is closed, some goroutine can take a step. *)
Lemma inv_progress {W} (ext : Externals W) o nis st :
  Forall (fun nodeInfo => NodeInfo_ok nodeInfo = true) nis ->
  inv ext o nis st ->
  main st <> DClosed ->
  exists st', step ext st st'.
Proof.
  intros Hok [Ho Hn Hlen Hp Hws Hcount Hd] Hmain.
  destruct st as [w tr o' nis' ws d n p]. simpl in *. subst o' nis' p.
  unfold driver_inv in Hd. simpl in Hd.
  destruct d as [| |k idx| |]; try contradiction.
  - eexists. apply step_start.
  - destruct (nis !! k) as [ni|] eqn:Hk.
    + eexists. eapply step_spawn. eassumption.
    + eexists. eapply step_spawned. eassumption.
  - destruct Hd as (Hwg & Hsp & Hc).
    destruct (running_zero_or_worker ws) as [Hz|(k & wk & Hk & Hdone)].
    + rewrite Hz in Hwg. simpl in Hwg. subst n.
      eexists. apply step_close. assumption.
    + pose proof (running_pos ws k wk Hk Hdone) as Hpos.
      destruct (nodeInfo_lookup nis ws k wk Hlen Hk) as [ni Hni].
      pose proof (NodeInfo_ok_lookup nis Hok k ni Hni) as Hniok.
      assert (Hns : is_not_started wk = false).
      { destruct (is_not_started wk) eqn:E; [|reflexivity].
        apply (Hsp k wk Hk) in E. apply lookup_lt_Some in Hk. lia. }
      destruct wk as [|index|ms i|ms i|]; try discriminate.
      * pose proof (doCreateContainerOnNode_triple ext ni o index Hniok
                      (mkSys w [])) as Ht.
        unfold wp in Ht.
        destruct (doCreateContainerOnNode ext ni o index (mkSys w []))
          as [[ms s]|] eqn:Hrun; [|contradiction].
        eexists. eapply step_launch; eassumption.
      * destruct (ms !! i) as [m|] eqn:Hi.
        -- eexists. eapply step_send; eassumption.
        -- destruct (DeleteProcessing ext o ni w) as [e w'] eqn:Hdel.
           eexists. eapply step_finish; try eassumption. lia.
      * destruct (UpdateProcessing ext o (NodeInfo.Name ni)
                    (int_sub (int_sub (NodeInfo.Deploy ni) (Z.of_nat i)) 1) w)
          as [e w'] eqn:Hupd.
        eexists. eapply step_update; eassumption.
Qed.

(** Once the channel is closed no goroutine can move. *)
Lemma closed_terminal {W} (ext : Externals W) o nis st :
  inv ext o nis st -> main st = DClosed -> terminal ext st.
Proof.
  intros [Ho Hn Hlen Hp Hws Hcount Hd] Hmain st' Hstep.
  unfold driver_inv in Hd. rewrite Hmain in Hd. destruct Hd as (Hz & _).
  inversion Hstep; subst; simpl in *; try discriminate;
    match goal with
    | H : ?ws !! _ = Some _ |- _ =>
        pose proof (running_zero_done _ _ _ Hz H); discriminate
    end.
Qed.

Lemma terminal_closed {W} (ext : Externals W) o nis st :
  Forall (fun nodeInfo => NodeInfo_ok nodeInfo = true) nis ->
  inv ext o nis st -> terminal ext st -> main st = DClosed.
Proof.
  intros Hok Hinv Hterm.
  destruct (main st) eqn:Hmain; try reflexivity;
    (destruct (inv_progress ext o nis st Hok Hinv) as [st' Hstep];
     [congruence | exfalso; eapply Hterm; eassumption]).
Qed.

(** Every step lowers the fuel of the deployment. *)
Lemma step_fuel {W} (ext : Externals W) o nis st st' :
  Forall (fun nodeInfo => NodeInfo_ok nodeInfo = true) nis ->
  inv ext o nis st -> step ext st st' -> (fuel st' < fuel st)%nat.
Proof.
  intros Hok Hinv Hstep.
  pose proof (inv_step ext o nis st st' Hok Hinv Hstep) as [_ _ _ Hp' _ _ _].
  destruct Hinv as [Ho Hn Hlen Hp Hws Hcount Hd].
  unfold fuel.
  inversion Hstep; subst; simpl in *; try discriminate.
  - lia.
  - unfold driver_inv in Hd. simpl in Hd. destruct Hd as (Hwg & Hsp & Hc).
    destruct (worker_lookup _ ws k nodeInfo Hlen H) as [wk Hwk].
    assert (Hns : is_not_started wk = true) by (apply (Hsp k wk Hwk); lia).
    destruct wk; try discriminate.
    pose proof (sum_zip_insert worker_fuel _ ws k nodeInfo WNotStarted
                  (WLaunch index) H Hwk) as Hsum.
    cbn [worker_fuel] in Hsum. apply lookup_lt_Some in H. lia.
  - apply lookup_ge_None in H. lia.
  - lia.
  - pose proof (NodeInfo_ok_lookup _ Hok k nodeInfo H0) as Hni.
    pose proof (doCreateContainerOnNode_triple ext nodeInfo o0 index Hni
                  (mkSys w [])) as Ht.
    unfold wp in Ht. rewrite H1 in Ht. destruct Ht as [Hms _].
    pose proof (sum_zip_insert worker_fuel _ ws k nodeInfo (WLaunch index)
                  (WSend ms 0) H0 H) as Hsum.
    cbn [worker_fuel] in Hsum. lia.
  - destruct (nodeInfo_lookup _ ws k (WSend ms i) Hlen H) as [ni Hni].
    pose proof (sum_zip_insert worker_fuel _ ws k ni (WSend ms i)
                  (WUpdate ms i) Hni H) as Hsum.
    cbn [worker_fuel] in Hsum. apply lookup_lt_Some in H0. lia.
  - destruct (Hws k nodeInfo (WUpdate ms i) H0 H) as [Hi _].
    pose proof (sum_zip_insert worker_fuel _ ws k nodeInfo (WUpdate ms i)
                  (WSend ms (S i)) H0 H) as Hsum.
    cbn [worker_fuel] in Hsum. lia.
  - pose proof (sum_zip_insert worker_fuel _ ws k nodeInfo (WSend ms i)
                  WDone H1 H) as Hsum.
    cbn [worker_fuel] in Hsum. lia.
Qed.

(** Every deployment can be run to its end, where the channel is closed. *)
Lemma inv_terminates {W} (ext : Externals W) o nis :
  Forall (fun nodeInfo => NodeInfo_ok nodeInfo = true) nis ->
  forall n st, (fuel st <= n)%nat -> inv ext o nis st ->
  exists st', steps ext st st' /\ terminal ext st'.
Proof.
  intros Hok. induction n as [|n IH]; intros st Hfuel Hinv.
  - exists st. split; [apply rtc_refl|].
    intros st' Hstep. pose proof (step_fuel ext o nis st st' Hok Hinv Hstep).
    lia.
  - destruct (main st) eqn:Hmain;
      try (destruct (inv_progress ext o nis st Hok Hinv) as [st1 Hstep];
           [congruence|];
           pose proof (step_fuel ext o nis st st1 Hok Hinv Hstep);
           destruct (IH st1) as (st' & Hsteps & Hterm);
           [lia | eapply inv_step; eassumption |];
           exists st'; split; [eapply rtc_l; eassumption | assumption]).
    exists st. split; [apply rtc_refl|].
    eapply closed_terminal; eassumption.
Qed.

(* --------------------------------------------------------------------- *)
(* What is sent on the result channel                                    *)
(* --------------------------------------------------------------------- *)

Lemma worker_sends {W} (ext : Externals W) o k ni wk tr :
  NodeInfo_ok ni = true ->
  worker_inv ext o k ni wk tr ->
  sends_of k tr = seq 0 (sent_count ni wk)
  /\ (sent_count ni wk <= Z.to_nat (NodeInfo.Deploy ni))%nat.
Proof.
  intros Hni Hwk. rewrite <- sends_of_proj.
  destruct wk as [|index|ms i|ms i|]; cbn [sent_count worker_inv] in *.
  - rewrite Hwk. split; [reflexivity | lia].
  - rewrite Hwk. split; [reflexivity | lia].
  - destruct Hwk as [Hi Hl].
    destruct (launched_length ext o k ni ms _ _ Hni Hl) as (Hms & cs & -> & _).
    rewrite sends_of_app, sends_of_calls, sends_of_sent_events.
    split; [reflexivity | lia].
  - destruct Hwk as [Hi Hl].
    destruct (launched_length ext o k ni ms _ _ Hni Hl) as (Hms & cs & -> & _).
    rewrite !sends_of_app, sends_of_calls, sends_of_sent_events, seq_S.
    unfold sends_of at 1. rewrite omap_cons_eq, decide_True by reflexivity.
    split; [reflexivity | lia].
  - destruct Hwk as [ms Hl].
    destruct (launched_length ext o k ni ms _ _ Hni Hl) as (Hms & cs & -> & _).
    rewrite !sends_of_app, sends_of_calls, sends_of_sent_events, Hms.
    unfold sends_of at 1. rewrite omap_cons_eq, app_nil_r.
    split; [reflexivity | lia].
Qed.

Lemma closed_main {W} (ext : Externals W) o nis st :
  inv ext o nis st -> chan_closed (trace st) = true -> main st = DClosed.
Proof.
  intros [_ _ _ _ _ _ Hd] Hc. unfold driver_inv in Hd.
  destruct (main st); try reflexivity; try contradiction;
    destruct Hd as (_ & _ & Hc'); congruence.
Qed.

(** C1: when CreateContainer has returned its channel without error and
    the allocator's result is well formed, then however the goroutines
    interleave: no goroutine panics; each node's messages are sent in the
    order 0, 1, ... of the replica index; once the channel is closed nothing
    moves any more; when nothing can move, exactly sum(NodeInfo.Deploy)
    messages have been sent, Deploy of them for each node, and the channel
    has been closed exactly once, as the last event; and every run can be
    brought to that end. *)
Theorem doCreateContainer_sends_all_then_closes
    {W} (ext : Externals W) opts w d :
  CreateContainer ext opts w = (Some d, None) ->
  Forall (fun nodeInfo => NodeInfo_ok nodeInfo = true) (nodesInfo d) ->
  forall st, steps ext d st ->
    panicked st = false
    /\ (forall k nodeInfo, nodesInfo d !! k = Some nodeInfo ->
          exists n, (n <= Z.to_nat (NodeInfo.Deploy nodeInfo))%nat
                    /\ sends_of k (trace st) = seq 0 n)
    /\ (chan_closed (trace st) = true -> terminal ext st)
    /\ (terminal ext st ->
          (exists tr, trace st = (tr ++ [EvClose])%list
                      /\ chan_closed tr = false)
          /\ length (chan_messages (trace st)) = total_deploy (nodesInfo d)
          /\ forall k nodeInfo, nodesInfo d !! k = Some nodeInfo ->
               sends_of k (trace st)
               = seq 0 (Z.to_nat (NodeInfo.Deploy nodeInfo)))
    /\ exists st', steps ext st st' /\ terminal ext st'.
Proof.
  intros Hcreate Hok st Hsteps.
  pose proof (CreateContainer_inv ext opts w d Hcreate) as Hinv0.
  pose proof (inv_steps ext _ _ d st Hok Hinv0 Hsteps) as Hinv.
  pose proof Hinv as [Ho Hn Hlen Hp Hws Hcount Hd].
  split; [assumption|]. split; [|split; [|split]].
  - intros k ni Hni.
    destruct (worker_lookup _ (workers st) k ni Hlen Hni) as [wk Hwk].
    destruct (worker_sends ext _ k ni wk (trace st)
                (NodeInfo_ok_lookup _ Hok k ni Hni) (Hws k ni wk Hni Hwk))
      as [Hs Hle].
    eauto.
  - intros Hc. eapply closed_terminal; [eassumption|].
    eapply closed_main; eassumption.
  - intros Hterm.
    pose proof (terminal_closed ext _ _ st Hok Hinv Hterm) as Hmain.
    unfold driver_inv in Hd. rewrite Hmain in Hd.
    destruct Hd as (Hz & _ & Htr).
    split; [assumption|]. split.
    + rewrite Hcount. apply sent_total_done; [assumption|].
      intros k wk Hk. eapply running_zero_done; eassumption.
    + intros k ni Hni.
      destruct (worker_lookup _ (workers st) k ni Hlen Hni) as [wk Hwk].
      destruct (worker_sends ext _ k ni wk (trace st)
                  (NodeInfo_ok_lookup _ Hok k ni Hni) (Hws k ni wk Hni Hwk))
        as [Hs _].
      pose proof (running_zero_done _ _ _ Hz Hwk) as Hdone.
      destruct wk; try discriminate. exact Hs.
  - eapply inv_terminates; [eassumption | reflexivity | eassumption].
Qed.

(* --------------------------------------------------------------------- *)
(* Launch work and sends of one node                                     *)
(* --------------------------------------------------------------------- *)

Lemma filter_split {A} (P : A -> Prop) `{!forall x, Decision (P x)} (l : list A) :
  forall l1 l2, filter P l = (l1 ++ l2)%list ->
  exists la lb, l = (la ++ lb)%list /\ filter P la = l1 /\ filter P lb = l2.
Proof.
  induction l as [|x l IH]; intros l1 l2 Heq.
  - rewrite filter_nil in Heq. symmetry in Heq.
    apply app_eq_nil in Heq as [-> ->]. exists [], []. auto.
  - rewrite filter_cons in Heq. destruct (decide (P x)) as [Hx|Hx].
    + destruct l1 as [|y l1].
      * exists [], (x :: l). simpl in *. rewrite filter_cons, decide_True by auto.
        auto.
      * simpl in Heq. injection Heq as <- Heq.
        destruct (IH _ _ Heq) as (la & lb & -> & <- & <-).
        exists (x :: la), lb. rewrite filter_cons, decide_True by auto. auto.
    + destruct (IH _ _ Heq) as (la & lb & -> & <- & <-).
      exists (x :: la), lb. rewrite filter_cons, decide_False by auto. auto.
Qed.

Lemma is_launch_event_owner k e : is_launch_event k e = true -> owner e = Some k.
Proof.
  destruct e as [[| |k'] c|k' i m|]; simpl; try discriminate.
  intros [->%bool_decide_eq_true _]%andb_true_iff. reflexivity.
Qed.

Lemma filter_launch_proj k tr :
  filter (fun e => is_launch_event k e = true) (proj k tr)
  = filter (fun e => is_launch_event k e = true) tr.
Proof.
  unfold proj. induction tr as [|e tr IH]; [reflexivity|].
  rewrite (filter_cons _ e tr). destruct (decide (owner e = Some k)) as [He|He].
  - rewrite !filter_cons, IH. reflexivity.
  - rewrite IH, filter_cons, decide_False; [reflexivity|].
    intros Hl. apply He, is_launch_event_owner, Hl.
Qed.

Lemma filter_launch_calls k cs :
  Forall (fun c => is_processing_call c = false) cs ->
  filter (fun e => is_launch_event k e = true) (map (EvCall (Worker k)) cs)
  = map (EvCall (Worker k)) cs.
Proof.
  induction 1 as [|c cs Hc _ IH]; [reflexivity|]. simpl.
  rewrite filter_cons, decide_True, IH; [reflexivity|].
  simpl. rewrite Hc, bool_decide_eq_true_2 by reflexivity. reflexivity.
Qed.

Lemma sent_events_elem k ni ms n e :
  e ∈ sent_events k ni ms n ->
  is_launch_event k e = false
  /\ forall k' i m, e = EvSend k' i m ->
       (i < n)%nat /\ m = default None (ms !! i).
Proof.
  induction n as [|n IH]; [intros H; inversion H|].
  rewrite sent_events_S, elem_of_app. intros [Hin|Hin].
  - destruct (IH Hin) as [Hl Hs]. split; [assumption|].
    intros k' i m He. destruct (Hs k' i m He). split; [lia | assumption].
  - apply elem_of_cons in Hin as [->|Hin].
    + split; [reflexivity|]. intros k' i m [= _ <- <-]. split; [lia|reflexivity].
    + apply list_elem_of_singleton in Hin as ->. split.
      * simpl. rewrite andb_false_r. reflexivity.
      * intros k' i m He. discriminate.
Qed.

(** The events of a node that has sent something: one whole call of
    doCreateContainerOnNode first, then sends of elements of the slice it
    returned and the upkeep of the processing counter. *)
Lemma worker_launched {W} (ext : Externals W) o k ni wk tr :
  NodeInfo_ok ni = true ->
  worker_inv ext o k ni wk tr ->
  proj k tr <> [] ->
  exists index w0 ms s post,
    doCreateContainerOnNode ext ni o index (mkSys w0 []) = Some (ms, s)
    /\ length ms = Z.to_nat (NodeInfo.Deploy ni)
    /\ Forall (fun c => is_processing_call c = false) (calls s)
    /\ proj k tr = (map (EvCall (Worker k)) (calls s) ++ post)%list
    /\ forall e, e ∈ post ->
         is_launch_event k e = false
         /\ forall k' i m, e = EvSend k' i m -> ms !! i = Some m.
Proof.
  intros Hni Hwk Hne.
  assert (Hpost : forall ms n extra,
             (n <= length ms)%nat ->
             (forall e, e ∈ extra ->
                is_launch_event k e = false
                /\ forall k' i m, e = EvSend k' i m -> ms !! i = Some m) ->
             forall e, e ∈ (sent_events k ni ms n ++ extra)%list ->
               is_launch_event k e = false
               /\ forall k' i m, e = EvSend k' i m -> ms !! i = Some m).
  { intros ms n extra Hn Hextra e [Hin|Hin]%elem_of_app; [|auto].
    destruct (sent_events_elem k ni ms n e Hin) as [Hl Hs].
    split; [assumption|]. intros k' i m He.
    destruct (Hs k' i m He) as [Hi ->].
    destruct (lookup_lt_is_Some_2 ms i) as [m' Hm']; [lia|].
    rewrite Hm'. reflexivity. }
  assert (Hrun : forall ms events post,
             launched ext o k ni ms events post ->
             exists index w0 s,
               doCreateContainerOnNode ext ni o index (mkSys w0 []) = Some (ms, s)
               /\ length ms = Z.to_nat (NodeInfo.Deploy ni)
               /\ Forall (fun c => is_processing_call c = false) (calls s)
               /\ events = (map (EvCall (Worker k)) (calls s) ++ post)%list).
  { intros ms events post (index & w0 & s & Hrun & ->).
    pose proof (doCreateContainerOnNode_triple ext ni o index Hni (mkSys w0 []))
      as Ht.
    unfold wp in Ht. rewrite Hrun in Ht.
    destruct Ht as [Hlen (cs & Hcs & Hl)]. simpl in Hcs. subst cs.
    exists index, w0, s. auto. }
  destruct wk as [|index|ms i|ms i|]; cbn [worker_inv] in Hwk;
    try contradiction.
  - destruct Hwk as [Hi Hl].
    destruct (Hrun _ _ _ Hl) as (index & w0 & s & Hr & Hlen & Hcs & Hp).
    exists index, w0, ms, s, (sent_events k ni ms i ++ [])%list.
    rewrite app_nil_r at 1. split_and!; try assumption.
    apply Hpost; [assumption|]. intros e He. inversion He.
  - destruct Hwk as [Hi Hl].
    destruct (Hrun _ _ _ Hl) as (index & w0 & s & Hr & Hlen & Hcs & Hp).
    exists index, w0, ms, s,
      (sent_events k ni ms i ++ [EvSend k i (default None (ms !! i))])%list.
    split_and!; try assumption.
    apply Hpost; [lia|]. intros e ->%list_elem_of_singleton.
    split; [reflexivity|]. intros k' i' m [= _ <- <-].
    destruct (lookup_lt_is_Some_2 ms i) as [m' Hm']; [lia|].
    rewrite Hm'. reflexivity.
  - destruct Hwk as [ms Hl].
    destruct (Hrun _ _ _ Hl) as (index & w0 & s & Hr & Hlen & Hcs & Hp).
    exists index, w0, ms, s,
      (sent_events k ni ms (length ms)
         ++ [EvCall (Worker k) (CallDeleteProcessing (NodeInfo.Name ni))])%list.
    split_and!; try assumption.
    apply Hpost; [lia|]. intros e ->%list_elem_of_singleton.
    split; [simpl; rewrite andb_false_r; reflexivity|].
    intros k' i' m He. discriminate.
Qed.

Lemma filter_none {A} (P : A -> Prop) `{!forall x, Decision (P x)} (l : list A) :
  (forall x, x ∈ l -> ~ P x) -> filter P l = [].
Proof.
  induction l as [|x l IH]; intros Hl; [reflexivity|].
  rewrite filter_cons, decide_False by (apply Hl; left).
  apply IH. intros y Hy. apply Hl. right. assumption.
Qed.

(** C10: when a message of a node is on the result channel, the node's
    call of doCreateContainerOnNode has returned: the launch work of that
    node in the history is exactly the calls of one whole run of
    doCreateContainerOnNode, which returned a slice with a slot for each of
    the node's [Deploy] replicas; the message sent is the element of that
    slice at the index of the send; and every launch call of the node comes
    before the send. *)
Theorem launches_complete_before_first_send
    {W} (ext : Externals W) opts w d :
  CreateContainer ext opts w = (Some d, None) ->
  Forall (fun nodeInfo => NodeInfo_ok nodeInfo = true) (nodesInfo d) ->
  forall st, steps ext d st ->
  forall k nodeInfo p i m,
    nodesInfo d !! k = Some nodeInfo ->
    trace st !! p = Some (EvSend k i m) ->
    exists index w0 ms s,
      doCreateContainerOnNode ext nodeInfo (options d) index (mkSys w0 [])
      = Some (ms, s)
      /\ length ms = Z.to_nat (NodeInfo.Deploy nodeInfo)
      /\ ms !! i = Some m
      /\ filter (fun e => is_launch_event k e = true) (trace st)
         = map (EvCall (Worker k)) (calls s)
      /\ forall q e, trace st !! q = Some e ->
           is_launch_event k e = true -> (q < p)%nat.
Proof.
  intros Hcreate Hok st Hsteps k ni p i m Hni Hp.
  pose proof (CreateContainer_inv ext opts w d Hcreate) as Hinv0.
  pose proof (inv_steps ext _ _ d st Hok Hinv0 Hsteps)
    as [Ho Hn Hlen Hpan Hws Hcount Hd].
  destruct (worker_lookup _ (workers st) k ni Hlen Hni) as [wk Hwk].
  assert (Hin : EvSend k i m ∈ proj k (trace st)).
  { apply list_elem_of_filter. split; [reflexivity|].
    eapply list_elem_of_lookup_2. eassumption. }
  destruct (worker_launched ext (options d) k ni wk (trace st)
              (NodeInfo_ok_lookup _ Hok k ni Hni) (Hws k ni wk Hni Hwk))
    as (index & w0 & ms & s & post & Hrun & Hms & Hcs & Hproj & Hpost).
  { intros Hnil. rewrite Hnil in Hin. inversion Hin. }
  exists index, w0, ms, s. split; [assumption|]. split; [assumption|].
  assert (Hcalls : forall e, e ∈ map (EvCall (Worker k)) (calls s) ->
                     is_launch_event k e = true
                     /\ exists c, e = EvCall (Worker k) c).
  { intros e (c & -> & Hc)%list_elem_of_fmap. split; [|eauto].
    rewrite Forall_forall in Hcs. simpl.
    rewrite (Hcs c Hc), bool_decide_eq_true_2 by reflexivity. reflexivity. }
  split; [|split].
  - rewrite Hproj in Hin. apply elem_of_app in Hin as [Hin|Hin].
    + destruct (Hcalls _ Hin) as [_ [c Hc]]. discriminate.
    + destruct (Hpost _ Hin) as [_ Hs]. eapply Hs. reflexivity.
  - rewrite <- filter_launch_proj, Hproj, filter_app, filter_launch_calls
      by assumption.
    rewrite (filter_none _ post); [apply app_nil_r|].
    intros e He. destruct (Hpost e He) as [Hl _]. congruence.
  - destruct (filter_split _ _ _ _ Hproj) as (ta & tb & Htr & Hta & Htb).
    assert (Hpge : (length ta <= p)%nat).
    { destruct (Nat.le_gt_cases (length ta) p) as [|Hlt]; [assumption|].
      rewrite Htr, lookup_app_l in Hp by assumption.
      assert (Hin' : EvSend k i m ∈ filter (fun e => owner e = Some k) ta).
      { apply list_elem_of_filter. split; [reflexivity|].
        eapply list_elem_of_lookup_2. eassumption. }
      rewrite Hta in Hin'. destruct (Hcalls _ Hin') as [_ [c Hc]].
      discriminate. }
    intros q e Hq Hl.
    destruct (Nat.lt_ge_cases q (length ta)) as [|Hge]; [lia|].
    rewrite Htr, lookup_app_r in Hq by assumption.
    assert (Hin' : e ∈ filter (fun e => owner e = Some k) tb).
    { apply list_elem_of_filter. split; [apply is_launch_event_owner, Hl|].
      eapply list_elem_of_lookup_2. eassumption. }
    rewrite Htb in Hin'. destruct (Hpost e Hin') as [Hl' _]. congruence.
Qed.

(* --------------------------------------------------------------------- *)
(* The allocator fails                                                   *)
(* --------------------------------------------------------------------- *)

Lemma no_goroutine_no_step {W} (ext : Externals W) (w : W) tr o st :
  steps ext (mkDeployment w tr o [] [] DNone 0 false) st ->
  st = mkDeployment w tr o [] [] DNone 0 false.
Proof.
  intros Hsteps. inversion Hsteps as [|? st1 ? Hstep _]; [reflexivity|].
  subst. inversion Hstep; subst;
    match goal with
    | H : [] !! _ = Some _ |- _ => rewrite lookup_nil in H; discriminate
    end.
Qed.

Lemma CreateContainer_allocator_fails {W} (ext : Externals W)
    opts w ident w1 err w2 :
  RandomString ext 16 w = (ident, w1) ->
  valid_options (DeployOptions.set_ProcessIdent (Normalize ext opts) ident)
  = true ->
  doAllocResource ext
    (DeployOptions.set_ProcessIdent (Normalize ext opts) ident) w1
  = (inl err, w2) ->
  CreateContainer ext opts w
  = (Some (mkDeployment w2
             [EvCall Caller (CallRandomString 16);
              EvCall Caller CallAllocResource]
             (DeployOptions.set_ProcessIdent (Normalize ext opts) ident)
             [] [] DNone 0 false),
     Some err).
Proof.
  intros Hrand Hvalid Halloc. unfold CreateContainer. rewrite Hrand.
  unfold valid_options in Hvalid.
  apply andb_true_iff in Hvalid as [[Hc Hm]%andb_true_iff Hq].
  apply negb_true_iff in Hc, Hm, Hq. rewrite Hc, Hm, Hq.
  unfold doCreateContainer. rewrite Halloc. reflexivity.
Qed.

(** C2 as stated fails: the allocator fails, and the channel that
    CreateContainer returns with the error is not closed. *)
Lemma allocator_error_channel_not_closed :
  ~ (forall W (ext : Externals W) opts w ident w1 err w2,
       RandomString ext 16 w = (ident, w1) ->
       valid_options (DeployOptions.set_ProcessIdent (Normalize ext opts) ident)
       = true ->
       doAllocResource ext
         (DeployOptions.set_ProcessIdent (Normalize ext opts) ident) w1
       = (inl err, w2) ->
       exists d, CreateContainer ext opts w = (Some d, Some err)
                 /\ chan_closed (trace d) = true
                 /\ chan_messages (trace d) = []).
Proof.
  intros H.
  destruct (H unit (demo (inl "insufficient resource") false false false false)
              (demo_options ∅) tt "abcdef" tt "insufficient resource" tt
              eq_refl eq_refl eq_refl) as (d & Hd & Hc & _).
  vm_compute in Hd. injection Hd as <-. vm_compute in Hc. discriminate.
Qed.

(** C2, amended: if the allocator returns an error, CreateContainer returns
    that error together with the channel it made, on which nothing has been
    sent and which is not closed; no goroutine was started, so nothing is
    ever sent on the channel and it is never closed. *)
Theorem CreateContainer_allocator_error {W} (ext : Externals W)
    opts w ident w1 err w2 :
  RandomString ext 16 w = (ident, w1) ->
  valid_options (DeployOptions.set_ProcessIdent (Normalize ext opts) ident)
  = true ->
  doAllocResource ext
    (DeployOptions.set_ProcessIdent (Normalize ext opts) ident) w1
  = (inl err, w2) ->
  exists d, CreateContainer ext opts w = (Some d, Some err)
            /\ chan_messages (trace d) = []
            /\ chan_closed (trace d) = false
            /\ forall st, steps ext d st -> st = d.
Proof.
  intros Hrand Hvalid Halloc.
  eexists. split; [eapply CreateContainer_allocator_fails; eassumption|].
  split; [reflexivity|]. split; [reflexivity|].
  apply no_goroutine_no_step.
Qed.

Lemma CreateContainer_allocator_error_witness :
  exists d,
    CreateContainer (demo (inl "insufficient resource") false false false false)
                    (demo_options ∅) tt
    = (Some d, Some "insufficient resource")
    /\ chan_messages (trace d) = []
    /\ chan_closed (trace d) = false
    /\ forall st,
         steps (demo (inl "insufficient resource") false false false false) d st ->
         st = d.
Proof.
  apply (CreateContainer_allocator_error
           (demo (inl "insufficient resource") false false false false)
           (demo_options ∅) tt "abcdef" tt "insufficient resource" tt);
    reflexivity.
Defined.

(* --------------------------------------------------------------------- *)
(* The properties on the small cluster                                   *)
(* --------------------------------------------------------------------- *)

Lemma demo_deployment_created :
  CreateContainer demo_cluster (demo_options ∅) tt = (Some demo_deployment, None).
Proof. reflexivity. Qed.

Lemma demo_nodesInfo_ok :
  Forall (fun nodeInfo => NodeInfo_ok nodeInfo = true) (nodesInfo demo_deployment).
Proof. repeat constructor. Qed.

Lemma demo_sent_reached : steps demo_cluster demo_deployment demo_sent.
Proof.
  eapply rtc_l; [apply step_start|].
  eapply rtc_l; [eapply step_spawn; reflexivity|].
  eapply rtc_l.
  { eapply (step_launch demo_cluster _ _ _ _ _ _ _ 0%nat 0 (demo_nodeInfo 1)
              demo_ms (mkSys tt demo_calls));
      [reflexivity | reflexivity | vm_compute; reflexivity]. }
  eapply rtc_l.
  { eapply (step_send demo_cluster _ _ _ _ _ _ _ 0%nat demo_ms 0%nat
              (default None (demo_ms !! 0%nat)));
      [reflexivity | vm_compute; reflexivity | reflexivity]. }
  exact (rtc_refl _ demo_sent).
Qed.

Example demo_done_reached : steps demo_cluster demo_sent demo_done.
Proof.
  eapply rtc_l.
  { eapply (step_update demo_cluster _ _ _ _ _ _ _ 0%nat demo_ms 0%nat
              (demo_nodeInfo 1) None tt); reflexivity. }
  eapply rtc_l.
  { eapply (step_finish demo_cluster _ _ _ _ _ _ _ 0%nat demo_ms 1%nat
              (demo_nodeInfo 1) None tt);
      [reflexivity | vm_compute; reflexivity | reflexivity | reflexivity | lia]. }
  eapply rtc_l; [eapply step_spawned; reflexivity|].
  eapply rtc_l; [eapply step_close; vm_compute; reflexivity|].
  exact (rtc_refl _ demo_done).
Qed.

Example demo_messages :
  chan_messages (trace demo_done) = demo_ms
  /\ match demo_ms with
     | [Some m] =>
         CreateContainerMessage.ContainerID m = "c1"
         /\ CreateContainerMessage.Error m = None
     | _ => False
     end.
Proof. vm_compute. auto. Qed.

(** A plan shorter than the deploy count makes doCreateContainerOnNode
    panic at the replica without a plan entry. *)
Example doCreateContainerOnNode_short_plan_panics :
  doCreateContainerOnNode demo_cluster (NodeInfo.mk "node1" 2 [∅] [])
                          (demo_options ∅) 0 (mkSys tt [])
  = None.
Proof. vm_compute. reflexivity. Qed.

Lemma doCreateContainer_sends_all_then_closes_witness :
  panicked demo_sent = false
  /\ (forall k nodeInfo, nodesInfo demo_deployment !! k = Some nodeInfo ->
        exists n, (n <= Z.to_nat (NodeInfo.Deploy nodeInfo))%nat
                  /\ sends_of k (trace demo_sent) = seq 0 n)
  /\ (chan_closed (trace demo_sent) = true -> terminal demo_cluster demo_sent)
  /\ (terminal demo_cluster demo_sent ->
        (exists tr, trace demo_sent = (tr ++ [EvClose])%list
                    /\ chan_closed tr = false)
        /\ length (chan_messages (trace demo_sent))
           = total_deploy (nodesInfo demo_deployment)
        /\ forall k nodeInfo, nodesInfo demo_deployment !! k = Some nodeInfo ->
             sends_of k (trace demo_sent)
             = seq 0 (Z.to_nat (NodeInfo.Deploy nodeInfo)))
  /\ exists st', steps demo_cluster demo_sent st' /\ terminal demo_cluster st'.
Proof.
  apply (doCreateContainer_sends_all_then_closes demo_cluster (demo_options ∅)
           tt demo_deployment demo_deployment_created demo_nodesInfo_ok
           demo_sent demo_sent_reached).
Defined.

Lemma launches_complete_before_first_send_witness :
  exists index w0 ms s,
    doCreateContainerOnNode demo_cluster (demo_nodeInfo 1)
                            (options demo_deployment) index (mkSys w0 [])
    = Some (ms, s)
    /\ length ms = Z.to_nat (NodeInfo.Deploy (demo_nodeInfo 1))
    /\ ms !! 0%nat = Some (default None (demo_ms !! 0%nat))
    /\ filter (fun e => is_launch_event 0 e = true) (trace demo_sent)
       = map (EvCall (Worker 0)) (calls s)
    /\ forall q e, trace demo_sent !! q = Some e ->
         is_launch_event 0 e = true -> (q < 9)%nat.
Proof.
  apply (launches_complete_before_first_send demo_cluster (demo_options ∅)
           tt demo_deployment demo_deployment_created demo_nodesInfo_ok
           demo_sent demo_sent_reached 0%nat (demo_nodeInfo 1) 9%nat 0%nat
           (default None (demo_ms !! 0%nat)));
    [reflexivity | vm_compute; reflexivity].
Defined.



(* ===================================================================== *)
(* Further properties of the volume model                                *)
(* ===================================================================== *)

(* --------------------------------------------------------------------- *)
(* NewVolumeBinding: the shape of its results                            *)
(* --------------------------------------------------------------------- *)

Lemma NewVolumeBinding_cases volume :
  (exists vb, NewVolumeBinding volume = (Some vb, Validate vb))
  \/ (exists err, NewVolumeBinding volume = (None, Some err)).
Proof.
  unfold NewVolumeBinding.
  destruct (strings.Split volume ":") as [|src [|dst [|flags [|sz [|? ?]]]]];
    eauto.
  destruct (strconv.ParseInt sz); eauto.
Qed.

Lemma Split_length s sep :
  length (strings.Split s sep) = S (count_byte sep s).
Proof.
  induction s as [|c s IH]; simpl; [reflexivity|].
  destruct (Ascii.eqb c sep); simpl.
  - rewrite IH. reflexivity.
  - destruct (strings.Split s sep); simpl in *; [discriminate | exact IH].
Qed.

(** X1: a volume string with no colon or with more than three colons is
    refused: NewVolumeBinding returns a nil pointer and the error
    "invalid volume: " followed by the string. *)
Theorem NewVolumeBinding_wrong_field_count (volume : string) :
  (count_byte ":" volume = 0 \/ 3 < count_byte ":" volume)%nat ->
  NewVolumeBinding volume = (None, Some ("invalid volume: " ++ volume)).
Proof.
  intros Hn. pose proof (Split_length volume ":") as Hlen.
  unfold NewVolumeBinding.
  destruct (strings.Split volume ":") as [|src [|dst [|flags [|sz [|? ?]]]]];
    simpl in Hlen; try reflexivity; exfalso; lia.
Qed.

Lemma NewVolumeBinding_wrong_field_count_witness :
  NewVolumeBinding "/data" = (None, Some ("invalid volume: " ++ "/data"))
  /\ NewVolumeBinding "a:b:c:1:2"
     = (None, Some ("invalid volume: " ++ "a:b:c:1:2")).
Proof.
  split; apply NewVolumeBinding_wrong_field_count; vm_compute; lia.
Defined.

(** X2: whenever NewVolumeBinding returns a binding (a non-nil pointer),
    the error next to it is exactly the verdict of Validate on that
    binding, so a binding that fails validation is still returned; the
    string had one to three colons, no field of the binding has a colon,
    the size is an int64, it is 0 unless there were three colons, and the
    flags are empty when there was one colon. *)
Theorem NewVolumeBinding_pointer (volume : string) (vb : VolumeBinding)
    (err : option error) :
  NewVolumeBinding volume = (Some vb, err) ->
  err = Validate vb
  /\ (1 <= count_byte ":" volume <= 3)%nat
  /\ strings.no_byte ":" (Source vb) = true
  /\ strings.no_byte ":" (Destination vb) = true
  /\ strings.no_byte ":" (Flags vb) = true
  /\ int64_range (SizeInBytes vb)
  /\ ((count_byte ":" volume < 3)%nat -> SizeInBytes vb = 0)
  /\ (count_byte ":" volume = 1%nat -> Flags vb = "").
Proof.
  pose proof (Split_length volume ":") as Hlen.
  pose proof (Split_parts_no_sep volume ":") as Hparts.
  assert (H0 : int64_range 0) by (unfold int64_range, minInt64, maxInt64; lia).
  unfold NewVolumeBinding.
  destruct (strings.Split volume ":") as [|src [|dst [|flags [|sz [|? ?]]]]];
    simpl in Hlen; try discriminate.
  - intros [= <- <-]. inversion Hparts as [|? ? Hs Hp1]; subst.
    inversion Hp1 as [|? ? Hd _]; subst.
    simpl. split_and!; auto; lia.
  - intros [= <- <-]. inversion Hparts as [|? ? Hs Hp1]; subst.
    inversion Hp1 as [|? ? Hd Hp2]; subst.
    inversion Hp2 as [|? ? Hf _]; subst.
    simpl. split_and!; auto; lia.
  - destruct (strconv.ParseInt sz) as [e|size] eqn:Hsz; [discriminate|].
    intros [= <- <-]. inversion Hparts as [|? ? Hs Hp1]; subst.
    inversion Hp1 as [|? ? Hd Hp2]; subst.
    inversion Hp2 as [|? ? Hf _]; subst.
    simpl. split_and!; auto; try lia. eapply ParseInt_range; eauto.
Qed.

Lemma NewVolumeBinding_pointer_witness :
  let vb := mkVolumeBinding "AUTO" "" "m" 0 in
  Some "invalid volume, dest must be provided" = Validate vb
  /\ (1 <= count_byte ":" "AUTO::m" <= 3)%nat
  /\ strings.no_byte ":" (Source vb) = true
  /\ strings.no_byte ":" (Destination vb) = true
  /\ strings.no_byte ":" (Flags vb) = true
  /\ int64_range (SizeInBytes vb)
  /\ ((count_byte ":" "AUTO::m" < 3)%nat -> SizeInBytes vb = 0)
  /\ (count_byte ":" "AUTO::m" = 1%nat -> Flags vb = "").
Proof.
  intros vb. apply (NewVolumeBinding_pointer "AUTO::m"). vm_compute. reflexivity.
Defined.

(* --------------------------------------------------------------------- *)
(* The three classifiers                                                 *)
(* --------------------------------------------------------------------- *)

Lemma Contains_byte s c :
  strings.Contains s (String c EmptyString) = negb (strings.no_byte c s).
Proof.
  unfold strings.Contains.
  induction s as [|a s IH]; simpl; [reflexivity|].
  destruct (ascii_dec c a) as [<-|Hne].
  - rewrite Ascii.eqb_refl. destruct s; reflexivity.
  - destruct (Ascii.eqb_spec a c) as [->|_]; [congruence|]. simpl.
    destruct (String.index 0 (String c "") s); simpl in *;
      destruct (strings.no_byte c s); simpl in *; congruence.
Qed.

Lemma no_byte_RemoveAll_self s c :
  strings.no_byte c (strings.RemoveAll s c) = true.
Proof.
  induction s as [|a s IH]; simpl; [reflexivity|].
  destruct (Ascii.eqb a c) eqn:Ha; simpl; [assumption|].
  rewrite Ha, IH. reflexivity.
Qed.

Lemma no_byte_RemoveAll s c old :
  strings.no_byte c s = true ->
  strings.no_byte c (strings.RemoveAll s old) = true.
Proof.
  induction s as [|a s IH]; simpl; [reflexivity|].
  intros [Ha Hs]%andb_true_iff.
  destruct (Ascii.eqb a old); simpl; [auto|].
  rewrite Ha, IH by assumption. reflexivity.
Qed.

(** X3: the classifiers are nested as their names suggest. A binding that
    requires monopoly also requires schedule and never requires infinity;
    a binding that requires infinity never requires monopoly. *)
Theorem RequireMonopoly_classification (vb : VolumeBinding) :
  (RequireMonopoly vb = true ->
     RequireSchedule vb = true /\ RequireInfinity vb = false)
  /\ (RequireInfinity vb = true -> RequireMonopoly vb = false).
Proof.
  unfold RequireMonopoly, RequireSchedule, RequireInfinity.
  destruct (strings.HasSuffix (Source vb) AUTO); simpl; [|split; congruence].
  change "m" with (String "m" EmptyString). rewrite Contains_byte.
  destruct (Flags vb) as [|c f]; simpl; [split; congruence|].
  destruct (negb (Ascii.eqb c "m") && strings.no_byte "m" f); simpl;
    split; try congruence; auto.
Qed.

(* --------------------------------------------------------------------- *)
(* ToString with normalize                                               *)
(* --------------------------------------------------------------------- *)

(** X4: the normalized string of a parsed binding parses again, to the
    same binding with every m dropped from its flags, and that binding
    does not require monopoly. *)
Theorem ToString_normalize_reparse (volume : string) (vb : VolumeBinding) :
  NewVolumeBinding volume = (Some vb, None) ->
  let vb' :=
    mkVolumeBinding (Source vb) (Destination vb)
                    (strings.RemoveAll (Flags vb) "m") (SizeInBytes vb) in
  NewVolumeBinding (ToString vb true) = (Some vb', None)
  /\ RequireMonopoly vb' = false.
Proof.
  intros Hnew vb'.
  destruct (NewVolumeBinding_ok volume (Some vb))
    as (vb0 & [= <-] & Hv & Hs & Hd & Hf & Hr);
    [rewrite Hnew; reflexivity..|].
  assert (Hm : RequireMonopoly vb' = false).
  { unfold RequireMonopoly, vb'; simpl.
    change "m" with (String "m" EmptyString).
    rewrite Contains_byte, no_byte_RemoveAll_self. apply andb_false_r. }
  assert (Hv' : Validate vb' = None).
  { unfold Validate in *. rewrite Hm. simpl.
    destruct (String.eqb (Destination vb) ""); [discriminate | reflexivity]. }
  split; [|assumption].
  rewrite <- Hv'. subst vb'.
  pose proof (no_byte_RemoveAll (Flags vb) ":" "m" Hf) as Hf'.
  destruct vb as [src dst flags size]; simpl in *.
  unfold ToString, NewVolumeBinding; simpl.
  set (flags' := strings.RemoveAll flags "m") in *.
  destruct (String.eqb_spec flags "") as [->|Hne];
    destruct (Z.eqb_spec size 0) as [->|Hz]; simpl.
  - change (src ++ ":" ++ dst) with (src ++ String ":" dst).
    rewrite Split_app, Split_no_sep by assumption. reflexivity.
  - change (src ++ ":" ++ dst ++ ":" ++ flags' ++ ":" ++ strconv.FormatInt size)
      with (src ++ String ":" (dst ++ String ":" (flags' ++ String ":"
              (strconv.FormatInt size)))).
    rewrite !Split_app, Split_no_sep by auto using FormatInt_no_colon.
    rewrite ParseInt_FormatInt by assumption. reflexivity.
  - change (src ++ ":" ++ dst ++ ":" ++ flags')
      with (src ++ String ":" (dst ++ String ":" flags')).
    rewrite !Split_app, Split_no_sep by assumption. reflexivity.
  - change (src ++ ":" ++ dst ++ ":" ++ flags' ++ ":" ++ strconv.FormatInt size)
      with (src ++ String ":" (dst ++ String ":" (flags' ++ String ":"
              (strconv.FormatInt size)))).
    rewrite !Split_app, Split_no_sep by auto using FormatInt_no_colon.
    rewrite ParseInt_FormatInt by assumption. reflexivity.
Qed.

Lemma ToString_normalize_reparse_witness :
  let vb := mkVolumeBinding "AUTO" "/data" "rmw" 10 in
  let vb' :=
    mkVolumeBinding (Source vb) (Destination vb)
                    (strings.RemoveAll (Flags vb) "m") (SizeInBytes vb) in
  NewVolumeBinding (ToString vb true) = (Some vb', None)
  /\ RequireMonopoly vb' = false.
Proof.
  intros vb. apply (ToString_normalize_reparse "AUTO:/data:rmw:10").
  vm_compute. reflexivity.
Defined.

(* --------------------------------------------------------------------- *)
(* MakeVolumeBindings and ToStringSlice                                  *)
(* --------------------------------------------------------------------- *)

Lemma ToStringSlice_foldl normalize vbs : forall volumes : list string,
  foldl (fun volumes vb => (volumes ++ [ToString vb normalize])%list)
        volumes vbs
  = (volumes ++ map (fun vb => ToString vb normalize) vbs)%list.
Proof.
  induction vbs as [|vb vbs IH]; intros volumes; simpl.
  - rewrite app_nil_r. reflexivity.
  - rewrite IH, <- app_assoc. reflexivity.
Qed.

Lemma ToStringSlice_unsorted vbs normalize :
  ToStringSlice vbs false normalize
  = map (fun vb => ToString vb normalize) vbs.
Proof. unfold ToStringSlice. rewrite ToStringSlice_foldl. reflexivity. Qed.

Lemma ToStringSlice_sorted vbs normalize :
  ToStringSlice vbs true normalize
  = map (fun vb => ToString vb normalize) (sort_bindings vbs).
Proof. unfold ToStringSlice. rewrite ToStringSlice_foldl. reflexivity. Qed.

Lemma MakeVolumeBindings_from_ok volumes : forall acc vbs,
  MakeVolumeBindings_from acc volumes = (vbs, None) ->
  exists new, vbs = (acc ++ new)%list
    /\ Forall2 (fun s vb => NewVolumeBinding s = (Some vb, None)) volumes new.
Proof.
  induction volumes as [|s volumes IH]; intros acc vbs;
    cbn [MakeVolumeBindings_from].
  - intros [= <-]. exists []. rewrite app_nil_r. split; constructor.
  - destruct (NewVolumeBinding_cases s) as [[vb Hs]|[err Hs]]; rewrite Hs;
      [|discriminate].
    destruct (Validate vb) eqn:Hv; [discriminate|].
    intros H. apply IH in H as (new & -> & HF).
    exists (vb :: new). rewrite <- app_assoc. split; [reflexivity|].
    constructor; assumption.
Qed.

Lemma MakeVolumeBindings_from_err volumes : forall acc vbs e,
  MakeVolumeBindings_from acc volumes = (vbs, Some e) ->
  vbs = []
  /\ exists pre s post, volumes = (pre ++ s :: post)%list
       /\ Forall (fun s => (NewVolumeBinding s).2 = None) pre
       /\ (NewVolumeBinding s).2 = Some e.
Proof.
  induction volumes as [|s volumes IH]; intros acc vbs e;
    cbn [MakeVolumeBindings_from]; [discriminate|].
  destruct (NewVolumeBinding_cases s) as [[vb Hs]|[err Hs]]; rewrite Hs.
  - destruct (Validate vb) eqn:Hv.
    + intros [= <- <-]. split; [reflexivity|].
      exists [], s, volumes. rewrite Hs. auto.
    + intros H. apply IH in H as (-> & pre & s' & post & -> & Hpre & Hs').
      split; [reflexivity|]. exists (s :: pre), s', post.
      split_and!; auto. constructor; [rewrite Hs; reflexivity | assumption].
  - intros [= <- <-]. split; [reflexivity|].
    exists [], s, volumes. rewrite Hs. auto.
Qed.

(** X5: MakeVolumeBindings parses all or nothing. Without an error the
    result has one binding for each string, in order, each the successful
    parse of its string; with an error the result is nil and the error is
    that of the first string NewVolumeBinding refuses. *)
Theorem MakeVolumeBindings_all_or_first_error (volumes : list string) :
  match MakeVolumeBindings volumes with
  | (vbs, None) =>
      Forall2 (fun s vb => NewVolumeBinding s = (Some vb, None)) volumes vbs
  | (vbs, Some e) =>
      vbs = []
      /\ exists pre s post, volumes = (pre ++ s :: post)%list
           /\ Forall (fun s => (NewVolumeBinding s).2 = None) pre
           /\ (NewVolumeBinding s).2 = Some e
  end.
Proof.
  unfold MakeVolumeBindings.
  destruct (MakeVolumeBindings_from [] volumes) as [vbs [e|]] eqn:H.
  - eapply MakeVolumeBindings_from_err; eauto.
  - apply MakeVolumeBindings_from_ok in H as (new & -> & HF). exact HF.
Qed.

Lemma MakeVolumeBindings_from_ToString vbs : forall acc,
  Forall (fun vb => NewVolumeBinding (ToString vb false) = (Some vb, None))
         vbs ->
  MakeVolumeBindings_from acc (map (fun vb => ToString vb false) vbs)
  = ((acc ++ vbs)%list, None).
Proof.
  induction vbs as [|vb vbs IH]; intros acc HF; simpl.
  - rewrite app_nil_r. reflexivity.
  - inversion HF as [|? ? Hvb HF']; subst. rewrite Hvb, IH by assumption.
    rewrite <- app_assoc. reflexivity.
Qed.

Lemma parsed_reparse volumes vbs :
  Forall2 (fun s vb => NewVolumeBinding s = (Some vb, None)) volumes vbs ->
  Forall (fun vb => NewVolumeBinding (ToString vb false) = (Some vb, None))
         vbs.
Proof.
  induction 1 as [|s vb volumes vbs Hnew _ IH]; constructor; [|exact IH].
  destruct (NewVolumeBinding_ok s (Some vb))
    as (vb' & [= <-] & Hv & Hs & Hd & Hf & Hr);
    [rewrite Hnew; reflexivity..|].
  rewrite NewVolumeBinding_ToString, Hv by assumption. reflexivity.
Qed.

(** X6: the round trip of the JSON form. The bindings MakeVolumeBindings
    parsed from a list of strings, written back with ToStringSlice (not
    sorted, not normalized: the strings MarshalJSON encodes) and parsed
    again, are the same bindings in the same order. *)
Theorem MakeVolumeBindings_ToStringSlice_roundtrip
    (volumes : list string) (vbs : VolumeBindings) :
  MakeVolumeBindings volumes = (vbs, None) ->
  MakeVolumeBindings (ToStringSlice vbs false false) = (vbs, None).
Proof.
  unfold MakeVolumeBindings. intros H.
  apply MakeVolumeBindings_from_ok in H as (new & -> & HF). simpl.
  rewrite ToStringSlice_unsorted.
  apply (MakeVolumeBindings_from_ToString new []).
  eapply parsed_reparse; eauto.
Qed.

Lemma MakeVolumeBindings_ToStringSlice_roundtrip_witness :
  let vbs := [mkVolumeBinding "AUTO" "/data" "" 42;
              mkVolumeBinding "/host" "/mnt" "ro" 0] in
  MakeVolumeBindings (ToStringSlice vbs false false) = (vbs, None).
Proof.
  intros vbs.
  apply (MakeVolumeBindings_ToStringSlice_roundtrip
           ["AUTO:/data::+042"; "/host:/mnt:ro:0"]).
  vm_compute. reflexivity.
Defined.
(* --------------------------------------------------------------------- *)
(* AdditionalStorage                                                     *)
(* --------------------------------------------------------------------- *)

Lemma wrap64_range z : int64_range (wrap64 z).
Proof.
  unfold wrap64, int64_range, minInt64, maxInt64.
  pose proof (Z.mod_pos_bound (z + 2 ^ 63) (2 ^ 64)). lia.
Qed.

Lemma wrap64_id z : int64_range z -> wrap64 z = z.
Proof.
  unfold wrap64, int64_range, minInt64, maxInt64. intros Hz.
  rewrite Z.mod_small; lia.
Qed.

Lemma wrap64_add a b : wrap64 (wrap64 a + wrap64 b) = wrap64 (a + b).
Proof.
  rewrite wrap64_add_l, Z.add_comm, wrap64_add_l. f_equal. lia.
Qed.

Lemma hard_size_cons vb l :
  hard_size (vb :: l)
  = if RequireSchedule vb then hard_size l else SizeInBytes vb + hard_size l.
Proof.
  unfold hard_size. rewrite filter_cons.
  destruct (RequireSchedule vb); simpl; reflexivity.
Qed.

Lemma hard_size_app l1 l2 : hard_size (l1 ++ l2) = hard_size l1 + hard_size l2.
Proof.
  induction l1 as [|vb l1 IH]; [reflexivity|].
  rewrite <- app_comm_cons, !hard_size_cons, IH.
  destruct (RequireSchedule vb); lia.
Qed.

Lemma AdditionalStorage_from l : forall storage,
  int64_range storage ->
  foldl
    (fun storage vb =>
       if negb (RequireSchedule vb) then wrap64 (storage + SizeInBytes vb)
       else storage)
    storage l
  = wrap64 (storage + hard_size l).
Proof.
  induction l as [|vb l IH]; intros storage Hr; cbn [foldl].
  - unfold hard_size; simpl. rewrite Z.add_0_r, wrap64_id; auto.
  - rewrite hard_size_cons. destruct (RequireSchedule vb); cbn [negb].
    + apply IH, Hr.
    + rewrite IH by apply wrap64_range. rewrite wrap64_add_l.
      f_equal. lia.
Qed.

Lemma AdditionalStorage_hard_size vbs :
  AdditionalStorage vbs = wrap64 (hard_size vbs).
Proof.
  unfold AdditionalStorage. rewrite AdditionalStorage_from; [reflexivity|].
  unfold int64_range, minInt64, maxInt64. lia.
Qed.

(** X7: AdditionalStorage is the sum of the sizes of the bindings that do
    not require schedule, wrapped to an int64 once; the scheduled bindings
    do not count, the order does not matter, and the storage of an
    appended list is the wrapped sum of the storages of its parts. *)
Theorem AdditionalStorage_sum (vbs vbs2 : VolumeBindings) :
  AdditionalStorage vbs = wrap64 (hard_size vbs)
  /\ AdditionalStorage (vbs ++ vbs2)
     = wrap64 (AdditionalStorage vbs + AdditionalStorage vbs2).
Proof.
  split; [apply AdditionalStorage_hard_size|].
  rewrite !AdditionalStorage_hard_size, hard_size_app, wrap64_add.
  reflexivity.
Qed.

(* --------------------------------------------------------------------- *)
(* Merge: what the two results hold                                      *)
(* --------------------------------------------------------------------- *)

Lemma Merge_sizes_lookup l : forall (sizeMap : gmap volume_key Z) key,
  foldl Merge_sizes sizeMap l !! key
  = merge_sum (sizeMap !! key)
      (map SizeInBytes
         (filter (fun vb => RequireSchedule vb = true /\ key_of vb = key) l)).
Proof.
  induction l as [|vb l IH]; intros sizeMap key; cbn [foldl]; [reflexivity|].
  rewrite IH, Merge_sizes_eq, filter_cons.
  destruct (RequireSchedule vb) eqn:Hs.
  - destruct (decide (key_of vb = key)) as [<-|Hne].
    + rewrite decide_True by auto. unfold key_of at 1.
      rewrite lookup_insert_eq. reflexivity.
    + rewrite decide_False by (intros [_ ?]; contradiction).
      rewrite lookup_insert_ne by exact Hne. reflexivity.
  - rewrite decide_False by (intros [? _]; congruence). reflexivity.
Qed.

Lemma merge_sum_Some sizes : forall s,
  Forall int64_range sizes -> int64_range s ->
  merge_sum (Some s) sizes = Some (wrap64 (s + foldr Z.add 0 sizes)).
Proof.
  induction sizes as [|x sizes IH]; intros s HF Hs; simpl.
  - rewrite Z.add_0_r, wrap64_id; auto.
  - inversion HF; subst.
    change (merge_sum (Some (wrap64 (s + x))) sizes
            = Some (wrap64 (s + (x + foldr Z.add 0 sizes)))).
    rewrite IH by auto using wrap64_range. rewrite wrap64_add_l.
    do 2 f_equal. lia.
Qed.

Lemma merge_sum_None sizes :
  Forall int64_range sizes ->
  merge_sum None sizes
  = match sizes with
    | [] => None
    | _ => Some (wrap64 (foldr Z.add 0 sizes))
    end.
Proof.
  destruct sizes as [|x sizes]; [reflexivity|]. intros HF.
  inversion HF; subst.
  change (merge_sum (Some x) sizes
          = Some (wrap64 (x + foldr Z.add 0 sizes))).
  apply merge_sum_Some; assumption.
Qed.

Lemma merge_sum_is_Some sizes init z :
  merge_sum init sizes = Some z -> init = None -> sizes <> [].
Proof. intros H -> ->. discriminate. Qed.

Lemma Merge_collect_sizes vbs vbs2 :
  (Merge_collect vbs vbs2).1 = foldl Merge_sizes ∅ (vbs ++ vbs2).
Proof. unfold Merge_collect. rewrite Merge_foldl_split. reflexivity. Qed.

Lemma Merge_collect_hard vbs vbs2 :
  (Merge_collect vbs vbs2).2
  = (filter (fun vb => RequireSchedule vb = false) vbs
     ++ filter (fun vb => RequireSchedule vb = false) vbs2)%list.
Proof.
  unfold Merge_collect. rewrite Merge_foldl_split. simpl.
  apply filter_app.
Qed.

Lemma Merge_soft_elem vbs vbs2 soft hard err vb :
  Merge vbs vbs2 soft hard err ->
  vb ∈ soft
  <-> (Merge_collect vbs vbs2).1 !! key_of vb = Some (SizeInBytes vb)
      /\ 0 <= SizeInBytes vb.
Proof.
  intros [order Hord]. rewrite Merge_emit_omap, list_elem_of_omap. split.
  - intros ([[[src dst] flags] z] & Hin & He).
    rewrite Hord in Hin. apply elem_of_map_to_list in Hin.
    unfold Merge_entry in He; simpl in He.
    destruct (Z.ltb_spec z 0); [discriminate|]. injection He as <-.
    split; [exact Hin | assumption].
  - intros [Hm Hz]. exists (key_of vb, SizeInBytes vb). split.
    + rewrite Hord. apply elem_of_map_to_list. exact Hm.
    + unfold Merge_entry; simpl.
      destruct (Z.ltb_spec (SizeInBytes vb) 0); [lia|].
      destruct vb; reflexivity.
Qed.

Lemma RequireSchedule_key vb1 vb2 :
  key_of vb1 = key_of vb2 -> RequireSchedule vb1 = RequireSchedule vb2.
Proof. unfold key_of, RequireSchedule. intros [= -> _ ->]. reflexivity. Qed.

Lemma Merge_entry_keys order :
  sublist (map key_of (omap Merge_entry order)) (order.*1).
Proof.
  induction order as [|[[[src dst] flags] z] order IH]; [constructor|].
  rewrite omap_cons_eq. unfold Merge_entry at 1. simpl.
  destruct (z <? 0); simpl.
  - apply sublist_cons, IH.
  - apply sublist_skip, IH.
Qed.

(** X8: the soft result of Merge has at most one binding for each key
    (source, destination, flags), every one of them requires schedule and
    none has a negative size. *)
Theorem Merge_soft_shape (vbs vbs2 soft hard : VolumeBindings)
    (err : option error) :
  Merge vbs vbs2 soft hard err ->
  NoDup (map key_of soft)
  /\ Forall (fun vb => RequireSchedule vb = true /\ 0 <= SizeInBytes vb) soft.
Proof.
  intros HM. split.
  - destruct HM as [order Hord]. rewrite Merge_emit_omap.
    apply (sublist_NoDup _ (order.*1)); [|apply Merge_entry_keys].
    rewrite Hord. apply NoDup_fst_map_to_list.
  - apply Forall_forall. intros vb Hvb.
    apply (Merge_soft_elem _ _ _ _ _ _ HM) in Hvb as [Hm Hz].
    split; [|assumption].
    rewrite Merge_collect_sizes, Merge_sizes_lookup, lookup_empty in Hm.
    apply merge_sum_is_Some in Hm; [|reflexivity].
    destruct (filter _ (vbs ++ vbs2)%list) as [|vb0 l] eqn:Hf;
      [contradiction|].
    assert (Hin : vb0 ∈ filter
              (fun vb' => RequireSchedule vb' = true /\ key_of vb' = key_of vb)
              (vbs ++ vbs2)%list) by (rewrite Hf; left).
    apply list_elem_of_filter in Hin as [[Hs Hk] _].
    rewrite <- (RequireSchedule_key _ _ Hk). exact Hs.
Qed.

Lemma Merge_soft_shape_witness :
  let a := [mkVolumeBinding "AUTO" "/data" "rw" 100;
            mkVolumeBinding "/host" "/mnt" "" 0] in
  let b := [mkVolumeBinding "AUTO" "/data" "rw" 20;
            mkVolumeBinding "AUTO" "/tmp" "rw" (-7)] in
  NoDup (map key_of (Merge_run a b).1.1)
  /\ Forall (fun vb => RequireSchedule vb = true /\ 0 <= SizeInBytes vb)
            (Merge_run a b).1.1.
Proof.
  intros a b.
  apply (Merge_soft_shape a b _ (Merge_run a b).1.2 (Merge_run a b).2).
  apply Merge_run_Merge.
Defined.

(** X9: the soft result of Merge adds up sizes by key. For bindings whose
    sizes are int64 values, a binding is in the soft result exactly when
    some given binding that requires schedule has its key, its size is the
    wrapped sum of the sizes of all given scheduled bindings of that key,
    and that sum is not negative. *)
Theorem Merge_soft_sums (vbs vbs2 soft hard : VolumeBindings)
    (err : option error) (vb : VolumeBinding) :
  Forall (fun vb => int64_range (SizeInBytes vb)) (vbs ++ vbs2) ->
  Merge vbs vbs2 soft hard err ->
  vb ∈ soft
  <-> (exists vb0, vb0 ∈ (vbs ++ vbs2)%list
         /\ RequireSchedule vb0 = true /\ key_of vb0 = key_of vb)
      /\ SizeInBytes vb = wrap64 (scheduled_size (key_of vb) (vbs ++ vbs2))
      /\ 0 <= SizeInBytes vb.
Proof.
  intros Hr HM. rewrite (Merge_soft_elem _ _ _ _ _ _ HM).
  rewrite Merge_collect_sizes, Merge_sizes_lookup, lookup_empty.
  unfold scheduled_size.
  set (l := filter _ (vbs ++ vbs2)%list).
  assert (Hl : Forall int64_range (map SizeInBytes l)).
  { apply Forall_fmap. apply Forall_forall. intros x Hx.
    apply list_elem_of_filter in Hx as [_ Hx].
    rewrite Forall_forall in Hr. apply Hr, Hx. }
  rewrite merge_sum_None by exact Hl.
  destruct l as [|vb0 l'] eqn:Hf; simpl.
  - split; [intros [[=] _]|].
    intros ((vb0 & Hin & Hs & Hk) & _). exfalso.
    eapply (filter_nil_not_elem_of _ _ vb0); [exact Hf| |exact Hin].
    split; assumption.
  - assert (Hin : vb0 ∈ l) by (rewrite Hf; left).
    apply list_elem_of_filter in Hin as [[Hs Hk] Hin].
    split.
    + intros [[= <-] Hz]. split_and!; eauto.
    + intros (_ & -> & Hz). split; [reflexivity | assumption].
Qed.

Lemma Merge_soft_sums_witness :
  let a := [mkVolumeBinding "AUTO" "/data" "rw" 100;
            mkVolumeBinding "/host" "/mnt" "" 0] in
  let b := [mkVolumeBinding "AUTO" "/data" "rw" 20;
            mkVolumeBinding "AUTO" "/tmp" "rw" (-7)] in
  let vb := mkVolumeBinding "AUTO" "/data" "rw" 120 in
  vb ∈ (Merge_run a b).1.1
  <-> (exists vb0, vb0 ∈ (a ++ b)%list
         /\ RequireSchedule vb0 = true /\ key_of vb0 = key_of vb)
      /\ SizeInBytes vb = wrap64 (scheduled_size (key_of vb) (a ++ b))
      /\ 0 <= SizeInBytes vb.
Proof.
  intros a b vb.
  apply (Merge_soft_sums a b _ (Merge_run a b).1.2 (Merge_run a b).2).
  - repeat constructor; vm_compute; intros [=].
  - apply Merge_run_Merge.
Defined.

Lemma hard_size_filter l :
  hard_size (filter (fun vb => RequireSchedule vb = false) l) = hard_size l.
Proof.
  induction l as [|vb l IH]; [reflexivity|].
  rewrite filter_cons, (hard_size_cons vb l).
  destruct (RequireSchedule vb) eqn:Hs; simpl; [exact IH|].
  rewrite hard_size_cons, Hs, IH. reflexivity.
Qed.

Lemma hard_size_scheduled l :
  Forall (fun vb => RequireSchedule vb = true) l -> hard_size l = 0.
Proof.
  induction 1 as [|vb l Hs _ IH]; [reflexivity|].
  rewrite hard_size_cons, Hs. exact IH.
Qed.

(** X10: the hard result of Merge is the bindings of the receiver that do
    not require schedule followed by those of the argument, in their
    order and with repetitions; the error is always nil; and merging
    keeps the additional storage: that of the hard result is that of the
    two lists appended, and the soft result has none. *)
Theorem Merge_hard_and_storage (vbs vbs2 soft hard : VolumeBindings)
    (err : option error) :
  Merge vbs vbs2 soft hard err ->
  hard = (filter (fun vb => RequireSchedule vb = false) vbs
          ++ filter (fun vb => RequireSchedule vb = false) vbs2)%list
  /\ err = None
  /\ AdditionalStorage hard = AdditionalStorage (vbs ++ vbs2)
  /\ AdditionalStorage soft = 0.
Proof.
  intros HM.
  assert (Hsoft : Forall (fun vb => RequireSchedule vb = true) soft).
  { apply Forall_forall. intros vb Hvb.
    apply (Merge_soft_elem _ _ _ _ _ _ HM) in Hvb as [Hm _].
    rewrite Merge_collect_sizes, Merge_sizes_lookup, lookup_empty in Hm.
    apply merge_sum_is_Some in Hm; [|reflexivity].
    destruct (filter _ (vbs ++ vbs2)%list) as [|vb0 l] eqn:Hf;
      [contradiction|].
    assert (Hin : vb0 ∈ filter
              (fun vb' => RequireSchedule vb' = true /\ key_of vb' = key_of vb)
              (vbs ++ vbs2)%list) by (rewrite Hf; left).
    apply list_elem_of_filter in Hin as [[Hs Hk] _].
    rewrite <- (RequireSchedule_key _ _ Hk). exact Hs. }
  destruct HM as [order Hord].
  rewrite Merge_collect_hard, <- filter_app.
  split_and!; try reflexivity.
  - rewrite !AdditionalStorage_hard_size, hard_size_filter. reflexivity.
  - rewrite AdditionalStorage_hard_size, hard_size_scheduled by exact Hsoft.
    reflexivity.
Qed.

Lemma Merge_hard_and_storage_witness :
  let a := [mkVolumeBinding "AUTO" "/data" "rw" 100;
            mkVolumeBinding "/host" "/mnt" "" 5] in
  let b := [mkVolumeBinding "/host" "/mnt" "" 5;
            mkVolumeBinding "AUTO" "/tmp" "rw" (-7)] in
  (Merge_run a b).1.2
  = (filter (fun vb => RequireSchedule vb = false) a
     ++ filter (fun vb => RequireSchedule vb = false) b)%list
  /\ (Merge_run a b).2 = None
  /\ AdditionalStorage (Merge_run a b).1.2 = AdditionalStorage (a ++ b)
  /\ AdditionalStorage (Merge_run a b).1.1 = 0.
Proof.
  intros a b.
  apply (Merge_hard_and_storage a b _ _ _ (Merge_run_Merge a b)).
Defined.

(* --------------------------------------------------------------------- *)
(* ApplyPlan: what it keeps                                              *)
(* --------------------------------------------------------------------- *)

(** X11: ApplyPlan keeps the number and order of the bindings and the
    destination, flags and size of every one of them, whatever the plan
    holds; and it works binding by binding: applying a plan to an appended
    list gives the two applied lists appended. *)
Theorem ApplyPlan_keeps_fields (vbs vbs2 : VolumeBindings)
    (plan : VolumePlan) :
  map Destination (ApplyPlan vbs plan) = map Destination vbs
  /\ map Flags (ApplyPlan vbs plan) = map Flags vbs
  /\ map SizeInBytes (ApplyPlan vbs plan) = map SizeInBytes vbs
  /\ ApplyPlan (vbs ++ vbs2) plan
     = (ApplyPlan vbs plan ++ ApplyPlan vbs2 plan)%list.
Proof.
  rewrite !ApplyPlan_map, !map_map. split_and!.
  - apply map_ext. intros vb. unfold ApplyPlan_binding.
    destruct (GetVolumeMap plan vb); reflexivity.
  - apply map_ext. intros vb. unfold ApplyPlan_binding.
    destruct (GetVolumeMap plan vb); reflexivity.
  - apply map_ext. intros vb. unfold ApplyPlan_binding.
    destruct (GetVolumeMap plan vb); reflexivity.
  - apply map_app.
Qed.
(* --------------------------------------------------------------------- *)
(* IsEqual: the sorted string slices                                     *)
(* --------------------------------------------------------------------- *)

Lemma string_le_trans s1 : forall s2 s3,
  string_le s1 s2 -> string_le s2 s3 -> string_le s1 s3.
Proof.
  unfold string_le, String.leb.
  induction s1 as [|c1 s1 IH]; intros [|c2 s2] [|c3 s3]; simpl;
    try congruence.
  unfold Ascii.compare.
  destruct (N.compare_spec (N_of_ascii c1) (N_of_ascii c2)) as [H12|H12|H12];
    destruct (N.compare_spec (N_of_ascii c2) (N_of_ascii c3)) as [H23|H23|H23];
    destruct (N.compare_spec (N_of_ascii c1) (N_of_ascii c3)) as [H13|H13|H13];
    try congruence; try (exfalso; lia).
  apply IH.
Qed.

Lemma string_le_antisym s1 s2 : string_le s1 s2 -> string_le s2 s1 -> s1 = s2.
Proof. unfold string_le. intros H1 H2. apply String.leb_antisym; assumption. Qed.

Lemma ltb_string_le s1 s2 : String.ltb s1 s2 = true -> string_le s1 s2.
Proof.
  unfold String.ltb, string_le, String.leb.
  destruct (String.compare s1 s2); congruence.
Qed.

Lemma not_ltb_string_le s1 s2 : String.ltb s1 s2 = false -> string_le s2 s1.
Proof.
  unfold String.ltb, string_le, String.leb.
  rewrite (String.compare_antisym s1 s2).
  destruct (String.compare s2 s1); simpl; congruence.
Qed.

Lemma insert_sorted_Permutation vb vbs : insert_sorted vb vbs ≡ₚ vb :: vbs.
Proof.
  induction vbs as [|vb' vbs IH]; simpl; [reflexivity|].
  destruct (String.ltb _ _); [|reflexivity].
  rewrite IH. apply perm_swap.
Qed.

Lemma sort_bindings_Permutation vbs : sort_bindings vbs ≡ₚ vbs.
Proof.
  induction vbs as [|vb vbs IH]; simpl; [reflexivity|].
  rewrite insert_sorted_Permutation, IH. reflexivity.
Qed.

Lemma insert_sorted_HdRel a vb vbs :
  HdRel binding_le a vbs -> binding_le a vb ->
  HdRel binding_le a (insert_sorted vb vbs).
Proof.
  destruct vbs as [|vb' vbs]; simpl; intros Hhd Ha.
  - constructor. exact Ha.
  - destruct (String.ltb _ _); constructor; [|exact Ha].
    inversion Hhd; assumption.
Qed.

Lemma insert_sorted_Sorted vb vbs :
  Sorted binding_le vbs -> Sorted binding_le (insert_sorted vb vbs).
Proof.
  induction 1 as [|vb' vbs Hs IH Hhd]; simpl.
  - repeat constructor.
  - destruct (String.ltb _ _) eqn:Hlt.
    + constructor; [exact IH|].
      apply insert_sorted_HdRel; [exact Hhd|].
      apply ltb_string_le, Hlt.
    + constructor; [constructor; assumption|].
      constructor. apply not_ltb_string_le, Hlt.
Qed.

Lemma sort_bindings_Sorted vbs : Sorted binding_le (sort_bindings vbs).
Proof.
  induction vbs as [|vb vbs IH]; simpl; [constructor|].
  apply insert_sorted_Sorted, IH.
Qed.

Lemma sorted_strings_unique (l1 l2 : list string) :
  Sorted string_le l1 -> Sorted string_le l2 -> l1 ≡ₚ l2 -> l1 = l2.
Proof.
  apply (@Sorted_unique _ string_le).
  - intros s1 s2 s3. apply string_le_trans.
  - intros s1 s2. apply string_le_antisym.
Qed.

Lemma sort_bindings_strings vbs :
  Sorted string_le (map (fun vb => ToString vb false) (sort_bindings vbs)).
Proof.
  apply (Sorted_fmap (fun vb => ToString vb false) binding_le string_le).
  - intros vb1 vb2 H. exact H.
  - apply sort_bindings_Sorted.
Qed.

Lemma IsEqual_strings vbs vbs2 :
  IsEqual vbs vbs2 = true
  <-> map (fun vb => ToString vb false) vbs
      ≡ₚ map (fun vb => ToString vb false) vbs2.
Proof.
  unfold IsEqual. rewrite bool_decide_eq_true, !ToStringSlice_sorted.
  pose proof (sort_bindings_Permutation vbs) as H1.
  pose proof (sort_bindings_Permutation vbs2) as H2.
  split.
  - intros Heq.
    rewrite <- H1, <- H2. change map with (@fmap list _) in *.
    rewrite Heq. reflexivity.
  - intros Hperm. apply sorted_strings_unique;
      try apply sort_bindings_strings.
    change map with (@fmap list _) in *. rewrite H1, H2. exact Hperm.
Qed.

(** X12: IsEqual compares the two lists as multisets of strings: it is
    true exactly when the strings of the one list (not normalized) are a
    permutation of the strings of the other. The order of the bindings
    never matters, the number of repetitions does. *)
Theorem IsEqual_iff_same_strings (vbs vbs2 : VolumeBindings) :
  IsEqual vbs vbs2 = true
  <-> map (fun vb => ToString vb false) vbs
      ≡ₚ map (fun vb => ToString vb false) vbs2.
Proof. apply IsEqual_strings. Qed.

Lemma parsed_omap vbs :
  Forall (fun vb => NewVolumeBinding (ToString vb false) = (Some vb, None))
         vbs ->
  omap (fun s => (NewVolumeBinding s).1)
       (map (fun vb => ToString vb false) vbs) = vbs.
Proof.
  induction 1 as [|vb vbs Hvb _ IH]; [reflexivity|].
  cbn [map]. rewrite omap_cons_eq, Hvb, IH. reflexivity.
Qed.

(** X13: for bindings that were parsed from strings, IsEqual is equality
    up to order: two lists MakeVolumeBindings returned are IsEqual exactly
    when one is a permutation of the other. *)
Theorem IsEqual_parsed (volumes volumes2 : list string)
    (vbs vbs2 : VolumeBindings) :
  MakeVolumeBindings volumes = (vbs, None) ->
  MakeVolumeBindings volumes2 = (vbs2, None) ->
  IsEqual vbs vbs2 = true <-> vbs ≡ₚ vbs2.
Proof.
  unfold MakeVolumeBindings. intros H1 H2.
  apply MakeVolumeBindings_from_ok in H1 as (new1 & -> & HF1).
  apply MakeVolumeBindings_from_ok in H2 as (new2 & -> & HF2).
  simpl. apply parsed_reparse in HF1, HF2.
  rewrite IsEqual_strings. split.
  - intros Hperm.
    rewrite <- (parsed_omap new1 HF1), <- (parsed_omap new2 HF2).
    apply omap_Permutation, Hperm.
  - intros Hperm. change map with (@fmap list _). rewrite Hperm. reflexivity.
Qed.

Lemma IsEqual_parsed_witness :
  let vbs := [mkVolumeBinding "AUTO" "/data" "" 42;
              mkVolumeBinding "/host" "/mnt" "ro" 0] in
  let vbs2 := [mkVolumeBinding "/host" "/mnt" "ro" 0;
               mkVolumeBinding "AUTO" "/data" "" 42] in
  IsEqual vbs vbs2 = true <-> vbs ≡ₚ vbs2.
Proof.
  intros vbs vbs2.
  apply (IsEqual_parsed ["AUTO:/data::+042"; "/host:/mnt:ro:0"]
                        ["/host:/mnt:ro"; "AUTO:/data::42"]);
    vm_compute; reflexivity.
Defined.
(* ===================================================================== *)
(* The calls of a launch                                                 *)
(* ===================================================================== *)

Section LaunchCalls.

Context {W : Type} (ext : Externals W).

Lemma does_ret {A} (a : A) (Q : A -> list Call -> Prop) :
  Q a [] -> does (W := W) (ret a) Q.
Proof. intros HQ s. exists a, s, []. rewrite app_nil_r. auto. Qed.

Lemma does_bind {A B} (m : M W A) (k : A -> M W B)
    (P : A -> list Call -> Prop) (Q : B -> list Call -> Prop) :
  does m P ->
  (forall a cs1, P a cs1 -> does (k a) (fun b cs2 => Q b (cs1 ++ cs2)%list)) ->
  does (bind m k) Q.
Proof.
  intros Hm Hk s. destruct (Hm s) as (a & s1 & cs1 & Hrun & Hcs1 & HP).
  destruct (Hk a cs1 HP s1) as (b & s2 & cs2 & Hrun2 & Hcs2 & HQ).
  exists b, s2, (cs1 ++ cs2)%list. unfold bind. rewrite Hrun.
  split; [exact Hrun2|]. split; [|exact HQ].
  rewrite Hcs2, Hcs1, app_assoc. reflexivity.
Qed.

Lemma does_call {A} (c : Call) (op : W -> A * W)
    (Q : A -> list Call -> Prop) :
  (forall w, Q (op w).1 [c]) -> does (call c op) Q.
Proof.
  intros HQ s. rewrite call_Some.
  eexists _, _, [c]. split; [reflexivity|]. split; [reflexivity | apply HQ].
Qed.

Lemma does_call_eq {A} (c : Call) (op : W -> A * W) :
  does (call c op) (fun _ cs => cs = [c]).
Proof. apply does_call. reflexivity. Qed.

Lemma does_mono {A} (m : M W A) (P Q : A -> list Call -> Prop) :
  does m P -> (forall a cs, P a cs -> Q a cs) -> does m Q.
Proof.
  intros Hm HPQ s. destruct (Hm s) as (a & s1 & cs & Hrun & Hcs & HP).
  exists a, s1, cs. auto.
Qed.

Lemma does_and {A} (m : M W A) (P Q : A -> list Call -> Prop) :
  does m P -> does m Q -> does m (fun a cs => P a cs /\ Q a cs).
Proof.
  intros HP HQ s. destruct (HP s) as (a & s1 & cs & Hrun & Hcs & Hp).
  destruct (HQ s) as (a' & s1' & cs' & Hrun' & Hcs' & Hq).
  rewrite Hrun in Hrun'. injection Hrun' as <- <-.
  rewrite Hcs in Hcs'. apply app_inv_head in Hcs' as <-.
  exists a, s1, cs. auto.
Qed.

Lemma does_triple {A} (m : M W A) (P : A -> list Call -> Prop)
    (Q : A -> Prop) :
  does m P -> triple m Q -> does m (fun a cs => P a cs /\ Q a).
Proof.
  intros HP HQ s. destruct (HP s) as (a & s1 & cs & Hrun & Hcs & Hp).
  specialize (HQ s). unfold wp in HQ. rewrite Hrun in HQ.
  destruct HQ as [Hq _]. exists a, s1, cs. auto.
Qed.

Lemma does_Txn {L} (try then_ rb : L -> M W (L * option error)) (v : L)
    (P1 P2 Q : L * option error -> list Call -> Prop) :
  does (try v) P1 ->
  (forall v1 cs1, P1 (v1, None) cs1 ->
     does (then_ v1) (fun r cs2 => P2 r (cs1 ++ cs2)%list)) ->
  (forall v1 e cs1, P1 (v1, Some e) cs1 ->
     does (rb v1) (fun r cs2 => Q (r.1, Some e) (cs1 ++ cs2)%list)) ->
  (forall v2 e cs, P2 (v2, Some e) cs ->
     does (rb v2) (fun r cs2 => Q (r.1, Some e) (cs ++ cs2)%list)) ->
  (forall v2 cs, P2 (v2, None) cs -> Q (v2, None) cs) ->
  does (Txn try then_ (Some rb) v) Q.
Proof.
  intros Htry Hthen Hrb1 Hrb2 HQ. unfold Txn.
  eapply does_bind; [exact Htry|].
  intros [v1 [e|]] cs1 H1.
  - eapply does_bind; [apply (Hrb1 _ _ _ H1)|].
    intros [v' r'] cs2 HQ'. apply does_ret. rewrite app_nil_r. exact HQ'.
  - eapply does_bind; [apply (Hthen _ _ H1)|].
    intros [v2 [e|]] cs2 H2.
    + eapply does_bind; [apply (Hrb2 _ _ _ H2)|].
      intros [v' r'] cs3 HQ'. apply does_ret.
      rewrite app_nil_r, app_assoc. exact HQ'.
    + apply does_ret. rewrite app_nil_r. apply HQ. exact H2.
Qed.

(* --------------------------------------------------------------------- *)
(* doCreateAndStartContainer: the calls by outcome                       *)
(* --------------------------------------------------------------------- *)

Lemma doMakeContainerOptions_does index cpumap volumePlan opts node :
  does (doMakeContainerOptions ext index cpumap volumePlan opts node)
       (fun _ cs => cs = [CallRandomString 6]).
Proof.
  intros s.
  destruct (doMakeContainerOptions_Some ext index cpumap volumePlan opts node s)
    as (config & s' & Hrun & Hcs & _).
  exists config, s', [CallRandomString 6]. auto.
Qed.

Lemma copy_data_does engine ID data :
  does (copy_data ext engine ID data)
       (fun _ cs => Forall (fun c => is_copy_call ID c = true) cs).
Proof.
  induction data as [|[dst readerManager] data IH]; simpl.
  - apply does_ret. constructor.
  - eapply does_bind; [apply does_call_eq|].
    intros [err|reader] cs1 ->; [apply does_ret; repeat constructor|].
    eapply does_bind; [apply does_call_eq|].
    intros [err|] cs2 ->.
    + apply does_ret. repeat constructor. simpl. apply String.eqb_refl.
    + eapply does_mono; [exact IH|]. intros r cs Hcs. simpl.
      repeat constructor; [apply String.eqb_refl | exact Hcs].
Qed.

Lemma doCreateAndStartContainer_try_does no node opts cpu volumePlan v :
  untouched v ->
  Container.ID (launch.container v) = "" ->
  does (doCreateAndStartContainer_try ext no node opts cpu volumePlan v)
       (tried (Node.Engine node)).
Proof.
  intros [Hid Herr] HID. unfold doCreateAndStartContainer_try.
  eapply does_bind; [apply doMakeContainerOptions_does|].
  intros config cs0 ->. cbv zeta.
  eapply does_bind; [apply does_call_eq|].
  intros [err|containerCreated] cs1 ->.
  { apply does_ret. split; [split; assumption|].
    exists (VirtualizationCreateOptions.Name config), []. split; [constructor|].
    left. simpl. auto. }
  eapply does_bind.
  { instantiate (1 := fun _ cs =>
      Forall (fun c => is_copy_call (VirtualizationCreated.ID containerCreated)
                                    c = true) cs).
    destruct (0 <? length (DeployOptions.Data opts))%nat;
      [apply copy_data_does | apply does_ret; constructor]. }
  intros [dataErr|] copy Hcopy.
  { apply does_ret. split; [split; assumption|].
    exists (VirtualizationCreateOptions.Name config), copy.
    split; [exact Hcopy|]. right. left. simpl. rewrite app_nil_r. auto. }
  set (container := match Container.Hook _ with Some _ => _ | None => _ end).
  assert (Hcid : Container.ID container
                  = VirtualizationCreated.ID containerCreated).
  { subst container. simpl.
    destruct (Container.Hook (launch.container v)); [|reflexivity].
    destruct (0 <? length (DeployOptions.AfterCreate opts))%nat; reflexivity. }
  eapply does_bind; [apply does_call_eq|].
  intros [hook [err|]] cs2 ->.
  { apply does_ret. split; [split; assumption|].
    exists (VirtualizationCreateOptions.Name config), copy. simpl.
    rewrite Hcid. split; [exact Hcopy|]. right. right.
    split; [reflexivity|]. eexists. split; [left; reflexivity|].
    rewrite ?app_nil_r. reflexivity. }
  eapply does_bind; [apply does_call_eq|].
  intros [err|containerInfo] cs3 ->.
  { apply does_ret. split; [split; assumption|].
    exists (VirtualizationCreateOptions.Name config), copy. simpl.
    rewrite Hcid. split; [exact Hcopy|]. right. right.
    split; [reflexivity|]. eexists. split; [right; reflexivity|].
    rewrite ?app_nil_r. reflexivity. }
  apply does_ret. split.
  { destruct (VirtualizationInfo.Networks containerInfo); split; assumption. }
  exists (VirtualizationCreateOptions.Name config), copy.
  assert (Hcid' : forall c,
            Container.ID c = VirtualizationCreated.ID containerCreated ->
            Container.ID
              (Container.set_Hook
                 (if negb (String.eqb (VirtualizationInfo.User containerInfo)
                                      (Container.User c))
                  then Container.set_User c
                         (VirtualizationInfo.User containerInfo)
                  else c)
                 (Entrypoint.Hook (DeployOptions.Entrypoint opts)))
            = VirtualizationCreated.ID containerCreated).
  { intros c Hc. simpl. destruct (negb _); exact Hc. }
  cbn [fst snd launch.container]. rewrite (Hcid' container Hcid).
  split; [exact Hcopy|]. split; [reflexivity|].
  rewrite Hcid, ?app_nil_r. reflexivity.
Qed.

Lemma doCreateAndStartContainer_then_does v :
  untouched v ->
  does (doCreateAndStartContainer_then ext v)
       (fun r cs =>
          cs = [CallAddContainer (Container.ID (launch.container v))]
          /\ Container.ID (launch.container r.1)
             = Container.ID (launch.container v)
          /\ match r.2 with
             | Some e => untouched r.1 /\ launch.err r.1 = Some e
             | None =>
                 CreateContainerMessage.Error
                   (launch.createContainerMessage r.1) = None
                 /\ CreateContainerMessage.ContainerID
                      (launch.createContainerMessage r.1)
                    = Container.ID (launch.container v)
             end).
Proof.
  intros [Hid Herr]. unfold doCreateAndStartContainer_then.
  eapply does_bind; [apply does_call_eq|].
  intros [e|] cs ->; apply does_ret; simpl; split_and!; auto.
  split; assumption.
Qed.

Lemma doCreateAndStartContainer_rollback_does v :
  untouched v ->
  does (doCreateAndStartContainer_rollback ext v)
       (fun r cs =>
          CreateContainerMessage.ContainerID
            (launch.createContainerMessage r.1) = ""
          /\ CreateContainerMessage.Error (launch.createContainerMessage r.1)
             = launch.err v
          /\ cs = match launch.err v with
                  | Some _ =>
                      if String.eqb (Container.ID (launch.container v)) ""
                      then []
                      else [CallRemoveContainer
                              (Container.ID (launch.container v))]
                  | None => []
                  end).
Proof.
  intros [Hid Herr]. unfold doCreateAndStartContainer_rollback. simpl.
  destruct (launch.err v) as [err|]; [|apply does_ret; auto].
  destruct (String.eqb (Container.ID (launch.container v)) ""); simpl;
    [apply does_ret; auto|].
  eapply does_bind; [apply does_call_eq|].
  intros [removeErr|] cs ->; apply does_ret; simpl; auto.
Qed.

Lemma launch_calls_eq engine m cs cs' :
  launch_calls engine m cs -> cs = cs' -> launch_calls engine m cs'.
Proof. intros H <-. exact H. Qed.

(** Whatever the cluster answers, doCreateAndStartContainer returns, and
    its message and its calls go one of the four ways of [launch_calls]. *)
Lemma doCreateAndStartContainer_protocol no node opts cpu volumePlan :
  does (doCreateAndStartContainer ext no node opts cpu volumePlan)
       (launch_calls (Node.Engine node)).
Proof.
  unfold doCreateAndStartContainer.
  eapply does_bind.
  - eapply (does_Txn _ _ _ _ (tried (Node.Engine node))
              (added (Node.Engine node))
              (fun r cs =>
                 launch_calls (Node.Engine node)
                              (launch.createContainerMessage r.1) cs)).
    + apply doCreateAndStartContainer_try_does; [split|]; reflexivity.
    + intros v1 cs1 (Hu & name & copy & Hcopy & Herr & ->).
      eapply does_mono;
        [apply doCreateAndStartContainer_then_does; exact Hu|].
      intros [v2 r] cs2 (-> & HID & Hr). simpl in *.
      unfold added. exists name, copy. cbn [fst snd]. rewrite HID.
      split; [exact Hcopy|].
      split; [rewrite <- !app_assoc; reflexivity|]. exact Hr.
    + intros v1 e cs1 (Hu & name & copy & Hcopy & Hcase).
      eapply does_mono;
        [apply doCreateAndStartContainer_rollback_does; exact Hu|].
      intros [v' r'] cs2 (Hid & Herr & ->). simpl in *.
      destruct Hcase as [(He & HID & ->)|[(He & ->)|(He & after & Hafter & ->)]];
        rewrite He in *.
      * rewrite HID. simpl. eapply launch_not_created; eassumption.
      * rewrite app_nil_r.
        eapply launch_calls_eq; [|reflexivity].
        eapply (launch_not_copied _ _ name _ copy); eassumption.
      * eapply launch_calls_eq.
        -- eapply (launch_failed _ _ name _ copy after e); try eassumption.
           destruct Hafter as [->| ->]; auto.
        -- simpl. rewrite <- ?app_assoc. reflexivity.
    + intros v2 e cs (name & copy & Hcopy & -> & Hu & He).
      eapply does_mono;
        [apply doCreateAndStartContainer_rollback_does; exact Hu|].
      intros [v' r'] cs2 (Hid & Herr & ->). simpl in *. rewrite He in *.
      eapply launch_calls_eq.
      * eapply (launch_failed _ _ name _ copy _ e); try eassumption. auto.
      * simpl. rewrite <- ?app_assoc. reflexivity.
    + intros v2 cs (name & copy & Hcopy & -> & Herr & Hid). simpl in *.
      rewrite <- Hid in *.
      eapply launch_calls_eq; [|reflexivity].
      eapply (launch_stored _ _ name copy); assumption.
  - intros [v r] cs Hq. apply does_ret. rewrite app_nil_r. exact Hq.
Qed.

Lemma copy_call_kinds ID copy :
  Forall (fun c => is_copy_call ID c = true) copy ->
  Forall (fun c => is_removal_call c = false) copy
  /\ Forall (fun c => is_node_call c = false) copy
  /\ forall ID', CallStartContainer ID' ∉ copy.
Proof.
  intros Hcopy. split_and!.
  - eapply Forall_impl; [exact Hcopy|]. intros [] H; simpl in *; congruence.
  - eapply Forall_impl; [exact Hcopy|]. intros [] H; simpl in *; congruence.
  - intros ID' Hin. rewrite Forall_forall in Hcopy.
    specialize (Hcopy _ Hin). discriminate.
Qed.

Lemma launch_calls_kinds engine m cs :
  launch_calls engine m cs ->
  Forall (fun c => is_node_call c = false) cs
  /\ (CreateContainerMessage.Error m <> None ->
      CreateContainerMessage.ContainerID m = "").
Proof.
  intros H.
  inversion H as [name e He Hid|name ID copy Hcopy He Hid
                 |name ID copy after e Hcopy Hafter He Hid
                 |name copy Hcopy He]; subst;
    try (destruct (copy_call_kinds _ _ Hcopy) as (_ & Hnode & _)).
  - split; [repeat constructor | auto].
  - split; [|auto]. repeat constructor. exact Hnode.
  - split; [|auto]. apply Forall_app. split; [repeat constructor|].
    apply Forall_app. split; [exact Hnode|].
    apply Forall_app. split.
    + destruct Hafter as [->|[->| ->]]; repeat constructor.
    + destruct (String.eqb ID ""); repeat constructor.
  - split; [|congruence]. apply Forall_app. split; [repeat constructor|].
    apply Forall_app. split; [exact Hnode | repeat constructor].
Qed.

(** X14: a message doCreateAndStartContainer returns with an Error has an
    empty ContainerID. A message with a ContainerID has no Error; the
    container with that ID was started, inspected and, as the last call,
    stored with AddContainer; and no removal was called. The function
    returns whatever the cluster answers. *)
Theorem doCreateAndStartContainer_stored no node opts cpu volumePlan :
  does (doCreateAndStartContainer ext no node opts cpu volumePlan)
       (fun m cs =>
          (CreateContainerMessage.Error m <> None ->
           CreateContainerMessage.ContainerID m = "")
          /\ (CreateContainerMessage.ContainerID m <> "" ->
              CreateContainerMessage.Error m = None
              /\ (exists before,
                    cs = (before
                          ++ [CallStartContainer
                                (CreateContainerMessage.ContainerID m);
                              CallInspect
                                (CreateContainerMessage.ContainerID m);
                              CallAddContainer
                                (CreateContainerMessage.ContainerID m)])%list)
              /\ Forall (fun c => is_removal_call c = false) cs)).
Proof.
  eapply does_mono; [apply doCreateAndStartContainer_protocol|].
  intros m cs H. split; [apply (launch_calls_kinds _ _ _ H)|].
  intros Hid.
  inversion H as [name e He Hid'|name ID copy Hcopy He Hid'
                 |name ID copy after e Hcopy Hafter He Hid'
                 |name copy Hcopy He]; subst; try contradiction.
  destruct (copy_call_kinds _ _ Hcopy) as (Hrem & _ & _).
  split; [assumption|]. split.
  - eexists. rewrite app_assoc. reflexivity.
  - apply Forall_app. split; [repeat constructor|].
    apply Forall_app. split; [exact Hrem | repeat constructor].
Qed.

(** X15: doCreateAndStartContainer removes a container only after a
    failure and only once: a removal is its last call, is for a container
    with an ID that it had started, and comes with an Error in the
    message; and whenever it has started a container with an ID and the
    message has an Error, it has called the removal of that container. *)
Theorem doCreateAndStartContainer_removal no node opts cpu volumePlan :
  does (doCreateAndStartContainer ext no node opts cpu volumePlan)
       (fun m cs =>
          (forall ID, CallRemoveContainer ID ∈ cs ->
             CreateContainerMessage.Error m <> None
             /\ ID <> ""
             /\ exists before,
                  cs = (before ++ [CallRemoveContainer ID])%list
                  /\ Forall (fun c => is_removal_call c = false) before
                  /\ CallStartContainer ID ∈ before)
          /\ (forall ID, CallStartContainer ID ∈ cs -> ID <> "" ->
                CreateContainerMessage.Error m <> None ->
                CallRemoveContainer ID ∈ cs)).
Proof.
  eapply does_mono; [apply doCreateAndStartContainer_protocol|].
  intros m cs H.
  inversion H as [name e He Hid'|name ID0 copy Hcopy He Hid'
                 |name ID0 copy after e Hcopy Hafter He Hid'
                 |name copy Hcopy He]; subst;
    try (destruct (copy_call_kinds _ _ Hcopy) as (Hrem & _ & Hstart)).
  - split; intros ID Hin; exfalso;
      repeat (apply elem_of_cons in Hin as [Hin|Hin]; [discriminate|]);
      inversion Hin.
  - split.
    + intros ID Hin. exfalso.
      repeat (apply elem_of_cons in Hin as [Hin|Hin]; [discriminate|]).
      rewrite Forall_forall in Hrem. specialize (Hrem _ Hin). discriminate.
    + intros ID _ _ Herr. congruence.
  - assert (Hbefore : Forall (fun c => is_removal_call c = false)
                        ([CallRandomString 6;
                          CallVirtualizationCreate (Node.Engine node) name]
                           ++ copy ++ after)%list).
    { apply Forall_app. split; [repeat constructor|].
      apply Forall_app. split; [exact Hrem|].
      destruct Hafter as [->|[->| ->]]; repeat constructor. }
    assert (Hafter' : forall ID, CallStartContainer ID ∈ after <-> ID = ID0).
    { intros ID. destruct Hafter as [->|[->| ->]]; split;
        try (intros ->; left);
        intros Hin;
        repeat (apply elem_of_cons in Hin as [Hin|Hin];
                [congruence|]); inversion Hin. }
    rewrite !app_assoc, <- (app_assoc _ copy after). split.
    + intros ID [Hin|Hin]%elem_of_app.
      { rewrite Forall_forall in Hbefore. specialize (Hbefore _ Hin).
        discriminate. }
      destruct (String.eqb_spec ID0 "") as [|Hne]; [inversion Hin|].
      apply list_elem_of_singleton in Hin as [= ->].
      split; [congruence|]. split; [assumption|].
      eexists. split; [reflexivity|]. split; [exact Hbefore|].
      rewrite !elem_of_app. right. right. apply Hafter'. reflexivity.
    + intros ID Hin Hne _. rewrite !elem_of_app in Hin.
      assert (ID = ID0) as ->.
      { destruct Hin as [[Hin|[Hin|Hin]]|Hin].
        - repeat (apply elem_of_cons in Hin as [Hin|Hin]; [discriminate|]).
          inversion Hin.
        - destruct (Hstart _ Hin).
        - apply Hafter', Hin.
        - destruct (String.eqb ID0 ""); [inversion Hin|].
          apply list_elem_of_singleton in Hin. discriminate. }
      apply elem_of_app. right.
      destruct (String.eqb_spec ID0 "") as [|_]; [contradiction|]. left.
  - split.
    + intros ID Hin. exfalso. rewrite !elem_of_app in Hin.
      destruct Hin as [Hin|[Hin|Hin]].
      * repeat (apply elem_of_cons in Hin as [Hin|Hin]; [discriminate|]).
        inversion Hin.
      * rewrite Forall_forall in Hrem. specialize (Hrem _ Hin). discriminate.
      * repeat (apply elem_of_cons in Hin as [Hin|Hin]; [discriminate|]).
        inversion Hin.
    + intros ID _ _ Herr. congruence.
Qed.

(** X16: when the engine has created the container and the copy of
    [opts.Data] fails, doCreateAndStartContainer returns at once: it ends
    in the state the failed copy left, so the container is not started,
    not stored and not removed; and the message it returns has no Error
    and no ContainerID, because the error of the copy is held in a
    variable of the loop and not in the [err] the rollback reads. *)
Theorem doCreateAndStartContainer_copy_fails
    no node opts cpu volumePlan s config s1 created w2 e s3 :
  doMakeContainerOptions ext no cpu volumePlan opts node s
  = Some (config, s1) ->
  VirtualizationCreate ext (Node.Engine node) config (world s1)
  = (inr created, w2) ->
  DeployOptions.Data opts <> [] ->
  copy_data ext (Node.Engine node) (VirtualizationCreated.ID created)
    (DeployOptions.Data opts)
    (mkSys w2
       (calls s1
          ++ [CallVirtualizationCreate
                (Node.Engine node)
                (VirtualizationCreateOptions.Name config)])%list)
  = Some (Some e, s3) ->
  exists m,
    doCreateAndStartContainer ext no node opts cpu volumePlan s = Some (m, s3)
    /\ CreateContainerMessage.Error m = None
    /\ CreateContainerMessage.ContainerID m = "".
Proof.
  intros Hconfig Hcreate Hdata Hcopy.
  unfold doCreateAndStartContainer.
  eexists. erewrite bind_Some; cycle 1.
  { eapply Txn_try_fails.
    - unfold doCreateAndStartContainer_try.
      rewrite (bind_Some _ _ _ _ _ Hconfig). cbv zeta.
      erewrite bind_Some by apply call_Some.
      rewrite Hcreate. cbn [fst snd].
      destruct (DeployOptions.Data opts) as [|d data] eqn:Hd;
        [contradiction|].
      cbn [length Nat.ltb Nat.leb].
      cbn [Container.ID Container.set_ID].
      rewrite (bind_Some _ _ _ _ _ Hcopy). reflexivity.
    - unfold doCreateAndStartContainer_rollback. cbn [launch.err].
      reflexivity. }
  unfold ret. split; [reflexivity|]. split_and!; reflexivity.
Qed.

End LaunchCalls.

Lemma doCreateAndStartContainer_copy_fails_witness :
  exists m,
    doCreateAndStartContainer demo_no_reader 0 demo_node demo_options_data
                              ∅ ∅ (mkSys tt [])
    = Some (m, mkSys tt [CallRandomString 6;
                         CallVirtualizationCreate "engine" "app_web_abcdef";
                         CallGetReader "/etc/app.conf"])
    /\ CreateContainerMessage.Error m = None
    /\ CreateContainerMessage.ContainerID m = "".
Proof.
  eapply (doCreateAndStartContainer_copy_fails
            demo_no_reader 0 demo_node demo_options_data ∅ ∅ (mkSys tt [])
            _ (mkSys tt [CallRandomString 6])
            (VirtualizationCreated.mk "c1" "app_web_abcdef") tt "no reader");
    [unfold doMakeContainerOptions, bind, call, ret;
     cbn [world calls demo_no_reader RandomString demo_cluster demo];
     reflexivity
    | reflexivity | discriminate | reflexivity].
Defined.

(* ===================================================================== *)
(* The replicas of a node: messages, plans and reservations              *)
(* ===================================================================== *)

Section ReplicaCalls.

Context {W : Type} (ext : Externals W).

Lemma doCreateAndStartContainer_planned no node opts cpu volumePlan :
  triple (doCreateAndStartContainer ext no node opts cpu volumePlan)
         (planned cpu volumePlan).
Proof.
  unfold doCreateAndStartContainer.
  eapply triple_bind.
  - eapply (triple_Txn _ _ _ _
              (fun r => planned cpu volumePlan
                          (launch.createContainerMessage r.1))
              (fun r => planned cpu volumePlan
                          (launch.createContainerMessage r.1))
              (fun v => planned cpu volumePlan
                          (launch.createContainerMessage v))
              (fun v => planned cpu volumePlan
                          (launch.createContainerMessage v))).
    + unfold doCreateAndStartContainer_try.
      eapply triple_bind; [apply doMakeContainerOptions_triple|].
      intros config _. cbv zeta.
      eapply triple_bind; [apply triple_call_launch; reflexivity|].
      intros [err|containerCreated] _; [apply triple_ret; split; reflexivity|].
      eapply triple_bind.
      { destruct (0 <? length (DeployOptions.Data opts))%nat;
          [apply copy_data_triple | apply triple_ret; exact I]. }
      intros [dataErr|] _; [apply triple_ret; split; reflexivity|].
      eapply triple_bind; [apply triple_call_launch; reflexivity|].
      intros [hook [err|]] _; [apply triple_ret; split; reflexivity|].
      eapply triple_bind; [apply triple_call_launch; reflexivity|].
      intros [err|containerInfo] _; [apply triple_ret; split; reflexivity|].
      apply triple_ret.
      destruct (VirtualizationInfo.Networks containerInfo); split; reflexivity.
    + intros v1 [Hc Hv]. unfold doCreateAndStartContainer_then.
      eapply triple_bind; [apply triple_call_launch; reflexivity|].
      intros [err|] _; apply triple_ret; split; assumption.
    + intros v1 e H1. exact H1.
    + intros v2 e H2. exact H2.
    + intros v1 [Hc Hv]. unfold doCreateAndStartContainer_rollback. simpl.
      destruct (launch.err v1) as [err|];
        [|apply triple_ret; split; assumption].
      destruct (negb (String.eqb (Container.ID (launch.container v1)) ""));
        [|apply triple_ret; split; assumption].
      eapply triple_bind; [apply triple_call_launch; reflexivity|].
      intros [removeErr|] _; apply triple_ret; split; assumption.
    + intros v2 H2. exact H2.
  - intros [v ?] Hv. apply triple_ret. exact Hv.
Qed.

Lemma doGetAndPrepareNode_does nodename image :
  does (doGetAndPrepareNode ext nodename image)
       (fun r cs =>
          (r.2 = None -> is_Some r.1)
          /\ Forall (fun c => is_node_call c = false) cs).
Proof.
  unfold doGetAndPrepareNode.
  eapply does_bind; [apply does_call_eq|].
  intros [err|node] cs1 ->.
  - apply does_ret. split; [discriminate | repeat constructor].
  - eapply does_bind; [apply does_call_eq|].
    intros err cs2 ->. apply does_ret. split; [eauto | repeat constructor].
Qed.

Lemma withNodeLocked_does nodename (op : Node.t -> W -> option error * W) :
  does (withNodeLocked ext nodename
          (fun node =>
             call (CallUpdateNodeResource nodename ActionIncr) (op node)))
       (fun _ cs => released nodename cs).
Proof.
  intros s.
  destruct (withNodeLocked_release ext nodename op s)
    as (err & s2 & Hrun & Hcs).
  eexists _, _, _. split; [exact Hrun|]. split; [exact Hcs|].
  destruct (lockNode ext nodename (world s)).1; [left | right]; reflexivity.
Qed.

Lemma plan_entry_does {A} (plans : list A) (none : A) (d i : nat) :
  (length plans =? 0)%nat || (d <=? length plans)%nat = true ->
  (i < d)%nat ->
  does (W := W)
       (if (0 <? length plans)%nat then slice_index plans i else ret none)
       (fun plan cs => plan = plan_entry plans none i /\ cs = []).
Proof.
  intros Hok Hi s. unfold plan_entry.
  destruct (Nat.ltb_spec 0 (length plans)) as [Hpos|Hzero].
  - apply orb_true_iff in Hok as [Hok|Hok].
    + apply Nat.eqb_eq in Hok. lia.
    + apply Nat.leb_le in Hok. unfold slice_index.
      destruct (lookup_lt_is_Some_2 plans i) as [plan Hplan]; [lia|].
      rewrite Hplan. exists plan, s, []. rewrite app_nil_r. auto.
  - exists none, s, []. rewrite app_nil_r. auto.
Qed.

(** What the loop body of doCreateContainerOnNode does for replica [i]:
    it stores one message in slot [i]; the message carries the plan of the
    replica; and after the calls of the launch, the reservation is given
    back exactly when the message has an Error. *)
Lemma doCreateContainerOnNode_replica_does nodeInfo opts index i ms :
  NodeInfo_ok nodeInfo = true ->
  (i < Z.to_nat (NodeInfo.Deploy nodeInfo))%nat ->
  (i < length ms)%nat ->
  does (doCreateContainerOnNode_replica ext nodeInfo opts index i ms)
       (fun ms' cs =>
          exists m launch release,
            ms' = <[i := Some m]> ms
            /\ planned (plan_entry (NodeInfo.CPUPlan nodeInfo) ∅ i)
                       (plan_entry (NodeInfo.VolumePlans nodeInfo) ∅ i) m
            /\ cs = (launch ++ release)%list
            /\ Forall (fun c => is_node_call c = false) launch
            /\ match CreateContainerMessage.Error m with
               | None => release = []
               | Some _ =>
                   CreateContainerMessage.ContainerID m = ""
                   /\ released (NodeInfo.Name nodeInfo) release
               end).
Proof.
  intros (_ & Hcpu & Hvol)%NodeInfo_ok_inv Hi Hlen.
  unfold doCreateContainerOnNode_replica.
  eapply does_bind; [eapply plan_entry_does; eassumption|].
  intros cpu cs0 [-> ->].
  eapply does_bind; [eapply plan_entry_does; eassumption|].
  intros volumePlan cs0 [-> ->].
  set (cpu := plan_entry (NodeInfo.CPUPlan nodeInfo) ∅ i).
  set (volumePlan := plan_entry (NodeInfo.VolumePlans nodeInfo) ∅ i).
  eapply does_bind.
  - eapply (does_Txn _ _ _ _
              (fun r cs =>
                 exists m, r.1.2 = <[i := Some m]> ms
                   /\ planned cpu volumePlan m
                   /\ CreateContainerMessage.Error m = r.2
                   /\ CreateContainerMessage.ContainerID m = ""
                   /\ (r.2 = None -> is_Some r.1.1)
                   /\ Forall (fun c => is_node_call c = false) cs)
              (fun r cs =>
                 exists m, r.1.2 = <[i := Some m]> ms
                   /\ planned cpu volumePlan m
                   /\ CreateContainerMessage.Error m = r.2
                   /\ (r.2 <> None ->
                       CreateContainerMessage.ContainerID m = "")
                   /\ Forall (fun c => is_node_call c = false) cs)
              (fun r cs =>
                 exists m launch release,
                   r.1.2 = <[i := Some m]> ms
                   /\ planned cpu volumePlan m
                   /\ cs = (launch ++ release)%list
                   /\ Forall (fun c => is_node_call c = false) launch
                   /\ match CreateContainerMessage.Error m with
                      | None => release = []
                      | Some _ =>
                          CreateContainerMessage.ContainerID m = ""
                          /\ released (NodeInfo.Name nodeInfo) release
                      end)).
    + cbn beta iota.
      eapply does_bind; [apply doGetAndPrepareNode_does|].
      intros [node err] cs1 [Hnode Hcs1]. apply does_ret. simpl.
      eexists. split; [reflexivity|]. rewrite app_nil_r.
      split_and!; auto; split; reflexivity.
    + intros [node ms1] cs1 (m & Hms & _ & _ & _ & Hnode & Hcs1).
      simpl in *. destruct (Hnode eq_refl) as [node' ->].
      eapply does_bind.
      { apply does_triple;
          [apply doCreateAndStartContainer_protocol
          |apply doCreateAndStartContainer_planned]. }
      intros m' cs2 [Hproto Hplan]. apply does_ret. simpl.
      destruct (launch_calls_kinds _ _ _ Hproto) as [Hcs2 Hid].
      exists m'. rewrite Hms, list_insert_insert_eq, app_nil_r.
      split_and!; auto. apply Forall_app. split; assumption.
    + intros [node ms1] e cs1 (m & Hms & Hplan & Herr & Hid & _ & Hcs1).
      simpl in *. rewrite Hms, list_lookup_insert_eq by assumption.
      rewrite Hid. cbn [String.eqb negb].
      eapply does_bind; [apply withNodeLocked_does|].
      intros err cs2 Hrel. apply does_ret. simpl.
      exists m, cs1, cs2. rewrite app_nil_r, Herr. split_and!; auto.
    + intros [node ms1] e cs1 (m & Hms & Hplan & Herr & Hid & Hcs1).
      simpl in *. rewrite Hms, list_lookup_insert_eq by assumption.
      rewrite Hid by discriminate. cbn [String.eqb negb].
      eapply does_bind; [apply withNodeLocked_does|].
      intros err cs2 Hrel. apply does_ret. simpl.
      exists m, cs1, cs2. rewrite app_nil_r, Herr.
      split_and!; auto.
    + intros [node ms1] cs1 (m & Hms & Hplan & Herr & _ & Hcs1).
      simpl in *. exists m, cs1, []. rewrite app_nil_r, Herr.
      split_and!; auto.
  - intros [[node ms1] err] cs Hq. apply does_ret. rewrite app_nil_r.
    exact Hq.
Qed.

Lemma count_calls_app p cs1 cs2 :
  count_calls p (cs1 ++ cs2)
  = (count_calls p cs1 + count_calls p cs2)%nat.
Proof. unfold count_calls. rewrite filter_app, length_app. reflexivity. Qed.

Lemma count_calls_none (p : Call -> bool) cs :
  Forall (fun c => p c = false) cs -> count_calls p cs = 0%nat.
Proof.
  unfold count_calls. intros H. rewrite filter_none; [reflexivity|].
  rewrite Forall_forall in H. intros c Hc. rewrite (H c Hc). discriminate.
Qed.

Lemma replica_counts nodename m launch release :
  Forall (fun c => is_node_call c = false) launch ->
  match CreateContainerMessage.Error m with
  | None => release = []
  | Some _ =>
      CreateContainerMessage.ContainerID m = "" /\ released nodename release
  end ->
  count_calls is_lock_call (launch ++ release)
  = (if failed (Some m) then 1 else 0)%nat
  /\ count_calls is_release_call (launch ++ release)
     = count_calls is_unlock_call (launch ++ release)
  /\ (count_calls is_release_call (launch ++ release)
      <= count_calls is_lock_call (launch ++ release))%nat.
Proof.
  intros Hlaunch Hrel. rewrite !count_calls_app.
  rewrite (count_calls_none is_lock_call launch),
    (count_calls_none is_release_call launch),
    (count_calls_none is_unlock_call launch);
    try (eapply Forall_impl; [exact Hlaunch|];
         intros [] Hc; simpl in *; try congruence;
         match goal with a : Action |- _ => destruct a end; congruence).
  unfold failed.
  destruct (CreateContainerMessage.Error m) as [e|].
  - destruct Hrel as [_ [->| ->]]; vm_compute; auto.
  - subst release. vm_compute. auto.
Qed.

Lemma doCreateContainerOnNode_loop_does nodeInfo opts index n : forall i ms,
  NodeInfo_ok nodeInfo = true ->
  (i + n <= Z.to_nat (NodeInfo.Deploy nodeInfo))%nat ->
  (i + n <= length ms)%nat ->
  does (doCreateContainerOnNode_loop ext n nodeInfo opts index i ms)
       (fun ms' cs =>
          length ms' = length ms
          /\ (forall j, (j < i \/ i + n <= j)%nat -> ms' !! j = ms !! j)
          /\ (forall j, (i <= j < i + n)%nat ->
                exists m, ms' !! j = Some (Some m)
                  /\ planned (plan_entry (NodeInfo.CPUPlan nodeInfo) ∅ j)
                             (plan_entry (NodeInfo.VolumePlans nodeInfo) ∅ j)
                             m)
          /\ count_calls is_lock_call cs
             = length (filter (fun m => failed m = true)
                              (take n (drop i ms')))
          /\ count_calls is_release_call cs = count_calls is_unlock_call cs
          /\ (count_calls is_release_call cs
              <= count_calls is_lock_call cs)%nat).
Proof.
  induction n as [|n IH]; intros i ms Hok Hd Hlen; simpl.
  - apply does_ret. split_and!; auto. intros j Hj. lia.
  - eapply does_bind;
      [apply doCreateContainerOnNode_replica_does; [assumption|lia..]|].
    intros ms1 cs1 (m & launch & release & -> & Hplan & -> & Hlaunch & Hrel).
    destruct (replica_counts _ _ _ _ Hlaunch Hrel) as (Hl1 & He1 & Hle1).
    eapply does_mono.
    + apply (IH (S i) (<[i := Some m]> ms));
        [assumption | lia | rewrite length_insert; lia].
    + intros ms' cs2 (Hlen' & Hout & Hin & Hl2 & He2 & Hle2). simpl.
      rewrite length_insert in Hlen'.
      assert (Hi : ms' !! i = Some (Some m)).
      { rewrite Hout by lia. apply list_lookup_insert_eq. lia. }
      split_and!.
      * assumption.
      * intros j Hj. rewrite Hout by lia.
        apply list_lookup_insert_ne. lia.
      * intros j Hj. destruct (decide (j = i)) as [->|Hne].
        -- exists m. split; assumption.
        -- apply Hin. lia.
      * rewrite (count_calls_app _ (launch ++ release)), Hl1, Hl2.
        rewrite (drop_S _ _ _ Hi). cbn [take]. rewrite filter_cons.
        destruct (failed (Some m)); simpl; reflexivity.
      * rewrite !(count_calls_app _ (launch ++ release)). lia.
      * rewrite !(count_calls_app _ (launch ++ release)). lia.
Qed.

(** For a well-formed NodeInfo, doCreateContainerOnNode returns, whatever
    the cluster answers, a slice with a message in every slot, each with
    the plan of its replica; it takes the node lock once for every message
    with an Error and for no other, and every reservation it gives back is
    given back under the lock. *)
Lemma doCreateContainerOnNode_does nodeInfo opts index :
  NodeInfo_ok nodeInfo = true ->
  does (doCreateContainerOnNode ext nodeInfo opts index)
       (fun ms cs =>
          length ms = Z.to_nat (NodeInfo.Deploy nodeInfo)
          /\ (forall i, (i < Z.to_nat (NodeInfo.Deploy nodeInfo))%nat ->
                exists m, ms !! i = Some (Some m)
                  /\ planned (plan_entry (NodeInfo.CPUPlan nodeInfo) ∅ i)
                             (plan_entry (NodeInfo.VolumePlans nodeInfo) ∅ i)
                             m)
          /\ count_calls is_lock_call cs
             = length (filter (fun m => failed m = true) ms)
          /\ count_calls is_release_call cs = count_calls is_unlock_call cs
          /\ (count_calls is_release_call cs
              <= count_calls is_lock_call cs)%nat).
Proof.
  intros Hok. unfold doCreateContainerOnNode.
  destruct (NodeInfo_ok_inv _ Hok) as [Hd _].
  destruct (Z.ltb_spec (NodeInfo.Deploy nodeInfo) 0); [lia|].
  eapply does_mono.
  - apply doCreateContainerOnNode_loop_does;
      [assumption | simpl; lia | rewrite length_replicate; simpl; lia].
  - intros ms cs (Hlen & _ & Hin & Hl & He & Hle). simpl in *.
    rewrite length_replicate in Hlen.
    rewrite drop_0, take_ge in Hl by lia.
    split_and!; auto. intros i Hi. apply Hin. lia.
Qed.

(** X17: for a well-formed NodeInfo, doCreateContainerOnNode returns
    whatever the cluster answers, and the slice it returns has a message
    (never nil) for each of the Deploy replicas, whose CPU and VolumePlan
    are the entries of the node's plans for that replica, or empty when
    the node has no plans. *)
Theorem doCreateContainerOnNode_messages nodeInfo opts index :
  NodeInfo_ok nodeInfo = true ->
  does (doCreateContainerOnNode ext nodeInfo opts index)
       (fun ms _ =>
          length ms = Z.to_nat (NodeInfo.Deploy nodeInfo)
          /\ forall i, (i < Z.to_nat (NodeInfo.Deploy nodeInfo))%nat ->
               exists m, ms !! i = Some (Some m)
                 /\ CreateContainerMessage.CPU m
                    = plan_entry (NodeInfo.CPUPlan nodeInfo) ∅ i
                 /\ CreateContainerMessage.VolumePlan m
                    = plan_entry (NodeInfo.VolumePlans nodeInfo) ∅ i).
Proof.
  intros Hok. eapply does_mono; [apply doCreateContainerOnNode_does, Hok|].
  intros ms cs (Hlen & Hin & _). split; [assumption|]. exact Hin.
Qed.


End ReplicaCalls.

Lemma doCreateContainerOnNode_messages_witness :
  does (doCreateContainerOnNode demo_cluster
          (NodeInfo.mk "node1" 2 [∅; {["0" := 100]}] []) (demo_options ∅) 0)
       (fun ms _ =>
          length ms = 2%nat
          /\ forall i, (i < 2)%nat ->
               exists m, ms !! i = Some (Some m)
                 /\ CreateContainerMessage.CPU m
                    = plan_entry [∅; {["0" := 100]}] ∅ i
                 /\ CreateContainerMessage.VolumePlan m
                    = plan_entry [] ∅ i).
Proof.
  apply (doCreateContainerOnNode_messages demo_cluster
           (NodeInfo.mk "node1" 2 [∅; {["0" := 100]}] []) (demo_options ∅) 0).
  reflexivity.
Defined.


(* ===================================================================== *)
(* The goroutines: what is received, and the history of a node           *)
(* ===================================================================== *)

(** X19: every message that is sent on the result channel is a message
    (never nil) for a replica of its node, with the CPU and VolumePlan the
    node's plans hold for that replica. *)
Theorem sent_messages_are_planned {W} (ext : Externals W) opts w d :
  CreateContainer ext opts w = (Some d, None) ->
  Forall (fun nodeInfo => NodeInfo_ok nodeInfo = true) (nodesInfo d) ->
  forall st, steps ext d st ->
  forall k nodeInfo p i m,
    nodesInfo d !! k = Some nodeInfo ->
    trace st !! p = Some (EvSend k i m) ->
    (i < Z.to_nat (NodeInfo.Deploy nodeInfo))%nat
    /\ exists msg,
         m = Some msg
         /\ CreateContainerMessage.CPU msg
            = plan_entry (NodeInfo.CPUPlan nodeInfo) ∅ i
         /\ CreateContainerMessage.VolumePlan msg
            = plan_entry (NodeInfo.VolumePlans nodeInfo) ∅ i.
Proof.
  intros Hcreate Hok st Hsteps k ni p i m Hni Hp.
  pose proof (CreateContainer_inv ext opts w d Hcreate) as Hinv0.
  pose proof (inv_steps ext _ _ d st Hok Hinv0 Hsteps)
    as [Ho Hn Hlen Hpan Hws Hcount Hd].
  destruct (worker_lookup _ (workers st) k ni Hlen Hni) as [wk Hwk].
  pose proof (NodeInfo_ok_lookup _ Hok k ni Hni) as Hniok.
  assert (Hin : EvSend k i m ∈ proj k (trace st)).
  { apply list_elem_of_filter. split; [reflexivity|].
    eapply list_elem_of_lookup_2. eassumption. }
  destruct (worker_launched ext (options d) k ni wk (trace st) Hniok
              (Hws k ni wk Hni Hwk))
    as (index & w0 & ms & s & post & Hrun & Hms & Hcs & Hproj & Hpost).
  { intros Hnil. rewrite Hnil in Hin. inversion Hin. }
  assert (Hi : ms !! i = Some m).
  { rewrite Hproj in Hin. apply elem_of_app in Hin as [Hin|Hin].
    - apply list_elem_of_fmap in Hin as (c & Hc & _). discriminate.
    - destruct (Hpost _ Hin) as [_ Hs]. eapply Hs. reflexivity. }
  pose proof (lookup_lt_Some _ _ _ Hi) as Hlt. rewrite Hms in Hlt.
  split; [assumption|].
  destruct (doCreateContainerOnNode_does ext ni (options d) index Hniok
              (mkSys w0 []))
    as (ms' & s' & cs & Hrun' & _ & _ & Hslots & _).
  rewrite Hrun in Hrun'. injection Hrun' as <- <-.
  destruct (Hslots i Hlt) as (msg & Hmsg & Hcpu & Hvol).
  exists msg. rewrite Hi in Hmsg. injection Hmsg as ->. auto.
Qed.

Lemma sent_messages_are_planned_witness :
  (0 < Z.to_nat (NodeInfo.Deploy (demo_nodeInfo 1)))%nat
  /\ exists msg,
       default None (demo_ms !! 0%nat) = Some msg
       /\ CreateContainerMessage.CPU msg
          = plan_entry (NodeInfo.CPUPlan (demo_nodeInfo 1)) ∅ 0
       /\ CreateContainerMessage.VolumePlan msg
          = plan_entry (NodeInfo.VolumePlans (demo_nodeInfo 1)) ∅ 0.
Proof.
  apply (sent_messages_are_planned demo_cluster (demo_options ∅)
           tt demo_deployment demo_deployment_created demo_nodesInfo_ok
           demo_sent demo_sent_reached 0%nat (demo_nodeInfo 1) 9%nat 0%nat
           (default None (demo_ms !! 0%nat)));
    [reflexivity | vm_compute; reflexivity].
Defined.

(** X20: when the goroutines have come to rest, the history of each node
    is: the calls of one whole run of doCreateContainerOnNode; then, for
    each replica in order, the send of its message and one
    UpdateProcessing that sets the count to Deploy - i - 1; then one
    DeleteProcessing, and nothing after it. *)
Theorem node_history_at_rest {W} (ext : Externals W) opts w d :
  CreateContainer ext opts w = (Some d, None) ->
  Forall (fun nodeInfo => NodeInfo_ok nodeInfo = true) (nodesInfo d) ->
  forall st, steps ext d st -> terminal ext st ->
  forall k nodeInfo,
    nodesInfo d !! k = Some nodeInfo ->
    exists index w0 ms s,
      doCreateContainerOnNode ext nodeInfo (options d) index (mkSys w0 [])
      = Some (ms, s)
      /\ proj k (trace st)
         = (map (EvCall (Worker k)) (calls s)
            ++ sent_events k nodeInfo ms
                 (Z.to_nat (NodeInfo.Deploy nodeInfo))
            ++ [EvCall (Worker k)
                  (CallDeleteProcessing (NodeInfo.Name nodeInfo))])%list.
Proof.
  intros Hcreate Hok st Hsteps Hterm k ni Hni.
  pose proof (CreateContainer_inv ext opts w d Hcreate) as Hinv0.
  pose proof (inv_steps ext _ _ d st Hok Hinv0 Hsteps) as Hinv.
  pose proof (terminal_closed ext _ _ st Hok Hinv Hterm) as Hmain.
  destruct Hinv as [Ho Hn Hlen Hpan Hws Hcount Hd].
  unfold driver_inv in Hd. rewrite Hmain in Hd. destruct Hd as (Hz & _).
  destruct (worker_lookup _ (workers st) k ni Hlen Hni) as [wk Hwk].
  pose proof (running_zero_done _ _ _ Hz Hwk) as Hdone.
  destruct wk; try discriminate.
  destruct (Hws k ni WDone Hni Hwk) as [ms Hl].
  destruct (launched_length ext _ k ni ms _ _
              (NodeInfo_ok_lookup _ Hok k ni Hni) Hl) as [Hms _].
  destruct Hl as (index & w0 & s & Hrun & Hproj).
  exists index, w0, ms, s. rewrite <- Hms. auto.
Qed.

Lemma demo_done_from_start : steps demo_cluster demo_deployment demo_done.
Proof.
  unfold steps. etransitivity; [apply demo_sent_reached|].
  apply demo_done_reached.
Qed.

Lemma demo_done_terminal : terminal demo_cluster demo_done.
Proof.
  eapply (closed_terminal demo_cluster (options demo_deployment)
            (nodesInfo demo_deployment)); [|reflexivity].
  eapply inv_steps; [apply demo_nodesInfo_ok | |].
  - apply (CreateContainer_inv demo_cluster (demo_options ∅) tt).
    apply demo_deployment_created.
  - apply demo_done_from_start.
Qed.

Lemma node_history_at_rest_witness :
  exists index w0 ms s,
    doCreateContainerOnNode demo_cluster (demo_nodeInfo 1)
                            (options demo_deployment) index (mkSys w0 [])
    = Some (ms, s)
    /\ proj 0 (trace demo_done)
       = (map (EvCall (Worker 0)) (calls s)
          ++ sent_events 0 (demo_nodeInfo 1) ms
               (Z.to_nat (NodeInfo.Deploy (demo_nodeInfo 1)))
          ++ [EvCall (Worker 0)
                (CallDeleteProcessing (NodeInfo.Name (demo_nodeInfo 1)))])%list.
Proof.
  apply (node_history_at_rest demo_cluster (demo_options ∅)
           tt demo_deployment demo_deployment_created demo_nodesInfo_ok
           demo_done demo_done_from_start
           demo_done_terminal 0%nat (demo_nodeInfo 1)).
  reflexivity.
Defined.

Lemma offset_S nis k ni :
  nis !! k = Some ni ->
  offset nis (S k) = int_add (offset nis k) (NodeInfo.Deploy ni).
Proof.
  intros Hk. unfold offset.
  rewrite (take_S_r _ _ _ Hk), foldl_app. reflexivity.
Qed.

(** X21: the goroutine of the node at place [k] of the allocator's result
    is started with the index that is the sum of the Deploy counts of the
    nodes before it: in every state that can be reached, a goroutine
    about to call doCreateContainerOnNode holds that index, and so does
    the loop that starts the goroutines. *)
Theorem worker_index_is_offset {W} (ext : Externals W) opts w d :
  CreateContainer ext opts w = (Some d, None) ->
  forall st, steps ext d st ->
    nodesInfo st = nodesInfo d
    /\ (forall k index, workers st !! k = Some (WLaunch index) ->
          index = offset (nodesInfo d) k)
    /\ (forall k index, main st = DSpawn k index ->
          index = offset (nodesInfo d) k).
Proof.
  intros Hcreate.
  apply (rtc_ind_r
           (fun st =>
              nodesInfo st = nodesInfo d
              /\ (forall k index, workers st !! k = Some (WLaunch index) ->
                    index = offset (nodesInfo d) k)
              /\ (forall k index, main st = DSpawn k index ->
                    index = offset (nodesInfo d) k))).
  - split; [reflexivity|].
    unfold CreateContainer in Hcreate.
    destruct (RandomString ext 16 w) as [ident w1].
    destruct (_ <=? 0); [discriminate|].
    destruct (_ <? 0); [discriminate|].
    destruct (PrimFloat.ltb _ _); [discriminate|].
    unfold doCreateContainer in Hcreate.
    destruct (doAllocResource ext _ w1) as [[err|nis] w2]; [discriminate|].
    injection Hcreate as <-. simpl. split.
    + intros k index [? _]%lookup_replicate. discriminate.
    + intros k index ?. discriminate.
  - intros st st' Hsteps Hstep (Hn & Hws & Hmain).
    assert (Hins : forall (ws : list worker) k wk,
               (forall k' index, ws !! k' = Some (WLaunch index) ->
                  index = offset (nodesInfo d) k') ->
               (forall index, wk = WLaunch index ->
                  index = offset (nodesInfo d) k) ->
               forall k' index, <[k := wk]> ws !! k' = Some (WLaunch index) ->
                 index = offset (nodesInfo d) k').
    { intros ws k wk Hold Hnew k' index Hk'.
      destruct (decide (k = k')) as [->|Hne].
      - destruct (decide (k' < length ws)%nat) as [Hlt|Hge].
        + rewrite list_lookup_insert_eq in Hk' by assumption.
          injection Hk' as ->. apply Hnew. reflexivity.
        + rewrite list_insert_ge in Hk' by lia. eapply Hold. eassumption.
      - rewrite list_lookup_insert_ne in Hk' by assumption.
        eapply Hold. eassumption. }
    inversion Hstep; subst; simpl in *;
      (split; [assumption|]); split;
      try assumption; try (intros; discriminate);
      try (apply Hins; [assumption | intros; discriminate]).
    + intros k index [= <- <-]. reflexivity.
    + apply Hins; [assumption|]. intros index' [= <-].
      apply (Hmain k index). reflexivity.
    + intros k' index' [= <- <-]. rewrite (Hmain k index eq_refl).
      symmetry. apply offset_S. rewrite <- Hn. assumption.
Qed.

Lemma worker_index_is_offset_witness :
  nodesInfo demo_sent = nodesInfo demo_deployment
  /\ (forall k index, workers demo_sent !! k = Some (WLaunch index) ->
        index = offset (nodesInfo demo_deployment) k)
  /\ (forall k index, main demo_sent = DSpawn k index ->
        index = offset (nodesInfo demo_deployment) k).
Proof.
  apply (worker_index_is_offset demo_cluster (demo_options ∅) tt
           demo_deployment demo_deployment_created demo_sent
           demo_sent_reached).
Defined.

(* ===================================================================== *)
(* The copy of opts.Data                                                 *)
(* ===================================================================== *)

(** X22: the loop over [opts.Data] stops at the first error. Without an
    error it has taken the reader of every file and sent every file, in
    the order of the range; with an error it has done so for the files
    before the failing one, and for that file it has taken the reader, or
    failed to, and sent nothing after it. *)
Theorem copy_data_calls {W} (ext : Externals W) engine ID data :
  does (copy_data ext engine ID data)
       (fun r cs =>
          match r with
          | None => cs = copy_calls ID data
          | Some _ =>
              exists done dst readerManager rest,
                data = (done ++ (dst, readerManager) :: rest)%list
                /\ (cs = (copy_calls ID done ++ [CallGetReader dst])%list
                    \/ cs = (copy_calls ID done
                             ++ [CallGetReader dst; CallSendFile ID dst])%list)
          end).
Proof.
  induction data as [|[dst readerManager] data IH]; simpl.
  - apply does_ret. reflexivity.
  - eapply does_bind; [apply does_call_eq|].
    intros [err|reader] cs1 ->.
    { apply does_ret. exists [], dst, readerManager, data. auto. }
    eapply does_bind; [apply does_call_eq|].
    intros [err|] cs2 ->.
    { apply does_ret. exists [], dst, readerManager, data. auto. }
    eapply does_mono; [exact IH|].
    intros [e|] cs.
    + intros (done & dst' & rm' & rest & -> & Hcs).
      exists ((dst, readerManager) :: done), dst', rm', rest.
      split; [reflexivity|]. simpl. destruct Hcs as [-> | ->]; auto.
    + intros ->. reflexivity.
Qed.

(* ===================================================================== *)
(* ToStringSlice with sorting                                            *)
(* ===================================================================== *)

(** X23: sorting only reorders. The sorted string slice of ToStringSlice
    is a permutation of the slice that is not sorted, for either value of
    normalize; and when the strings are not normalized it is in ascending
    order, so it is the same whichever way [sort.Slice] orders equal
    strings. *)
Theorem ToStringSlice_sorted_permutation (vbs : VolumeBindings)
    (normalize : bool) :
  ToStringSlice vbs true normalize ≡ₚ ToStringSlice vbs false normalize
  /\ Sorted string_le (ToStringSlice vbs true false)
  /\ forall volumes,
       Sorted string_le volumes ->
       volumes ≡ₚ ToStringSlice vbs false false ->
       volumes = ToStringSlice vbs true false.
Proof.
  rewrite !ToStringSlice_sorted, !ToStringSlice_unsorted.
  pose proof (sort_bindings_Permutation vbs) as Hperm.
  split_and!.
  - change map with (@fmap list _). rewrite Hperm. reflexivity.
  - apply sort_bindings_strings.
  - intros volumes Hs Hp. apply sorted_strings_unique;
      [assumption | apply sort_bindings_strings|].
    rewrite Hp. change map with (@fmap list _). rewrite Hperm. reflexivity.
Qed.

(* ===================================================================== *)
(* CreateContainer: the checks before the allocation                     *)
(* ===================================================================== *)

(** X24: CreateContainer returns a nil channel exactly when the normalized
    options fail one of its three checks, with the error of the first
    check that fails (count, then memory, then CPU quota). Otherwise it
    returns a channel: the options of the deployment are the normalized
    options with the fresh ProcessIdent, the allocator has been called
    once, the channel is open, and the goroutines are started exactly when
    no error is returned. *)
Theorem CreateContainer_validates {W} (ext : Externals W) opts w :
  let o := DeployOptions.set_ProcessIdent (Normalize ext opts)
                                          (RandomString ext 16 w).1 in
  match CreateContainer ext opts w with
  | (None, e) =>
      valid_options o = false
      /\ (e = Some ErrBadCount /\ DeployOptions.Count o <= 0
          \/ e = Some ErrBadMemory
             /\ 0 < DeployOptions.Count o /\ DeployOptions.Memory o < 0
          \/ e = Some ErrBadCPU
             /\ 0 < DeployOptions.Count o /\ 0 <= DeployOptions.Memory o
             /\ PrimFloat.ltb (DeployOptions.CPUQuota o) 0 = true)
  | (Some d, e) =>
      valid_options o = true
      /\ options d = o
      /\ trace d = [EvCall Caller (CallRandomString 16);
                    EvCall Caller CallAllocResource]
      /\ match e with
         | None =>
             main d = DStart
             /\ workers d = replicate (length (nodesInfo d)) WNotStarted
         | Some _ => main d = DNone /\ nodesInfo d = [] /\ workers d = []
         end
  end.
Proof.
  intros o. subst o. unfold CreateContainer, valid_options.
  destruct (RandomString ext 16 w) as [ident w1]. cbn [fst].
  set (o := DeployOptions.set_ProcessIdent (Normalize ext opts) ident).
  destruct (Z.leb_spec (DeployOptions.Count o) 0) as [Hc|Hc].
  { split; [reflexivity|]. left. auto. }
  destruct (Z.ltb_spec (DeployOptions.Memory o) 0) as [Hm|Hm].
  { split; [reflexivity|]. right. left. auto. }
  destruct (PrimFloat.ltb (DeployOptions.CPUQuota o) 0) eqn:Hq.
  { split; [reflexivity|]. right. right. auto. }
  unfold doCreateContainer.
  destruct (doAllocResource ext o w1) as [[err|nis] w2]; simpl;
    split_and!; reflexivity.
Qed.
